(** * uspto-odp: patent-number normalisation, resolution, XML parsing and
      text extraction

    A shallow embedding of the Go package [odp] (files [patent_number.go],
    [client.go], [xml.go]) and the properties of its specification that
    can be stated over it.

    Go strings are byte sequences; they are modelled by [string], whose
    characters ([ascii]) are the bytes.  The few functions of the Go
    standard library the code relies on ([strings.TrimSpace],
    [regexp.FindStringSubmatch], [fmt.Sscanf] with the verb d,
    [xml.Unmarshal]) are modelled from their documentation, each in a module
    of its own. *)

From Stdlib Require Import String Ascii List Bool Arith NArith ZArith Lia.
From Stdlib Require Import DecimalString.
Import ListNotations.

Local Open Scope list_scope.
Local Open Scope string_scope.

(* ================================================================== *)
(** * Part I: definitions *)
(* ================================================================== *)

(** ** Bytes and the Go [strings] package *)

Module GoStrings.

Definition byte (c : ascii) : N := N_of_ascii c.

Definition between (lo hi : N) (c : ascii) : bool :=
  (lo <=? byte c)%N && (byte c <=? hi)%N.

Definition eqByte (n : N) (c : ascii) : bool := (byte c =? n)%N.

(** [len(s)]: the number of bytes. *)
Definition len (s : string) : nat := String.length s.

Fixpoint all (p : ascii -> bool) (s : string) : bool :=
  match s with
  | EmptyString => true
  | String a s' => p a && all p s'
  end.

Fixpoint rev (s : string) : string :=
  match s with
  | EmptyString => EmptyString
  | String a s' => rev s' ++ String a EmptyString
  end.

(** [s[:n]] and [s[n:]] for [n <= len(s)] (Go panics beyond). *)
Fixpoint take (n : nat) (s : string) : string :=
  match n, s with
  | S n', String a s' => String a (take n' s')
  | _, _ => EmptyString
  end.

Fixpoint drop (n : nat) (s : string) : string :=
  match n, s with
  | S n', String _ s' => drop n' s'
  | _, _ => s
  end.

(** [strings.HasPrefix(s, prefix)]. *)
Definition HasPrefix (s pre : string) : bool := String.prefix pre s.

(** *** White space

    [unicode.IsSpace] holds of the runes U+0009..U+000D, U+0020, U+0085,
    U+00A0, U+1680, U+2000..U+200A, U+2028, U+2029, U+202F, U+205F and
    U+3000.  In UTF-8 these are one, two or three bytes long. *)

(** '\t', '\n', '\v', '\f', '\r', ' ' *)
Definition isSpace1 (a : ascii) : bool :=
  between 9 13 a || eqByte 32 a.

(** C2 85 (U+0085), C2 A0 (U+00A0) *)
Definition isSpace2 (a b : ascii) : bool :=
  eqByte 194 a && (eqByte 133 b || eqByte 160 b).

(** E1 9A 80 (U+1680); E2 80 80..8A (U+2000..U+200A); E2 80 A8, E2 80 A9,
    E2 80 AF (U+2028, U+2029, U+202F); E2 81 9F (U+205F);
    E3 80 80 (U+3000) *)
Definition isSpace3 (a b c : ascii) : bool :=
  between 225 227 a && (between 128 191 b &&
    (   eqByte 225 a && eqByte 154 b && eqByte 128 c
     || eqByte 226 a && eqByte 128 b &&
          (between 128 138 c || eqByte 168 c || eqByte 169 c || eqByte 175 c)
     || eqByte 226 a && eqByte 129 b && eqByte 159 c
     || eqByte 227 a && eqByte 128 b && eqByte 128 c)).

(** Dropping the leading runes that are white space, [sp2] and [sp3]
    telling which sequences of two and of three bytes are such runes.
    A byte that starts no valid encoding decodes to U+FFFD, which is not
    white space. *)
Fixpoint trimLeftWith (sp2 : ascii -> ascii -> bool)
    (sp3 : ascii -> ascii -> ascii -> bool) (s : string) : string :=
  match s with
  | EmptyString => EmptyString
  | String a s1 =>
      if isSpace1 a then trimLeftWith sp2 sp3 s1 else
      match s1 with
      | EmptyString => s
      | String b s2 =>
          if sp2 a b then trimLeftWith sp2 sp3 s2 else
          match s2 with
          | EmptyString => s
          | String c s3 => if sp3 a b c then trimLeftWith sp2 sp3 s3 else s
          end
      end
  end.

(** The first rune of [s] is white space. *)
Definition startsWith (sp2 : ascii -> ascii -> bool)
    (sp3 : ascii -> ascii -> ascii -> bool) (s : string) : bool :=
  match s with
  | EmptyString => false
  | String a s1 =>
      isSpace1 a ||
      match s1 with
      | EmptyString => false
      | String b s2 =>
          sp2 a b ||
          match s2 with
          | EmptyString => false
          | String c _ => sp3 a b c
          end
      end
  end.

(** [strings.TrimLeftFunc(s, unicode.IsSpace)]: runes are decoded from
    the front ([utf8.DecodeRuneInString]). *)
Definition TrimLeft : string -> string := trimLeftWith isSpace2 isSpace3.

(** The same from the back ([utf8.DecodeLastRuneInString]), on the
    reversed string: the bytes of a rune arrive last first. *)
Definition isSpace2Rev (a b : ascii) : bool := isSpace2 b a.
Definition isSpace3Rev (a b c : ascii) : bool := isSpace3 c b a.
Definition TrimLeftRev : string -> string :=
  trimLeftWith isSpace2Rev isSpace3Rev.

(** [strings.TrimRightFunc(s, unicode.IsSpace)]. *)
Definition TrimRight (s : string) : string := rev (TrimLeftRev (rev s)).

(** [strings.TrimSpace(s)] = [TrimFunc(s, unicode.IsSpace)]
    = [TrimRightFunc(TrimLeftFunc(s, f), f)]. *)
Definition TrimSpace (s : string) : string := TrimRight (TrimLeft s).

(** [s] neither starts nor ends with a white-space rune. *)
Definition trimmed (s : string) : Prop :=
  startsWith isSpace2 isSpace3 s = false /\
  startsWith isSpace2Rev isSpace3Rev (rev s) = false.

(** A fragment: a trimmed string that is not empty. *)
Definition fragment (s : string) : Prop := s <> EmptyString /\ trimmed s.

(** *** [strings.Builder] *)

Definition Builder := string.
Definition newBuilder : Builder := EmptyString.
Definition WriteString (b : Builder) (s : string) : Builder := b ++ s.
Definition Len (b : Builder) : nat := String.length b.
Definition isEmpty (s : string) : bool :=
  match s with EmptyString => true | _ => false end.

(** [strings.Join(l, sep)], used to state what the builders hold. *)
Fixpoint Join (l : list string) (sep : string) : string :=
  match l with
  | [] => EmptyString
  | [x] => x
  | x :: l' => x ++ sep ++ Join l' sep
  end.

End GoStrings.
Import GoStrings.

(** ** The fragment of Go's [regexp] the five patterns are written in *)

Module Regexp.

(** Regular expressions over bytes.  Every class the patterns use is a
    class of ASCII bytes, so a byte of 128 and more (part of a longer
    rune, or an invalid one) matches none of them, as in Go. *)
Inductive re : Type :=
| Empty                         (** the empty string *)
| Class (p : ascii -> bool)     (** one byte of a class *)
| Cat (r1 r2 : re)              (** r1 r2 *)
| Opt (r : re)                  (** r? (greedy: r is tried first) *)
| Star (p : ascii -> bool)      (** [class]* (greedy: longest first) *)
| Group (i : nat) (r : re).     (** the i-th capturing group *)

Declare Scope re_scope.
Delimit Scope re_scope with re.
Bind Scope re_scope with re.
Infix ">>" := Cat (at level 61, right associativity) : re_scope.

(** r{n} *)
Fixpoint rep (n : nat) (r : re) : re :=
  match n with
  | 0 => Empty
  | 1 => r
  | S n' => Cat r (rep n' r)
  end.

(** r{1,2} *)
Definition rep12 (r : re) : re := Cat r (Opt r).

(** r+ for a class *)
Definition plus (p : ascii -> bool) : re := Cat (Class p) (Star p).

(** a literal string *)
Fixpoint lit (s : string) : re :=
  match s with
  | EmptyString => Empty
  | String a EmptyString => Class (Ascii.eqb a)
  | String a s' => Cat (Class (Ascii.eqb a)) (lit s')
  end.

(** [\d] *)
Definition digit : ascii -> bool := between 48 57.
(** [[A-Z]] *)
Definition upper : ascii -> bool := between 65 90.
(** [\s] is [[\t\n\f\r ]] (no vertical tab) *)
Definition space (c : ascii) : bool :=
  eqByte 9 c || eqByte 10 c || eqByte 12 c || eqByte 13 c || eqByte 32 c.
(** [[,\s]] *)
Definition commaSpace (c : ascii) : bool := eqByte 44 c || space c.
(** [[/,\s]] *)
Definition slashCommaSpace (c : ascii) : bool := eqByte 47 c || commaSpace c.

(** The submatches: [c i] is the text of group [i] ([c 0] the whole
    match). *)
Definition captures := nat -> string.
Definition noCaptures : captures := fun _ => EmptyString.
Definition set (i : nat) (w : string) (c : captures) : captures :=
  fun j => if Nat.eqb i j then w else c j.

(** What is left to match after a prefix of the input was consumed. *)
Definition cont := string -> captures -> option captures.

Definition orElse (x y : option captures) : option captures :=
  match x with Some _ => x | None => y end.

Fixpoint star (p : ascii -> bool) (s : string) (c : captures) (k : cont)
  : option captures :=
  match s with
  | String a s' =>
      if p a then orElse (star p s' c k) (k s c) else k s c
  | EmptyString => k s c
  end.

(** The part of [s] in front of its suffix [s']. *)
Definition consumed (s s' : string) : string :=
  take (len s - len s') s.

(** Backtracking matcher: the alternatives are tried in the order of
    preference of Go's leftmost-first semantics, and the first one whose
    continuation succeeds is returned. *)
Fixpoint run (r : re) (s : string) (c : captures) (k : cont)
  : option captures :=
  match r with
  | Empty => k s c
  | Class p =>
      match s with
      | String a s' => if p a then k s' c else None
      | EmptyString => None
      end
  | Cat r1 r2 => run r1 s c (fun s' c' => run r2 s' c' k)
  | Opt r1 => orElse (run r1 s c k) (k s c)
  | Star p => star p s c k
  | Group i r1 => run r1 s c (fun s' c' => k s' (set i (consumed s s') c'))
  end.

(** The final continuation of a pattern that ends in [$]. *)
Definition atEnd (whole : string) : cont :=
  fun s c => if isEmpty s then Some (set 0 whole c) else None.

(** [regexp.FindStringSubmatch] for a pattern [^r$]: [None] is Go's
    nil. *)
Definition FindStringSubmatch (r : re) (s : string) : option captures :=
  run r s noCaptures (atEnd s).

(** [regexp.MatchString] for a pattern [^r$]. *)
Definition MatchString (r : re) (s : string) : bool :=
  match FindStringSubmatch r s with Some _ => true | None => false end.

(** The language of a pattern, with the captures a match leaves. *)
Fixpoint lang (r : re) (w : string) (c c' : captures) : Prop :=
  match r with
  | Empty => w = EmptyString /\ c' = c
  | Class p => exists a, w = String a EmptyString /\ p a = true /\ c' = c
  | Cat r1 r2 =>
      exists w1 w2 cm, w = w1 ++ w2 /\ lang r1 w1 c cm /\ lang r2 w2 cm c'
  | Opt r1 => (w = EmptyString /\ c' = c) \/ lang r1 w c c'
  | Star p => all p w = true /\ c' = c
  | Group i r1 => exists cm, lang r1 w c cm /\ c' = set i w cm
  end.

End Regexp.
Import Regexp.

(** ** Errors

    The code builds every error with [fmt.Errorf]; an error is what its
    message is made from.  One constructor stands for one format string,
    its arguments being the values formatted into it; [Error] below
    renders the message. *)

Inductive error : Type :=
  (* patent_number.go *)
  | ErrEmptyPatentNumber
  | ErrInvalidLength (length : nat) (input : string)
  | ErrUnrecognizedFormat (input : string)
  (* client.go *)
  | ErrInvalidPatentNumber (cause : error)
  | ErrSearchGrant (grantNumber : string) (cause : error)
  | ErrNoApplicationForGrant (grantNumber : string)
  | ErrNoApplicationNumberForGrant (grantNumber : string)
  | ErrSearchPublication (publicationNumber : string) (cause : error)
  | ErrNoApplicationForPublication (publicationNumber : string)
  | ErrNoApplicationNumberForPublication (publicationNumber : string)
  | ErrUnknownPatentNumberType
  (* xml.go *)
  | ErrParseGrant (cause : error)
  | ErrGrantRoot (actual : string)
  | ErrParseApplication (cause : error)
  | ErrApplicationRoot (actual : string)
  | ErrUnrecognizedDocument
  | ErrInvalidDocumentType (expectedType : Z)
  (* errors made outside this package *)
  | ErrExternal (message : string)        (** of [SearchPatents] *)
  | XMLSyntaxError (message : string)     (** [*xml.SyntaxError], [io.EOF] *)
  | XMLUnmarshalError (message : string). (** [xml.UnmarshalError] *)

Inductive result (A : Type) : Type :=
  | Ok (a : A)
  | Err (e : error).
Arguments Ok {A} a.
Arguments Err {A} e.

(** The verb d of [fmt], for printing. *)
Definition fmtNat (n : nat) : string := NilZero.string_of_uint (Nat.to_uint n).
Definition fmtInt (z : Z) : string := NilZero.string_of_int (Z.to_int z).

(** [err.Error()] *)
Fixpoint Error (e : error) : string :=
  match e with
  | ErrEmptyPatentNumber => "patent number cannot be empty"
  | ErrInvalidLength n input =>
      "unrecognized patent number format (invalid length " ++ fmtNat n
        ++ "): " ++ input
  | ErrUnrecognizedFormat input =>
      "unrecognized patent number format: " ++ input
  | ErrInvalidPatentNumber cause => "invalid patent number: " ++ Error cause
  | ErrSearchGrant n cause =>
      "failed to search for grant number " ++ n ++ ": " ++ Error cause
  | ErrNoApplicationForGrant n => "no application found for grant number " ++ n
  | ErrNoApplicationNumberForGrant n =>
      "application number not found in response for grant number " ++ n
  | ErrSearchPublication n cause =>
      "failed to search for publication number " ++ n ++ ": " ++ Error cause
  | ErrNoApplicationForPublication n =>
      "no application found for publication number " ++ n
  | ErrNoApplicationNumberForPublication n =>
      "application number not found in response for publication number " ++ n
  | ErrUnknownPatentNumberType => "unknown patent number type"
  | ErrParseGrant cause => "failed to parse as patent grant: " ++ Error cause
  | ErrGrantRoot actual =>
      "expected us-patent-grant root element, got " ++ actual
  | ErrParseApplication cause =>
      "failed to parse as patent application: " ++ Error cause
  | ErrApplicationRoot actual =>
      "expected us-patent-application root element, got " ++ actual
  | ErrUnrecognizedDocument =>
      "unrecognized XML document type (expected us-patent-grant or us-patent-application)"
  | ErrInvalidDocumentType t => "invalid document type: " ++ fmtInt t
  | ErrExternal m => m
  | XMLSyntaxError m => m
  | XMLUnmarshalError m => m
  end.

(** ** patent_number.go *)

(** [type PatentNumberType int], its constants numbered by [iota]. *)
Definition PatentNumberType := Z.
Definition PatentNumberTypeUnknown : PatentNumberType := 0%Z.
Definition PatentNumberTypeApplication : PatentNumberType := 1%Z.
Definition PatentNumberTypeGrant : PatentNumberType := 2%Z.
Definition PatentNumberTypePublication : PatentNumberType := 3%Z.

Record PatentNumber : Type := mkPatentNumber {
  Original : string;          (** original input *)
  Normalized : string;        (** normalized format (digits only) *)
  ApplicationNo : string;     (** application number if derivable *)
  Type_ : PatentNumberType;   (** type of number (the field [Type]) *)
  Country : string            (** country code *)
}.

Definition setNormalized (v : string) (pn : PatentNumber) : PatentNumber :=
  mkPatentNumber (Original pn) v (ApplicationNo pn) (Type_ pn) (Country pn).
Definition setApplicationNo (v : string) (pn : PatentNumber) : PatentNumber :=
  mkPatentNumber (Original pn) (Normalized pn) v (Type_ pn) (Country pn).
Definition setType (v : PatentNumberType) (pn : PatentNumber) : PatentNumber :=
  mkPatentNumber (Original pn) (Normalized pn) (ApplicationNo pn) v (Country pn).

Section Patterns.
Local Open Scope re_scope.

Let US : re := Opt (lit "US").
Let d : re := Class digit.

(** [^(?:US)?[\s]*(\d{2})/(\d{3})[,\s]*(\d{3})$] *)
Definition applicationWithSlashPattern : re :=
  US >> Star space >> Group 1 (rep 2 d) >> lit "/" >> Group 2 (rep 3 d)
     >> Star commaSpace >> Group 3 (rep 3 d).

(** [^(?:US)?[\s]*(\d{1,2})[,\s]*(\d{3})[,\s]*(\d{3})[\s]+[A-Z]\d$] *)
Definition grantWithKindPattern : re :=
  US >> Star space >> Group 1 (rep12 d) >> Star commaSpace
     >> Group 2 (rep 3 d) >> Star commaSpace >> Group 3 (rep 3 d)
     >> plus space >> Class upper >> d.

(** [^(?:US)?[\s]*(\d{1,2}),(\d{3}),(\d{3})$] *)
Definition grantWithCommaPattern : re :=
  US >> Star space >> Group 1 (rep12 d) >> lit "," >> Group 2 (rep 3 d)
     >> lit "," >> Group 3 (rep 3 d).

(** [^(?:US)?[\s]*(\d{4})[/,\s]*(\d{7})(?:\s*[A-Z]\d)?$] *)
Definition publicationPattern : re :=
  US >> Star space >> Group 1 (rep 4 d) >> Star slashCommaSpace
     >> Group 2 (rep 7 d) >> Opt (Star space >> Class upper >> d).

(** [^\d+$] *)
Definition digitsOnlyPattern : re := plus digit.
End Patterns.

Definition NormalizePatentNumber (input : string) : result PatentNumber :=
  if isEmpty input then Err ErrEmptyPatentNumber else
  (* Clean up input *)
  let cleaned := TrimSpace input in
  let result :=
    mkPatentNumber input EmptyString EmptyString PatentNumberTypeUnknown "US" in
  (* Try grant with kind code first *)
  match FindStringSubmatch grantWithKindPattern cleaned with
  | Some matches =>
      let series := matches 1 in
      let number := matches 2 ++ matches 3 in
      Ok (setApplicationNo EmptyString
           (setType PatentNumberTypeGrant
             (setNormalized (series ++ number) result)))
  | None =>
  (* Try application with slash *)
  match FindStringSubmatch applicationWithSlashPattern cleaned with
  | Some matches =>
      let series := matches 1 in
      let number := matches 2 ++ matches 3 in
      Ok (setType PatentNumberTypeApplication
           (setApplicationNo (series ++ number)
             (setNormalized (series ++ number) result)))
  | None =>
  (* Try grant with comma formatting *)
  match FindStringSubmatch grantWithCommaPattern cleaned with
  | Some matches =>
      let series := matches 1 in
      let number := matches 2 ++ matches 3 in
      Ok (setApplicationNo EmptyString
           (setType PatentNumberTypeGrant
             (setNormalized (series ++ number) result)))
  | None =>
  (* Try publication pattern *)
  match FindStringSubmatch publicationPattern cleaned with
  | Some matches =>
      let year := matches 1 in
      let number := matches 2 in
      Ok (setApplicationNo EmptyString
           (setType PatentNumberTypePublication
             (setNormalized (year ++ number) result)))
  | None =>
  (* Fallback: digits only *)
  if MatchString digitsOnlyPattern cleaned then
    let result := setNormalized cleaned result in
    (* Heuristics based on length *)
    let length := len cleaned in
    if (length =? 7)%nat then
      Ok (setType PatentNumberTypeGrant result)
    else if ((length =? 8) || (length =? 9))%nat then
      Ok (setApplicationNo cleaned (setType PatentNumberTypeApplication result))
    else if (length =? 11)%nat then
      Ok (setType PatentNumberTypePublication result)
    else
      Err (ErrInvalidLength length input)
  else
    Err (ErrUnrecognizedFormat input)
  end end end end.

Definition ToApplicationNumber (pn : PatentNumber) : string :=
  if negb (isEmpty (ApplicationNo pn)) then ApplicationNo pn
  else Normalized pn.

Definition FormatAsApplication (pn : PatentNumber) : string :=
  if negb (Type_ pn =? PatentNumberTypeApplication)%Z then Normalized pn
  else if (8 <=? len (Normalized pn))%nat then
    let series := take 2 (Normalized pn) in
    let first := take 3 (drop 2 (Normalized pn)) in
    let second := drop 5 (Normalized pn) in
    series ++ "/" ++ first ++ "," ++ second
  else Normalized pn.

Definition FormatAsGrant (pn : PatentNumber) : string :=
  if negb (Type_ pn =? PatentNumberTypeGrant)%Z then Normalized pn
  else if (len (Normalized pn) =? 7)%nat then
    take 1 (Normalized pn) ++ "," ++ take 3 (drop 1 (Normalized pn))
      ++ "," ++ drop 4 (Normalized pn)
  else if (len (Normalized pn) =? 8)%nat then
    take 2 (Normalized pn) ++ "," ++ take 3 (drop 2 (Normalized pn))
      ++ "," ++ drop 5 (Normalized pn)
  else Normalized pn.

Definition FormatAsPublication (pn : PatentNumber) : string :=
  if negb (Type_ pn =? PatentNumberTypePublication)%Z then Normalized pn
  else if (len (Normalized pn) =? 11)%nat then
    take 4 (Normalized pn) ++ "/" ++ drop 4 (Normalized pn)
  else Normalized pn.

(** ** [fmt.Sscanf(str, "%d", &n)] *)

Module GoFmt.

Definition newline : ascii := ascii_of_N 10.

(** The method [SkipSpace] of the scanner, in a scan in which a newline does not count as
    space: white-space runes are skipped, a newline is an error.
    (A carriage return in front of a newline is skipped and the newline
    then met.) *)
Fixpoint SkipSpace (s : string) : option string :=
  match s with
  | EmptyString => Some s
  | String a s1 =>
      if eqByte 10 a then None else
      if isSpace1 a then SkipSpace s1 else
      match s1 with
      | EmptyString => Some s
      | String b s2 =>
          if isSpace2 a b then SkipSpace s2 else
          match s2 with
          | EmptyString => Some s
          | String c s3 => if isSpace3 a b c then SkipSpace s3 else Some s
          end
      end
  end.

(** The longest prefix made of bytes of a class, and the rest. *)
Fixpoint span (p : ascii -> bool) (s : string) : string * string :=
  match s with
  | String a s' =>
      if p a then let (tok, rest) := span p s' in (String a tok, rest)
      else (EmptyString, s)
  | EmptyString => (EmptyString, EmptyString)
  end.

(** [sign]: "+-" *)
Definition isSign (a : ascii) : bool := eqByte 43 a || eqByte 45 a.
(** [decimalDigits], the digits that [getBase] gives [scanNumber] for
    the verb d: "0123456789" (the underscore is a digit of the verb v
    only). *)
Definition isDecimalDigit (a : ascii) : bool := between 48 57 a.

(** The value of a string of decimal digits. *)
Fixpoint decimal (acc : Z) (s : string) : Z :=
  match s with
  | EmptyString => acc
  | String a s' => decimal (10 * acc + (Z.of_N (byte a) - 48)) s'
  end.

(** [strconv.ParseInt(tok, 10, 64)] on a token of an optional sign and
    bytes: a byte that is not a decimal digit is a syntax error (the
    scanner passes none), a value outside of int64 a range error. *)
Definition ParseInt (negative : bool) (digits : string) : option Z :=
  if all (between 48 57) digits then
    let v := if negative then (- decimal 0 digits)%Z else decimal 0 digits in
    if ((- 2 ^ 63 <=? v) && (v <=? 2 ^ 63 - 1))%Z then Some v else None
  else None.

(** [fmt.Sscanf(str, "%d", &n)] with [n] an [int] of 64 bits: [Some v]
    when [err == nil], [v] being stored in [n].  White space is skipped
    (by [doScanf], and again by [scanInt]), a sign is accepted, and the
    token is the decimal digits that follow, one at least ([scanNumber]);
    the scan stops at the first byte that is not a decimal digit, and
    input left over after the number is not an error. *)
Definition Sscanf_d (str : string) : option Z :=
  match SkipSpace str with
  | None => None
  | Some s =>
  match SkipSpace s with
  | None => None
  | Some s =>
      let (negative, s) :=
        match s with
        | String a s' => if isSign a then (eqByte 45 a, s') else (false, s)
        | EmptyString => (false, s)
        end in
      let (tok, _) := span isDecimalDigit s in
      if isEmpty tok then None else ParseInt negative tok
  end end.

End GoFmt.

(** ** encoding/xml: names, and what [xml.Unmarshal] checks of the root *)

Module GoXML.

(** [xml.Name] *)
Record Name : Type := mkName { Space : string; Local : string }.

(** What the decoder finds in a byte buffer, seen from [xml.Unmarshal]:
    either an error before any start element was read (a syntax error
    in the prolog, or [io.EOF] on an input without element, as the empty
    one), or the start element of the root, followed by the rest of the
    element, which is read without error or not. *)
Inductive Decoded (Element : Type) : Type :=
| NoStartElement (e : error)
| StartElement (name : Name) (rest : result Element).
Arguments NoStartElement {Element} e.
Arguments StartElement {Element} name rest.

(** [xml.Unmarshal(data, &v)] for [v] a struct with a field
    [XMLName xml.Name] tagged [tag].  Modelled from the documentation
    of encoding/xml: "If the XMLName field has an associated tag of the
    form "name" or "namespace-URL name", the XML element must have the
    given name (and, optionally, name space) or else Unmarshal returns
    an error"; otherwise the name of the element is stored in the field
    ([setXMLName]) and the other fields are filled from the attributes
    and the content ([fields]; strings, structs and slices only, so that
    no value fails to convert).  The name is checked when the start
    element is read, before the rest of the element. *)
Definition Unmarshal {Element T : Type} (tag : string)
    (setXMLName : Name -> T -> T) (fields : Element -> T)
    (d : Decoded Element) : result T :=
  match d with
  | NoStartElement e => Err e
  | StartElement name rest =>
      if negb (Local name =? tag) then
        Err (XMLUnmarshalError
               ("expected element type <" ++ tag ++ "> but have <"
                  ++ Local name ++ ">"))
      else
        match rest with
        | Err e => Err e
        | Ok el => Ok (setXMLName name (fields el))
        end
  end.

End GoXML.

(** ** xml.go: the document model, the parser and the text extraction *)

Module XML.
Import GoXML.

Definition nl : string := String GoFmt.newline EmptyString.
(** "\n\n" *)
Definition blankLine : string := nl ++ nl.

(** Formatting elements; each holds its character data. *)
Record Sub : Type := mkSub { Sub_Text : string }.
Record Sup : Type := mkSup { Sup_Text : string }.
Record Italic : Type := mkItalic { Italic_Text : string }.
Record Bold : Type := mkBold { Bold_Text : string }.

Record DocumentID : Type := mkDocumentID {
  DocumentID_Country : string;
  DocNumber : string;
  Kind : string;
  Date : string
}.

Record Text : Type := mkText {
  Text_ID : string;
  Text_Lang : string;
  Text_Text : string
}.

Record Bibliography : Type := mkBibliography {
  PublicationReference : option DocumentID;
  ApplicationReference : option DocumentID;
  InventionTitle : list Text
}.

Record Paragraph : Type := mkParagraph {
  Paragraph_ID : string;
  Paragraph_Num : string;
  Paragraph_Text : string;
  Paragraph_Sub : list Sub;
  Paragraph_Sup : list Sup;
  Paragraph_I : list Italic;
  Paragraph_B : list Bold
}.

Record Abstract : Type := mkAbstract {
  Abstract_ID : string;
  Abstract_Lang : string;
  Abstract_Paragraphs : list Paragraph
}.

Record Heading : Type := mkHeading {
  Heading_ID : string;
  Level : string;
  Heading_Text : string
}.

Record Description : Type := mkDescription {
  Description_ID : string;
  Description_Lang : string;
  Headings : list Heading;
  Paragraphs : list Paragraph
}.

Record Image : Type := mkImage {
  Image_ID : string;
  He : string;
  Wi : string;
  Image_File : string;
  Alt : string;
  ImgContent : string;
  ImgFormat : string
}.

Record Figure : Type := mkFigure { Figure_ID : string; Img : Image }.

Record DrawingsInfo : Type := mkDrawingsInfo {
  DrawingsInfo_ID : string;
  Figures : list Figure
}.

(** Claim text with nested claim-text elements. *)
#[local] Unset Elimination Schemes.
Inductive ClaimText : Type := mkClaimText {
  ClaimText_ID : string;
  ClaimText_Text : string;
  NestedClaims : list ClaimText;
  ClaimText_Sub : list Sub;
  ClaimText_Sup : list Sup;
  ClaimText_I : list Italic;
  ClaimText_B : list Bold
}.
#[local] Set Elimination Schemes.

Record Claim : Type := mkClaim {
  Claim_ID : string;
  Num : string;
  Claim_ClaimText : list ClaimText
}.

Record Claims : Type := mkClaims {
  Claims_ID : string;
  Claims_Lang : string;
  ClaimList : list Claim
}.

Record PatentGrant : Type := mkPatentGrant {
  Grant_XMLName : Name;
  Grant_Lang : string;
  Grant_DTDVersion : string;
  Grant_File : string;
  Grant_Status : string;
  Grant_ID : string;
  Grant_Country : string;
  Grant_DateProduced : string;
  Grant_DatePubl : string;
  Grant_Bibliography : option Bibliography;
  Grant_Abstract : option Abstract;
  Grant_DrawingsInfo : option DrawingsInfo;
  Grant_Description : option Description;
  Grant_Claims : option Claims
}.

Record PatentApplication : Type := mkPatentApplication {
  Application_XMLName : Name;
  Application_Lang : string;
  Application_DTDVersion : string;
  Application_File : string;
  Application_Status : string;
  Application_ID : string;
  Application_Country : string;
  Application_DateProduced : string;
  Application_DatePubl : string;
  Application_Bibliography : option Bibliography;
  Application_Abstract : option Abstract;
  Application_DrawingsInfo : option DrawingsInfo;
  Application_Description : option Description;
  Application_Claims : option Claims
}.

Record XMLDocument : Type := mkXMLDocument {
  Grant : option PatentGrant;
  Application : option PatentApplication
}.

(** [type DocumentType int], its constants numbered by [iota]. *)
Definition DocumentType := Z.
Definition DocumentTypeUnknown : DocumentType := 0%Z.
Definition DocumentTypeGrant : DocumentType := 1%Z.
Definition DocumentTypeApplication : DocumentType := 2%Z.

Definition GetDocumentType (d : XMLDocument) : DocumentType :=
  match Grant d, Application d with
  | Some _, _ => DocumentTypeGrant
  | None, Some _ => DocumentTypeApplication
  | None, None => DocumentTypeUnknown
  end.

Definition GetTitle (d : XMLDocument) : string :=
  let bib :=
    match Grant d, Application d with
    | Some g, _ => Grant_Bibliography g
    | None, Some a => Application_Bibliography a
    | None, None => None
    end in
  match bib with
  | None => EmptyString
  | Some b =>
      match InventionTitle b with
      | [] => EmptyString
      | t :: _ => TrimSpace (Text_Text t)
      end
  end.

Definition GetAbstract (d : XMLDocument) : option Abstract :=
  match Grant d, Application d with
  | Some g, _ => Grant_Abstract g
  | None, Some a => Application_Abstract a
  | None, None => None
  end.

Definition GetDescription (d : XMLDocument) : option Description :=
  match Grant d, Application d with
  | Some g, _ => Grant_Description g
  | None, Some a => Application_Description a
  | None, None => None
  end.

Definition GetClaims (d : XMLDocument) : option Claims :=
  match Grant d, Application d with
  | Some g, _ => Grant_Claims g
  | None, Some a => Application_Claims a
  | None, None => None
  end.

(** [extractParagraphText(p)]; [None] is the nil pointer. *)
Definition extractParagraphText (p : option Paragraph) : string :=
  match p with
  | None => EmptyString
  | Some p => TrimSpace (Paragraph_Text p)
  end.

(** The loops below write to a [strings.Builder]; [for i, x := range l]
    is a recursion on [l] that carries the index and the builder. *)

Fixpoint abstractLoop (i : nat) (l : list Paragraph) (builder : Builder)
  : Builder :=
  match l with
  | [] => builder
  | p :: l' =>
      let builder :=
        if (0 <? i)%nat then WriteString builder blankLine else builder in
      abstractLoop (S i) l'
        (WriteString builder (extractParagraphText (Some p)))
  end.

Definition ExtractAbstractText (a : option Abstract) : string :=
  match a with
  | None => EmptyString
  | Some a => TrimSpace (abstractLoop 0 (Abstract_Paragraphs a) newBuilder)
  end.

(** The state of [ExtractDescriptionText]: the builder and
    [lastWasHeading]. *)
Definition headingStep (st : Builder * bool) (h : Heading)
  : Builder * bool :=
  let (builder, _) := st in
  let builder :=
    if (0 <? Len builder)%nat then WriteString builder blankLine
    else builder in
  (WriteString builder (TrimSpace (Heading_Text h)), true).

Definition paragraphStep (st : Builder * bool) (p : Paragraph)
  : Builder * bool :=
  let (builder, lastWasHeading) := st in
  let builder :=
    if (0 <? Len builder)%nat then
      if lastWasHeading then WriteString builder blankLine
      else WriteString builder blankLine
    else builder in
  (WriteString builder (extractParagraphText (Some p)), false).

Definition ExtractDescriptionText (d : option Description) : string :=
  match d with
  | None => EmptyString
  | Some d =>
      let st := fold_left headingStep (Headings d) (newBuilder, false) in
      let st := fold_left paragraphStep (Paragraphs d) st in
      TrimSpace (fst st)
  end.

(** The body of the loop of [extractClaimTextRecursive] for the element
    [ct], [nested] being what the recursive call on [ct.NestedClaims]
    returns. *)
Definition claimTextStep (nested : ClaimText -> string)
    (builder : Builder) (ct : ClaimText) : Builder :=
  (* Add the text at this level *)
  let text := TrimSpace (ClaimText_Text ct) in
  let builder :=
    if negb (isEmpty text) then
      let builder :=
        if (0 <? Len builder)%nat then WriteString builder " "
        else builder in
      WriteString builder text
    else builder in
  (* Recursively process nested claim-text elements *)
  if (0 <? List.length (NestedClaims ct))%nat then
    let nested := nested ct in
    if negb (isEmpty nested) then
      let builder :=
        if (0 <? Len builder)%nat then WriteString builder " "
        else builder in
      WriteString builder nested
    else builder
  else builder.

(** [extractClaimTextRecursive(ct.NestedClaims, depth+1)], by recursion
    on the element [ct]. *)
Fixpoint extractNested (depth : Z) (ct : ClaimText) {struct ct} : string :=
  match ct with
  | mkClaimText _ _ nestedClaims _ _ _ _ =>
      TrimSpace
        (fold_left (claimTextStep (extractNested (depth + 1)))
           nestedClaims newBuilder)
  end.

Definition extractClaimTextRecursive (claimTexts : list ClaimText)
    (depth : Z) : string :=
  TrimSpace
    (fold_left (claimTextStep (extractNested (depth + 1)))
       claimTexts newBuilder).

Definition ExtractClaimText (c : option Claim) : string :=
  match c with
  | None => EmptyString
  | Some c => extractClaimTextRecursive (Claim_ClaimText c) 0
  end.

(** [ExtractAllClaimsText]; the nil slice is the empty list. *)
Definition ExtractAllClaimsText (c : option Claims) : list string :=
  match c with
  | None => []
  | Some c =>
      fold_left
        (fun result claim =>
           let text := ExtractClaimText (Some claim) in
           if negb (isEmpty text) then (result ++ [text])%list else result)
        (ClaimList c) []
  end.

(** The number in the header of the claim at index [i]. *)
Definition claimNumber (i : nat) (claim : Claim) : Z :=
  let claimNum := (Z.of_nat i + 1)%Z in
  if negb (isEmpty (Num claim)) then
    (* claimNum = 0; try to parse it *)
    match GoFmt.Sscanf_d (Num claim) with
    | Some n => n
    | None => (Z.of_nat i + 1)%Z
    end
  else claimNum.



(** *** Parsing *)

Section Parse.

(** The decoder of encoding/xml, taken as given: the structure it
    finds in the bytes, and how the attributes and the content of a
    root element fill the fields of the two structs. *)
Variable Element : Type.
Variable decode : string -> Decoded Element.
Variable grantFields : Element -> PatentGrant.
Variable applicationFields : Element -> PatentApplication.

Definition setGrantXMLName (name : Name) (g : PatentGrant)
  : PatentGrant :=
  mkPatentGrant name (Grant_Lang g) (Grant_DTDVersion g) (Grant_File g)
    (Grant_Status g) (Grant_ID g) (Grant_Country g)
    (Grant_DateProduced g) (Grant_DatePubl g) (Grant_Bibliography g)
    (Grant_Abstract g) (Grant_DrawingsInfo g) (Grant_Description g)
    (Grant_Claims g).

Definition setApplicationXMLName (name : Name) (a : PatentApplication)
  : PatentApplication :=
  mkPatentApplication name (Application_Lang a)
    (Application_DTDVersion a) (Application_File a)
    (Application_Status a) (Application_ID a) (Application_Country a)
    (Application_DateProduced a) (Application_DatePubl a)
    (Application_Bibliography a) (Application_Abstract a)
    (Application_DrawingsInfo a) (Application_Description a)
    (Application_Claims a).

(** [xml.Unmarshal(data, &grant)], the field [XMLName] being tagged
    [xml:"us-patent-grant"]. *)
Definition UnmarshalGrant (data : string) : result PatentGrant :=
  Unmarshal "us-patent-grant" setGrantXMLName grantFields (decode data).

(** [xml.Unmarshal(data, &app)], the field [XMLName] being tagged
    [xml:"us-patent-application"]. *)
Definition UnmarshalApplication (data : string)
  : result PatentApplication :=
  Unmarshal "us-patent-application" setApplicationXMLName
    applicationFields (decode data).

Definition ParseXMLWithType (data : string) (expectedType : DocumentType)
  : result XMLDocument :=
  if (expectedType =? DocumentTypeGrant)%Z then
    match UnmarshalGrant data with
    | Err err => Err (ErrParseGrant err)
    | Ok grant =>
        if negb (Local (Grant_XMLName grant) =? "us-patent-grant") then
          Err (ErrGrantRoot (Local (Grant_XMLName grant)))
        else Ok (mkXMLDocument (Some grant) None)
    end
  else if (expectedType =? DocumentTypeApplication)%Z then
    match UnmarshalApplication data with
    | Err err => Err (ErrParseApplication err)
    | Ok app =>
        if negb (Local (Application_XMLName app)
                   =? "us-patent-application") then
          Err (ErrApplicationRoot (Local (Application_XMLName app)))
        else Ok (mkXMLDocument None (Some app))
    end
  else if (expectedType =? DocumentTypeUnknown)%Z then
    (* Try parsing as patent application *)
    let asApplication :=
      match UnmarshalApplication data with
      | Ok app =>
          if Local (Application_XMLName app) =? "us-patent-application"
          then Ok (mkXMLDocument None (Some app))
          else Err ErrUnrecognizedDocument
      | Err _ => Err ErrUnrecognizedDocument
      end in
    (* Try parsing as patent grant first *)
    match UnmarshalGrant data with
    | Ok grant =>
        if Local (Grant_XMLName grant) =? "us-patent-grant"
        then Ok (mkXMLDocument (Some grant) None)
        else asApplication
    | Err _ => asApplication
    end
  else Err (ErrInvalidDocumentType expectedType).

Definition ParseXML (data : string) : result XMLDocument :=
  ParseXMLWithType data DocumentTypeUnknown.
Definition ParseGrantXML (data : string) : result XMLDocument :=
  ParseXMLWithType data DocumentTypeGrant.
Definition ParseApplicationXML (data : string) : result XMLDocument :=
  ParseXMLWithType data DocumentTypeApplication.

End Parse.

(** *** The vocabulary of the specification *)

(** The trimmed text of a claim-text element, then those of the elements
    nested in it, depth first and from left to right. *)
Fixpoint nodeTexts (ct : ClaimText) : list string :=
  match ct with
  | mkClaimText _ text nestedClaims _ _ _ _ =>
      TrimSpace text :: flat_map nodeTexts nestedClaims
  end.

Definition nonEmpty (s : string) : bool := negb (isEmpty s).

(** The fragments of a claim: the texts of its elements, in document
    order, that are not empty. *)
Definition claimFragments (claimTexts : list ClaimText) : list string :=
  filter nonEmpty (flat_map nodeTexts claimTexts).




(** The headings of a description, each trimmed, then its paragraphs,
    each trimmed. *)
Definition descriptionBlocks (d : Description) : list string :=
  (map (fun h => TrimSpace (Heading_Text h)) (Headings d)
     ++ map (fun p => TrimSpace (Paragraph_Text p)) (Paragraphs d))%list.

(** A claim-text element without its formatting elements. *)
Fixpoint plain (ct : ClaimText) : ClaimText :=
  match ct with
  | mkClaimText id text nestedClaims _ _ _ _ =>
      mkClaimText id text (map plain nestedClaims) [] [] [] []
  end.

(** Writing one more block to a builder: after a blank line unless the
    builder is empty. *)
Definition writeBlock (builder : Builder) (x : string) : Builder :=
  WriteString
    (if (0 <? Len builder)%nat then WriteString builder blankLine
     else builder) x.

(** *** Sample inputs of the parser

    Three documents and what the decoder of encoding/xml finds in them:
    a well-formed document of each grammar, and a document of the
    application grammar whose content is not well-formed (the element
    [p] is not closed), on which the decoder reads the start element of
    the root and later reports a syntax error. *)
Definition sampleApplication : string :=
  "<us-patent-application lang='EN'></us-patent-application>".
Definition sampleGrant : string :=
  "<us-patent-grant lang='EN'></us-patent-grant>".
Definition brokenApplication : string :=
  "<us-patent-application lang='EN'><p></us-patent-application>".

Definition sampleDecode (data : string) : Decoded string :=
  if data =? sampleApplication then
    StartElement (mkName EmptyString "us-patent-application") (Ok "EN")
  else if data =? sampleGrant then
    StartElement (mkName EmptyString "us-patent-grant") (Ok "EN")
  else if data =? brokenApplication then
    StartElement (mkName EmptyString "us-patent-application")
      (Err (XMLSyntaxError
              "XML syntax error on line 1: element <p> closed by </us-patent-application>"))
  else NoStartElement (XMLSyntaxError "EOF").

Definition sampleGrantFields (lang : string) : PatentGrant :=
  mkPatentGrant (mkName EmptyString EmptyString) lang EmptyString
    EmptyString EmptyString EmptyString EmptyString EmptyString EmptyString
    None None None None None.

Definition sampleApplicationFields (lang : string) : PatentApplication :=
  mkPatentApplication (mkName EmptyString EmptyString) lang EmptyString
    EmptyString EmptyString EmptyString EmptyString EmptyString EmptyString
    None None None None None.

(** A description whose last paragraph holds no character data (only a
    table or a figure, say). *)
Definition sampleDescription : Description :=
  mkDescription "description" "EN"
    [mkHeading "h-0001" "1" "BACKGROUND"]
    [mkParagraph "p-0001" "0001" "Traditional networks." [] [] [] [];
     mkParagraph "p-0002" "0002" EmptyString [] [] [] []].


End XML.

(** ** Further code of patent_number.go and client.go *)

(** The decimal digits of a string, in order. *)
Fixpoint digitsOf (s : string) : string :=
  match s with
  | EmptyString => EmptyString
  | String a s' => if digit a then String a (digitsOf s') else digitsOf s'
  end.

Definition notUpper (a : ascii) : bool := negb (upper a).
Definition notSlash (a : ascii) : bool := negb (eqByte 47 a).

(** A continuation whose failure does not depend on the captures. *)
Definition insensitive (k : cont) : Prop :=
  forall s c1 c2, k s c1 = None -> k s c2 = None.

(** The method [String] of [PatentNumber]. *)
Definition PatentNumber_String (pn : PatentNumber) : string :=
  let typeStr :=
    if (Type_ pn =? PatentNumberTypeApplication)%Z then "application"
    else if (Type_ pn =? PatentNumberTypeGrant)%Z then "grant"
    else if (Type_ pn =? PatentNumberTypePublication)%Z then "publication"
    else "unknown" in
  Original pn ++ " (" ++ typeStr ++ ": " ++ Normalized pn ++ ")".

(** The requests of client.go: configuration, retries and the status
    check that every endpoint function makes. *)

Module Transport.

Record Config : Type := mkConfig {
  BaseURL : string;
  APIKey : string;
  UserAgent : string;
  MaxRetries : Z;
  RetryDelay : Z;    (** seconds *)
  Timeout : Z        (** seconds *)
}.

Definition DefaultConfig : Config :=
  mkConfig "https://api.uspto.gov" EmptyString "PatentDev/1.0" 3 1 30.

(** The errors of a request. *)
#[local] Unset Elimination Schemes.
Inductive requestError : Type :=
  | ErrTransport (message : string)   (** from the generated client *)
  | ErrAPIStatus (status : Z)         (** "API returned status %d" *)
  | ErrFailedAfterRetries (maxRetries : Z) (lastErr : option requestError).
                                      (** "failed after %d retries: %w" *)
#[local] Set Elimination Schemes.

Fixpoint requestErrorMessage (e : requestError) : string :=
  match e with
  | ErrTransport m => m
  | ErrAPIStatus status => "API returned status " ++ fmtInt status
  | ErrFailedAfterRetries n lastErr =>
      "failed after " ++ fmtInt n ++ " retries: "
        ++ match lastErr with
           | Some e' => requestErrorMessage e'
           | None => "%!w(<nil>)"
           end
  end.

(** Arithmetic of [int] and of [time.Duration], both of 64 bits. *)
Definition wrap64 (z : Z) : Z := ((z + 2 ^ 63) mod 2 ^ 64 - 2 ^ 63)%Z.

(** [time.Duration(seconds) * time.Second], in nanoseconds. *)
Definition secondsDuration (seconds : Z) : Z :=
  wrap64 (wrap64 seconds * 1000000000).

(** What [retryableRequest] does besides computing: it calls [fn] and it
    sleeps. *)
Inductive event : Type :=
  | Called
  | Slept (duration : Z).

Section Retry.

(** The variables a closure [fn] captures and the part of the world it
    acts on make the state [St]; a call returns an error or nil
    ([None]). *)
Variable St : Type.
Variable c : Config.
Variable fn : St -> option requestError * St.

(** The loop [for attempt := 0; attempt <= MaxRetries; attempt++], with
    [remaining] iterations to go (for [MaxRetries] less than the largest
    [int], so that [attempt++] does not wrap around). *)
Fixpoint retryLoop (remaining : nat) (attempt : Z)
    (lastErr : option requestError) (st : St)
  : option requestError * St * list event :=
  match remaining with
  | O => (Some (ErrFailedAfterRetries (MaxRetries c) lastErr), st, [])
  | S remaining' =>
      let (err, st) := fn st in
      match err with
      | None => (None, st, [Called])
      | Some e =>
          let sleep :=
            if (attempt <? MaxRetries c)%Z then
              [Slept (secondsDuration (wrap64 (RetryDelay c * (attempt + 1))))]
            else [] in
          let '(r, st, events) :=
            retryLoop remaining' (attempt + 1) (Some e) st in
          (r, st, (Called :: sleep ++ events)%list)
      end
  end.

Definition retryableRequest (st : St)
  : option requestError * St * list event :=
  retryLoop (Z.to_nat (MaxRetries c + 1)) 0 None st.

(** The state after [k] calls of [fn], and what the call after them
    returns. *)
Fixpoint stateAfter (k : nat) (st : St) : St :=
  match k with
  | O => st
  | S k' => snd (fn (stateAfter k' st))
  end.

Definition outcome (k : nat) (st : St) : option requestError :=
  fst (fn (stateAfter k st)).

End Retry.

(** The calls and the sleeps of [k] failed attempts that are each
    followed by another one, from the attempt [attempt] on. *)
Fixpoint failedAttempts (c : Config) (k : nat) (attempt : Z) : list event :=
  match k with
  | O => []
  | S k' =>
      Called :: Slept (secondsDuration (wrap64 (RetryDelay c * (attempt + 1))))
        :: failedAttempts c k' (attempt + 1)
  end.

Definition countCalled (events : list event) : nat :=
  List.length (filter (fun e => match e with Called => true | _ => false end)
                 events).

Definition sleptTotal (events : list event) : Z :=
  fold_right (fun e acc => match e with Slept d => (d + acc)%Z | _ => acc end)
    0%Z events.

(** The response of the generated client to a request: its status and
    its decoded body, present when the body was decoded as that of a
    status 200. *)
Record Response (A : Type) : Type := mkResponse {
  StatusCode : Z;
  JSON200 : option A
}.
Arguments mkResponse {A} _ _.
Arguments StatusCode {A} _.
Arguments JSON200 {A} _.

(** What an attempt makes of the answer of the generated client: nil
    ([None]) for a response of status 200, an error otherwise. *)
Definition attemptError {A : Type} (x : requestError + Response A)
  : option requestError :=
  match x with
  | inl err => Some err
  | inr resp =>
      if (StatusCode resp =? 200)%Z then None
      else Some (ErrAPIStatus (StatusCode resp))
  end.

Section Endpoint.

Variable A : Type.
Variable c : Config.

(** The generated client: what the request number [k] (from 0) returns,
    an error or a response. *)
Variable send : nat -> requestError + Response A.

(** The closure of an endpoint function; it captures [resp], and the
    number of requests made so far is part of the world. *)
Definition endpointFn (st : nat * option (Response A))
  : option requestError * (nat * option (Response A)) :=
  let (k, _) := st in
  match send k with
  | inl err => (Some err, (S k, None))
  | inr resp =>
      if negb (StatusCode resp =? 200)%Z then
        (Some (ErrAPIStatus (StatusCode resp)), (S k, Some resp))
      else (None, (S k, Some resp))
  end.

(** The body shared by [SearchPatents], [GetPatent] after the resolution,
    [GetStatusCodes] and the other endpoint functions that return
    [resp.JSON200]: the result ([None] in it is the nil pointer), the
    number of requests sent and the events. *)
Definition endpointRequest
  : (requestError + option A) * nat * list event :=
  let '(err, (k, resp), events) :=
    retryableRequest _ c endpointFn (0, None) in
  match err with
  | Some e => (inl e, k, events)
  | None =>
      (inr match resp with Some r => JSON200 r | None => None end, k, events)
  end.

End Endpoint.

End Transport.

(** ** client.go: resolution through the search capability *)

Module Client.
Import Transport.

(** [generated.PatentFileWrapper] and [generated.PatentDataResponse]:
    the fields the resolver reads.  A Go pointer is an [option]. *)
Record PatentFileWrapper : Type := mkPatentFileWrapper {
  ApplicationNumberText : option string
}.

Record PatentDataResponse : Type := mkPatentDataResponse {
  PatentFileWrapperDataBag : option (list PatentFileWrapper)
}.

(** One call of [SearchPatents(ctx, query, offset, limit)]. *)
Record SearchCall : Type := mkSearchCall {
  query : string;
  offset : Z;
  limit : Z
}.

(** The generated client behind [SearchPatents], the method
    [PostApiV1PatentApplicationsSearchWithResponse]: what the request
    number [k] (from 0) of a call of [SearchPatents] returns, an error
    or a response, which may depend on the calls of [SearchPatents] made
    before.  The decoded body [JSON200] of a response is a pointer, nil
    ([None]) when no body of the status 200 was decoded. *)
Definition SearchCapability : Type :=
  list SearchCall -> SearchCall -> nat ->
  requestError + Response PatentDataResponse.

(** How a call ends: it returns, or it panics (here on the dereference
    of a nil pointer); no function of the package recovers, so that a
    panic ends the calling functions too. *)
Inductive completion (A : Type) : Type :=
  | Returns (a : A)
  | Panics.
Arguments Returns {A} a.
Arguments Panics {A}.

(** Computations that call [SearchPatents] thread the history of the
    calls made so far. *)
Definition M (A : Type) : Type :=
  list SearchCall -> completion A * list SearchCall.

Definition ret {A : Type} (a : A) : M A := fun h => (Returns a, h).

Definition panic {A : Type} : M A := fun h => (Panics, h).

Definition bind {A B : Type} (m : M A) (k : A -> M B) : M B :=
  fun h =>
    match m h with
    | (Returns a, h') => k a h'
    | (Panics, h') => (Panics, h')
    end.

Notation "x <- m ;; k" := (bind m (fun x => k))
  (at level 61, m at next level, right associativity).

Section WithClient.

(** The client: its configuration and its generated client. *)
Variable config : Config.
Variable c : SearchCapability.

(** What the body of [SearchPatents] returns on a call made after the
    calls [h]: the error of [retryableRequest] (kept by its message) and
    a nil response, or a nil error and [resp.JSON200], which is returned
    as it is, nil or not. *)
Definition searchResult (h : list SearchCall) (call : SearchCall)
  : result (option PatentDataResponse) :=
  match fst (fst (endpointRequest PatentDataResponse config (c h call))) with
  | inl err => Err (ErrExternal (requestErrorMessage err))
  | inr json200 => Ok json200
  end.

Definition SearchPatents (query : string) (offset limit : Z)
  : M (result (option PatentDataResponse)) :=
  fun h =>
    let call := mkSearchCall query offset limit in
    (Returns (searchResult h call), (h ++ [call])%list).

Definition resolveGrantToApplicationNumber (grantNumber : string)
  : M (result string) :=
  let query := "applicationMetaData.patentNumber:" ++ grantNumber in
  r <- SearchPatents query 0 1 ;;
  match r with
  | Err err => ret (Err (ErrSearchGrant grantNumber err))
  | Ok None =>
      (* [result.PatentFileWrapperDataBag], [result] being nil *)
      panic
  | Ok (Some result) =>
      match PatentFileWrapperDataBag result with
      | None | Some [] => ret (Err (ErrNoApplicationForGrant grantNumber))
      | Some (patent :: _) =>
          match ApplicationNumberText patent with
          | None => ret (Err (ErrNoApplicationNumberForGrant grantNumber))
          | Some applicationNumberText => ret (Ok applicationNumberText)
          end
      end
  end.

Definition resolvePublicationToApplicationNumber
  (publicationNumber : string) : M (result string) :=
  (* Format publication number for search *)
  let formattedPub :=
    if (len publicationNumber =? 11)%nat
       && negb (HasPrefix publicationNumber "US")
    then "US" ++ publicationNumber ++ "A1"
    else publicationNumber in
  let query :=
    "applicationMetaData.earliestPublicationNumber:" ++ formattedPub in
  r <- SearchPatents query 0 1 ;;
  match r with
  | Err err => ret (Err (ErrSearchPublication publicationNumber err))
  | Ok None =>
      (* [result.PatentFileWrapperDataBag], [result] being nil *)
      panic
  | Ok (Some result) =>
      match PatentFileWrapperDataBag result with
      | None | Some [] =>
          ret (Err (ErrNoApplicationForPublication publicationNumber))
      | Some (patent :: _) =>
          match ApplicationNumberText patent with
          | None =>
              ret (Err (ErrNoApplicationNumberForPublication
                          publicationNumber))
          | Some applicationNumberText => ret (Ok applicationNumberText)
          end
      end
  end.

Definition ResolvePatentNumber (patentNumber : string)
  : M (result string) :=
  match NormalizePatentNumber patentNumber with
  | Err err => ret (Err (ErrInvalidPatentNumber err))
  | Ok pn =>
      if (Type_ pn =? PatentNumberTypeGrant)%Z then
        resolveGrantToApplicationNumber (Normalized pn)
      else if (Type_ pn =? PatentNumberTypePublication)%Z then
        resolvePublicationToApplicationNumber (Normalized pn)
      else if (Type_ pn =? PatentNumberTypeApplication)%Z then
        ret (Ok (ToApplicationNumber pn))
      else
        ret (Err ErrUnknownPatentNumberType)
  end.

End WithClient.

(** *** The vocabulary of the specification, and sample servers *)

(** The errors of the resolution of a Grant number, read as those of the
    resolution of the Publication number [publicationNumber]. *)
Definition publicationError (publicationNumber : string) (e : error)
  : error :=
  match e with
  | ErrSearchGrant _ cause => ErrSearchPublication publicationNumber cause
  | ErrNoApplicationForGrant _ =>
      ErrNoApplicationForPublication publicationNumber
  | ErrNoApplicationNumberForGrant _ =>
      ErrNoApplicationNumberForPublication publicationNumber
  | e => e
  end.

Definition asPublication (publicationNumber : string)
    (r : completion (result string)) : completion (result string) :=
  match r with
  | Returns (Err e) => Returns (Err (publicationError publicationNumber e))
  | r => r
  end.

(** A server that answers every request with the status 200 and a body
    that the generated client does not decode (it decodes a body of
    status 200 when its content type is JSON): [JSON200] is nil. *)
Definition serverWithoutBody : SearchCapability :=
  fun _ _ _ => inr (mkResponse 200 None).

(** A server that answers every request with the status 200 and the
    given body. *)
Definition serverAnswering (body : SearchCall -> PatentDataResponse)
  : SearchCapability :=
  fun _ call _ => inr (mkResponse 200 (Some (body call))).

(** A server that is down: every request fails in the transport. *)
Definition serverDown : SearchCapability :=
  fun _ _ _ => inl (ErrTransport "connection refused").

End Client.

(** ** Bulk files: the check of a download URI in client.go, and the
    file path the demo takes out of such a URI *)

Module Bulk.

(** [strings.Index(s, substr)]: the index of the first instance of
    [substr] in [s]; [None] is -1. *)
Fixpoint Index (s substr : string) : option nat :=
  if HasPrefix s substr then Some 0
  else
    match s with
    | EmptyString => None
    | String _ s' =>
        match Index s' substr with
        | Some i => Some (S i)
        | None => None
        end
    end.

Inductive uriError : Type :=
  | ErrEmptyURI
  | ErrInvalidURI (expectedPrefix got : string).

Definition uriErrorMessage (e : uriError) : string :=
  match e with
  | ErrEmptyURI => "fileDownloadURI cannot be empty"
  | ErrInvalidURI expectedPrefix got =>
      "invalid FileDownloadURI: must start with " ++ expectedPrefix
        ++ " (got: " ++ got ++ ")"
  end.

Definition expectedPrefix : string :=
  "https://api.uspto.gov/api/v1/datasets/products/files/".

(** [validateFileDownloadURI]; [None] is the nil error. *)
Definition validateFileDownloadURI (fileDownloadURI : string)
  : option uriError :=
  if isEmpty fileDownloadURI then Some ErrEmptyURI
  else if negb (HasPrefix fileDownloadURI expectedPrefix) then
    Some (ErrInvalidURI expectedPrefix fileDownloadURI)
  else None.

(** [extractFilePathFromURI] of demo/bulk.go. *)
Definition extractFilePathFromURI (downloadURI productID : string)
  : string :=
  if isEmpty downloadURI || isEmpty productID then EmptyString
  else
    let pattern := "/products/files/" ++ productID ++ "/" in
    match Index downloadURI pattern with
    | None => EmptyString
    | Some index =>
        let start := index + len pattern in
        if (len downloadURI <=? start)%nat then EmptyString
        else drop start downloadURI
    end.

End Bulk.

(* ================================================================== *)
(** * Part II: properties *)
(* ================================================================== *)

(** ** The examples of the specification, by evaluation *)

Example normalize_grant_with_kind :
  NormalizePatentNumber "US 11,646,472 B2"
  = Ok (mkPatentNumber "US 11,646,472 B2" "11646472" EmptyString
          PatentNumberTypeGrant "US").
Proof. reflexivity. Qed.

Example normalize_publication_with_kind :
  NormalizePatentNumber "US20250087686A1"
  = Ok (mkPatentNumber "US20250087686A1" "20250087686" EmptyString
          PatentNumberTypePublication "US").
Proof. reflexivity. Qed.

Example normalize_application_with_slash :
  NormalizePatentNumber "17/248,024"
  = Ok (mkPatentNumber "17/248,024" "17248024" "17248024"
          PatentNumberTypeApplication "US").
Proof. reflexivity. Qed.

(** The kind code decides how the digits in front of it split. *)
Example normalize_grant_unpunctuated :
  NormalizePatentNumber "1234567 B2"
  = Ok (mkPatentNumber "1234567 B2" "1234567" EmptyString
          PatentNumberTypeGrant "US").
Proof. reflexivity. Qed.

Example normalize_failures :
  NormalizePatentNumber EmptyString = Err ErrEmptyPatentNumber /\
  NormalizePatentNumber "abc123" = Err (ErrUnrecognizedFormat "abc123") /\
  NormalizePatentNumber "123" = Err (ErrInvalidLength 3 "123") /\
  Error (ErrInvalidLength 3 "123")
  = "unrecognized patent number format (invalid length 3): 123".
Proof. repeat split; reflexivity. Qed.

Example format_as_application :
  match NormalizePatentNumber "17248024" with
  | Ok pn => FormatAsApplication pn
  | Err _ => EmptyString
  end = "17/248,024".
Proof. reflexivity. Qed.

(** A no-break space (C2 A0) in front and an ideographic space (E3 80 80)
    behind are trimmed; a lone byte C2 is not. *)
Example TrimSpace_runes :
  TrimSpace (String (ascii_of_N 194) (String (ascii_of_N 160)
               ("ab" ++ String (ascii_of_N 227) (String (ascii_of_N 128)
                          (String (ascii_of_N 128) " ")))))
  = "ab" /\
  TrimSpace (String (ascii_of_N 194) "ab") = String (ascii_of_N 194) "ab".
Proof. split; reflexivity. Qed.

Example scan_numbers :
  map GoFmt.Sscanf_d ["12"; " 00012abc"; "-3"; "12_3"; "x1"; ""; "+"]
  = [Some 12%Z; Some 12%Z; Some (-3)%Z; Some 12%Z; None; None; None].
Proof. reflexivity. Qed.

Example claim_text_two_levels :
  XML.ExtractClaimText
    (Some (XML.mkClaim "CLM-00001" "1"
             [XML.mkClaimText "" "1. A system comprising:"
                [XML.mkClaimText "" " a processor; and "
                   [XML.mkClaimText "" "with a cache;" [] [] [] [] [];
                    XML.mkClaimText "" "  " [] [] [] [] []] [] [] [] [];
                 XML.mkClaimText "" "memory." [] [] [] [] []]
                [] [] [XML.mkItalic "system"] []]))
  = "1. A system comprising: a processor; and with a cache; memory.".
Proof. reflexivity. Qed.

(** Without an expected type both sample documents are recognised, and
    an input without element is not. *)
Example parse_auto_detect :
  let parse :=
    XML.ParseXML string XML.sampleDecode XML.sampleGrantFields
      XML.sampleApplicationFields in
  (match parse XML.sampleGrant with
   | Ok d => XML.GetDocumentType d
   | Err _ => XML.DocumentTypeUnknown
   end = XML.DocumentTypeGrant) /\
  (match parse XML.sampleApplication with
   | Ok d => XML.GetDocumentType d
   | Err _ => XML.DocumentTypeUnknown
   end = XML.DocumentTypeApplication) /\
  parse EmptyString = Err ErrUnrecognizedDocument.
Proof. repeat split; reflexivity. Qed.

(** ** Strings *)

Lemma append_empty_r (s : string) : s ++ EmptyString = s.
Proof. induction s as [|a s IH]; simpl; [reflexivity | now rewrite IH]. Qed.

Lemma append_assoc_s (s t u : string) : (s ++ t) ++ u = s ++ t ++ u.
Proof. induction s as [|a s IH]; simpl; [reflexivity | now rewrite IH]. Qed.

Lemma length_append_s (s t : string) :
  String.length (s ++ t) = String.length s + String.length t.
Proof. induction s as [|a s IH]; simpl; [reflexivity | now rewrite IH]. Qed.

Lemma append_eq_empty (s t : string) :
  s ++ t = EmptyString -> s = EmptyString /\ t = EmptyString.
Proof. destruct s; simpl; [auto | discriminate]. Qed.

Lemma all_append (p : ascii -> bool) (s t : string) :
  all p (s ++ t) = all p s && all p t.
Proof.
  induction s as [|a s IH]; simpl; [reflexivity|].
  now rewrite IH, andb_assoc.
Qed.

Lemma all_disjoint (p q : ascii -> bool) (s : string) :
  (forall a, p a = true -> q a = false) ->
  all p s = true -> all q s = true -> s = EmptyString.
Proof.
  intros D. destruct s as [|a s]; simpl; [reflexivity|].
  intros Hp Hq. apply andb_true_iff in Hp as [Hp _].
  apply andb_true_iff in Hq as [Hq _]. rewrite (D _ Hp) in Hq. discriminate.
Qed.

Lemma take_append (w s : string) : take (len w) (w ++ s) = w.
Proof.
  induction w as [|a w IH]; simpl.
  - destruct s; reflexivity.
  - now rewrite IH.
Qed.

Lemma consumed_append (w s : string) : consumed (w ++ s) s = w.
Proof.
  unfold consumed, len. rewrite length_append_s.
  replace (String.length w + String.length s - String.length s)
    with (String.length w) by lia.
  apply take_append.
Qed.

Lemma isEmpty_true (s : string) : isEmpty s = true <-> s = EmptyString.
Proof. destruct s; simpl; split; intros; congruence. Qed.

Lemma isEmpty_false (s : string) : isEmpty s = false <-> s <> EmptyString.
Proof. destruct s; simpl; split; intros; congruence. Qed.

Lemma rev_append (s t : string) : rev (s ++ t) = rev t ++ rev s.
Proof.
  induction s as [|a s IH]; simpl.
  - now rewrite append_empty_r.
  - now rewrite IH, append_assoc_s.
Qed.

Lemma rev_involutive (s : string) : rev (rev s) = s.
Proof.
  induction s as [|a s IH]; simpl; [reflexivity|].
  rewrite rev_append, IH. reflexivity.
Qed.

Lemma rev_length (s : string) : String.length (rev s) = String.length s.
Proof.
  induction s as [|a s IH]; simpl; [reflexivity|].
  rewrite length_append_s, IH. simpl. lia.
Qed.

Lemma all_rev (p : ascii -> bool) (s : string) : all p (rev s) = all p s.
Proof.
  induction s as [|a s IH]; simpl; [reflexivity|].
  rewrite all_append, IH. simpl. rewrite andb_true_r. apply andb_comm.
Qed.

(** ** Byte classes *)

(** Turns a boolean fact about byte classes into arithmetic on codes. *)
Ltac bytes :=
  unfold isSpace1, isSpace2, isSpace3, digit, upper, slashCommaSpace,
    commaSpace, space, GoFmt.isSign, GoFmt.isDecimalDigit, between,
    eqByte in *;
  repeat match goal with
    | H : _ = false |- _ => apply not_true_iff_false in H
    | |- _ = false => apply not_true_iff_false
    end;
  repeat first
    [ rewrite andb_true_iff in * | rewrite orb_true_iff in *
    | rewrite N.leb_le in * | rewrite N.eqb_eq in * ];
  try lia.

Lemma digit_not_space1 a : digit a = true -> isSpace1 a = false.
Proof. intros; bytes. Qed.

Lemma digit_not_space a : digit a = true -> space a = false.
Proof. intros; bytes. Qed.

Lemma space_not_digit a : space a = true -> digit a = false.
Proof. intros; bytes. Qed.

Lemma commaSpace_not_digit a : commaSpace a = true -> digit a = false.
Proof. intros; bytes. Qed.

Lemma slashCommaSpace_not_digit a :
  slashCommaSpace a = true -> digit a = false.
Proof. intros; bytes. Qed.

Lemma upper_not_digit a : upper a = true -> digit a = false.
Proof. intros; bytes. Qed.

(** The bytes of a white-space rune of two or three bytes are all 128 or
    more. *)
Lemma isSpace2_high a b :
  isSpace2 a b = true -> (128 <= byte a)%N /\ (128 <= byte b)%N.
Proof. intros; bytes. Qed.

Lemma isSpace3_high a b c :
  isSpace3 a b c = true ->
  (128 <= byte a)%N /\ (128 <= byte b)%N /\ (128 <= byte c)%N.
Proof. intros; bytes. Qed.

Lemma digit_low a : digit a = true -> (byte a < 128)%N.
Proof. intros; bytes. Qed.

Lemma eqb_byte (a b : ascii) : Ascii.eqb a b = true -> byte b = byte a.
Proof. intros H. apply Ascii.eqb_eq in H. now subst. Qed.

(** ** The matcher is sound for the language of a pattern *)

Lemma star_sound (p : ascii -> bool) :
  forall s c k res,
    star p s c k = Some res ->
    exists w s', s = w ++ s' /\ all p w = true /\ k s' c = Some res.
Proof.
  induction s as [|a s IH]; simpl; intros c k res H.
  - exists EmptyString, EmptyString. auto.
  - destruct (p a) eqn:Ea.
    + destruct (star p s c k) as [x|] eqn:Es; simpl in H.
      * inversion H; subst x.
        destruct (IH _ _ _ Es) as (w & s' & -> & Hw & Hk).
        exists (String a w), s'. simpl. rewrite Ea, Hw. auto.
      * exists EmptyString, (String a s). auto.
    + exists EmptyString, (String a s). auto.
Qed.

Lemma run_sound :
  forall r s c k res,
    run r s c k = Some res ->
    exists w s' c', s = w ++ s' /\ lang r w c c' /\ k s' c' = Some res.
Proof.
  induction r as [|p|r1 IH1 r2 IH2|r IH|p|i r IH]; intros s c k res H;
    simpl in H.
  - exists EmptyString, s, c. simpl. auto.
  - destruct s as [|a s]; [discriminate|].
    destruct (p a) eqn:Ea; [|discriminate].
    exists (String a EmptyString), s, c. simpl. eauto 6.
  - apply IH1 in H as (w1 & s1 & c1 & -> & L1 & H).
    apply IH2 in H as (w2 & s2 & c2 & -> & L2 & H).
    exists (w1 ++ w2), s2, c2. rewrite append_assoc_s.
    split; [reflexivity|]. split; [|assumption].
    simpl. exists w1, w2, c1. auto.
  - destruct (run r s c k) as [x|] eqn:Er; simpl in H.
    + inversion H; subst x.
      apply IH in Er as (w & s' & c' & -> & L & Hk).
      exists w, s', c'. simpl. auto.
    + exists EmptyString, s, c. simpl. auto.
  - apply star_sound in H as (w & s' & -> & Hw & Hk).
    exists w, s', c. simpl. auto.
  - apply IH in H as (w & s' & c' & -> & L & Hk).
    rewrite consumed_append in Hk.
    exists w, s', (set i w c'). simpl. eauto.
Qed.

Lemma FindStringSubmatch_sound (r : re) (s : string) (m : captures) :
  FindStringSubmatch r s = Some m ->
  exists c', lang r s noCaptures c' /\ m = set 0 s c'.
Proof.
  unfold FindStringSubmatch. intros H.
  apply run_sound in H as (w & s' & c' & E & L & Hk).
  unfold atEnd in Hk. destruct s' as [|a s']; simpl in Hk; [|discriminate].
  rewrite append_empty_r in E. subst w. inversion Hk. eauto.
Qed.

(** When every byte is of the class, the greedy star takes them all. *)
Lemma star_all (p : ascii -> bool) :
  forall s c k res,
    all p s = true -> k EmptyString c = Some res -> star p s c k = Some res.
Proof.
  induction s as [|a s IH]; simpl; intros c k res Hs Hk; [assumption|].
  apply andb_true_iff in Hs as [Ha Hs]. rewrite Ha.
  now rewrite (IH _ _ _ Hs Hk).
Qed.

(** *** The shape of the parts of the patterns *)

Lemma lang_class p w c c' :
  lang (Class p) w c c' ->
  all p w = true /\ len w = 1 /\ w <> EmptyString /\ c' = c.
Proof.
  simpl. intros (a & -> & Ha & ->). simpl. rewrite Ha.
  repeat split; congruence.
Qed.

Lemma lang_rep p : forall n w c c',
  lang (rep n (Class p)) w c c' -> all p w = true /\ len w = n /\ c' = c.
Proof.
  induction n as [|n IH]; intros w c c' H.
  - simpl in H. destruct H as [-> ->]. auto.
  - destruct n as [|n].
    + apply lang_class in H. tauto.
    + change (lang (Cat (Class p) (rep (S n) (Class p))) w c c') in H.
      destruct H as (w1 & w2 & cm & -> & H1 & H2).
      apply lang_class in H1 as (A1 & N1 & _ & ->).
      apply IH in H2 as (A2 & N2 & ->).
      rewrite all_append, A1, A2. unfold len in *.
      rewrite length_append_s. repeat split; lia.
Qed.

Lemma lang_rep12 p w c c' :
  lang (rep12 (Class p)) w c c' ->
  all p w = true /\ (len w = 1 \/ len w = 2) /\ c' = c.
Proof.
  intros (w1 & w2 & cm & -> & H1 & H2).
  apply lang_class in H1 as (A1 & N1 & _ & ->).
  destruct H2 as [[-> ->] | H2].
  - rewrite append_empty_r. auto.
  - apply lang_class in H2 as (A2 & N2 & _ & ->).
    rewrite all_append, A1, A2. unfold len in *.
    rewrite length_append_s. repeat split; lia.
Qed.

Lemma lang_US w c c' :
  lang (Opt (lit "US")) w c c' ->
  (w = EmptyString \/ all digit w = false) /\ c' = c.
Proof.
  intros [[-> ->] | (w1 & w2 & cm & -> & H1 & H2)]; [auto|].
  destruct H1 as (a & -> & Ha & ->). destruct H2 as (b & -> & Hb & ->).
  apply Ascii.eqb_eq in Ha. subst a. auto.
Qed.

Lemma lang_star p w c c' : lang (Star p) w c c' -> all p w = true /\ c' = c.
Proof. auto. Qed.

Lemma lang_plus p w c c' :
  lang (plus p) w c c' -> all p w = true /\ w <> EmptyString /\ c' = c.
Proof.
  intros (w1 & w2 & cm & -> & H1 & H2).
  apply lang_class in H1 as (A1 & _ & Hne & ->). destruct H2 as [A2 ->].
  rewrite all_append, A1, A2. repeat split; auto.
  intros E. apply append_eq_empty in E. tauto.
Qed.

Lemma lang_lit1 a w c c' :
  lang (lit (String a EmptyString)) w c c' ->
  w = String a EmptyString /\ c' = c.
Proof.
  intros (b & -> & Hb & ->). apply Ascii.eqb_eq in Hb. now subst.
Qed.

(** A class disjoint from the digits does not occur in a string of
    digits. *)
Lemma not_digits_class (p : ascii -> bool) (w : string) :
  (forall a, p a = true -> digit a = false) ->
  all p w = true -> w <> EmptyString -> all digit w = false.
Proof.
  intros D Hp Hne. destruct (all digit w) eqn:Hd; [|reflexivity].
  exfalso. apply Hne. eapply all_disjoint; eauto.
Qed.

Lemma digits_class_empty (p : ascii -> bool) (w : string) :
  (forall a, p a = true -> digit a = false) ->
  all p w = true -> all digit w = true -> w = EmptyString.
Proof. intros D Hp Hd. eapply all_disjoint; eauto. Qed.

(** *** What a match of each pattern says about the groups *)

Ltac split_cat L w H :=
  let r := fresh "r" in
  let cm := fresh "cm" in
  destruct L as (w & r & cm & -> & H & L).

Ltac all_false :=
  rewrite ?all_append;
  repeat match goal with
    | H : all digit _ = false |- _ => rewrite H
    end;
  repeat first [rewrite andb_false_l | rewrite andb_false_r];
  reflexivity.

Lemma grantWithKind_sound (s : string) (m : captures) :
  FindStringSubmatch grantWithKindPattern s = Some m ->
  all digit (m 1 ++ m 2 ++ m 3) = true /\
  (len (m 1 ++ m 2 ++ m 3) = 7 \/ len (m 1 ++ m 2 ++ m 3) = 8) /\
  all digit s = false.
Proof.
  intros H. apply FindStringSubmatch_sound in H as (c' & L & ->).
  unfold grantWithKindPattern in L.
  split_cat L us Hus. apply lang_US in Hus as [Hus ->].
  split_cat L sp Hsp. apply lang_star in Hsp as [Hsp ->].
  split_cat L g1 Hg1. destruct Hg1 as (c1 & Hg1 & ->).
  apply lang_rep12 in Hg1 as (D1 & N1 & ->).
  split_cat L s1 Hs1. apply lang_star in Hs1 as [Hs1 ->].
  split_cat L g2 Hg2. destruct Hg2 as (c2 & Hg2 & ->).
  apply lang_rep in Hg2 as (D2 & N2 & ->).
  split_cat L s2 Hs2. apply lang_star in Hs2 as [Hs2 ->].
  split_cat L g3 Hg3. destruct Hg3 as (c3 & Hg3 & ->).
  apply lang_rep in Hg3 as (D3 & N3 & ->).
  split_cat L ps Hps. apply lang_plus in Hps as (Hps & Hne & ->).
  split_cat L u Hu. apply lang_class in Hu as (Hu & _ & Hune & ->).
  apply lang_class in L as (Hl & _ & _ & ->).
  assert (Hps' : all digit ps = false)
    by (apply (not_digits_class space); auto using space_not_digit).
  unfold set; simpl. unfold len in *.
  rewrite !all_append, !length_append_s, D1, D2, D3.
  repeat split; [lia|]. all_false.
Qed.

Lemma applicationWithSlash_sound (s : string) (m : captures) :
  FindStringSubmatch applicationWithSlashPattern s = Some m ->
  all digit (m 1 ++ m 2 ++ m 3) = true /\
  len (m 1 ++ m 2 ++ m 3) = 8 /\
  all digit s = false.
Proof.
  intros H. apply FindStringSubmatch_sound in H as (c' & L & ->).
  unfold applicationWithSlashPattern in L.
  split_cat L us Hus. apply lang_US in Hus as [Hus ->].
  split_cat L sp Hsp. apply lang_star in Hsp as [Hsp ->].
  split_cat L g1 Hg1. destruct Hg1 as (c1 & Hg1 & ->).
  apply lang_rep in Hg1 as (D1 & N1 & ->).
  split_cat L sl Hsl. apply lang_lit1 in Hsl as [-> ->].
  split_cat L g2 Hg2. destruct Hg2 as (c2 & Hg2 & ->).
  apply lang_rep in Hg2 as (D2 & N2 & ->).
  split_cat L s2 Hs2. apply lang_star in Hs2 as [Hs2 ->].
  destruct L as (c3 & Hg3 & ->).
  apply lang_rep in Hg3 as (D3 & N3 & ->).
  assert (Hsl : all digit "/" = false) by reflexivity.
  unfold set; simpl Nat.eqb; cbv iota. unfold len in *.
  rewrite !all_append, !length_append_s, D1, D2, D3.
  repeat split; [lia|]. rewrite Hsl. all_false.
Qed.

Lemma grantWithComma_sound (s : string) (m : captures) :
  FindStringSubmatch grantWithCommaPattern s = Some m ->
  all digit (m 1 ++ m 2 ++ m 3) = true /\
  (len (m 1 ++ m 2 ++ m 3) = 7 \/ len (m 1 ++ m 2 ++ m 3) = 8) /\
  all digit s = false.
Proof.
  intros H. apply FindStringSubmatch_sound in H as (c' & L & ->).
  unfold grantWithCommaPattern in L.
  split_cat L us Hus. apply lang_US in Hus as [Hus ->].
  split_cat L sp Hsp. apply lang_star in Hsp as [Hsp ->].
  split_cat L g1 Hg1. destruct Hg1 as (c1 & Hg1 & ->).
  apply lang_rep12 in Hg1 as (D1 & N1 & ->).
  split_cat L k1 Hk1. apply lang_lit1 in Hk1 as [-> ->].
  split_cat L g2 Hg2. destruct Hg2 as (c2 & Hg2 & ->).
  apply lang_rep in Hg2 as (D2 & N2 & ->).
  split_cat L k2 Hk2. apply lang_lit1 in Hk2 as [-> ->].
  destruct L as (c3 & Hg3 & ->).
  apply lang_rep in Hg3 as (D3 & N3 & ->).
  assert (Hk : all digit "," = false) by reflexivity.
  unfold set; simpl Nat.eqb; cbv iota. unfold len in *.
  rewrite !all_append, !length_append_s, D1, D2, D3.
  repeat split; [lia|]. rewrite Hk. all_false.
Qed.

Lemma publication_sound (s : string) (m : captures) :
  FindStringSubmatch publicationPattern s = Some m ->
  all digit (m 1 ++ m 2) = true /\
  len (m 1 ++ m 2) = 11 /\
  (all digit s = true -> m 1 ++ m 2 = s).
Proof.
  intros H. apply FindStringSubmatch_sound in H as (c' & L & ->).
  unfold publicationPattern in L.
  split_cat L us Hus. apply lang_US in Hus as [Hus ->].
  split_cat L sp Hsp. apply lang_star in Hsp as [Hsp ->].
  split_cat L g1 Hg1. destruct Hg1 as (c1 & Hg1 & ->).
  apply lang_rep in Hg1 as (D1 & N1 & ->).
  split_cat L s1 Hs1. apply lang_star in Hs1 as [Hs1 ->].
  split_cat L g2 Hg2. destruct Hg2 as (c2 & Hg2 & ->).
  apply lang_rep in Hg2 as (D2 & N2 & ->).
  match type of L with lang _ ?tail ?cin _ =>
    assert (Hk : (tail = EmptyString \/ all digit tail = false) /\ c' = cin)
  end.
  { destruct L as [[-> ->] | L]; [auto|].
    split_cat L ks Hks. apply lang_star in Hks as [_ ->].
    split_cat L u Hu. apply lang_class in Hu as (Hu & _ & Hune & ->).
    apply lang_class in L as (_ & _ & _ & ->).
    assert (all digit u = false)
      by (apply (not_digits_class upper); auto using upper_not_digit).
    split; [right; all_false | reflexivity]. }
  destruct Hk as [Hk ->]. clear L.
  unfold set; simpl Nat.eqb; cbv iota. unfold len in *.
  rewrite !all_append, !length_append_s, D1, D2.
  repeat split; [lia|].
  simpl. intros Hd.
  apply andb_true_iff in Hd as [Hd1 Hd]. apply andb_true_iff in Hd as [Hd2 Hd].
  apply andb_true_iff in Hd as [Hd3 Hd].
  destruct Hus as [-> | Hus]; [|congruence].
  destruct Hk as [-> | Hk]; [|congruence].
  rewrite (digits_class_empty space sp), (digits_class_empty slashCommaSpace s1);
    auto using space_not_digit, slashCommaSpace_not_digit.
  simpl. now rewrite append_empty_r.
Qed.

Lemma digitsOnly_sound (s : string) :
  MatchString digitsOnlyPattern s = true ->
  all digit s = true /\ s <> EmptyString.
Proof.
  unfold MatchString. destruct (FindStringSubmatch _ s) as [m|] eqn:E;
    [intros _ | discriminate].
  apply FindStringSubmatch_sound in E as (c' & L & _).
  apply lang_plus in L. tauto.
Qed.

Lemma digitsOnly_complete (s : string) :
  all digit s = true -> s <> EmptyString ->
  MatchString digitsOnlyPattern s = true.
Proof.
  intros Hd Hne. destruct s as [|a s]; [congruence|].
  simpl in Hd. apply andb_true_iff in Hd as [Ha Hs].
  unfold MatchString, FindStringSubmatch, digitsOnlyPattern, plus. simpl.
  rewrite Ha.
  now rewrite (star_all digit s _ _ (set 0 (String a s) noCaptures) Hs).
Qed.

(** ** [strings.TrimSpace] *)

Section TrimLeftWith.

Variable sp2 : ascii -> ascii -> bool.
Variable sp3 : ascii -> ascii -> ascii -> bool.
Hypothesis sp2_high :
  forall a b, sp2 a b = true -> (128 <= byte a)%N /\ (128 <= byte b)%N.
Hypothesis sp3_high :
  forall a b c, sp3 a b c = true ->
    (128 <= byte a)%N /\ (128 <= byte b)%N /\ (128 <= byte c)%N.

Let trim := trimLeftWith sp2 sp3.
Let starts := startsWith sp2 sp3.

(** Induction on strings that may step over one, two or three bytes. *)
Lemma string_ind3 (P : string -> Prop) :
  P EmptyString ->
  (forall a s,
      P s ->
      (forall b s2, s = String b s2 -> P s2) ->
      (forall b c s3, s = String b (String c s3) -> P s3) ->
      P (String a s)) ->
  forall s, P s.
Proof.
  intros H0 HS.
  assert (H : forall n s, String.length s <= n -> P s).
  { induction n as [|n IH]; intros s Hn.
    - destruct s; [assumption | simpl in Hn; lia].
    - destruct s as [|a s]; [assumption|]. simpl in Hn.
      apply HS.
      + apply IH. lia.
      + intros b s2 ->. apply IH. simpl in Hn. lia.
      + intros b c s3 ->. apply IH. simpl in Hn. lia. }
  intros s. apply (H (String.length s)). lia.
Qed.

Lemma trim_suffix : forall s, exists p, s = p ++ trim s.
Proof.
  induction s as [|a s IH1 IH2 IH3] using string_ind3.
  - exists EmptyString. reflexivity.
  - unfold trim in *. simpl. destruct (isSpace1 a).
    { destruct IH1 as [p E]. exists (String a p). simpl. now rewrite <- E. }
    destruct s as [|b s2]; [exists EmptyString; reflexivity|].
    destruct (sp2 a b).
    { destruct (IH2 _ _ eq_refl) as [p E].
      exists (String a (String b p)). simpl. now rewrite <- E. }
    destruct s2 as [|c s3]; [exists EmptyString; reflexivity|].
    destruct (sp3 a b c).
    { destruct (IH3 _ _ _ eq_refl) as [p E].
      exists (String a (String b (String c p))). simpl. now rewrite <- E. }
    exists EmptyString. reflexivity.
Qed.

Lemma trim_id (s : string) : starts s = false -> trim s = s.
Proof.
  unfold starts, trim. destruct s as [|a [|b [|c s]]]; simpl; auto;
    intros H; repeat (apply orb_false_iff in H; destruct H as [? H]);
    repeat match goal with E : _ = false |- _ => rewrite E; clear E end;
    try rewrite H; reflexivity.
Qed.

Lemma trim_starts : forall s, starts (trim s) = false.
Proof.
  induction s as [|a s IH1 IH2 IH3] using string_ind3; [reflexivity|].
  unfold trim, starts in *. simpl.
  destruct (isSpace1 a) eqn:E1; [assumption|].
  destruct s as [|b s2]; [simpl; now rewrite E1|].
  destruct (sp2 a b) eqn:E2; [now apply (IH2 b s2)|].
  destruct s2 as [|c s3]; [simpl; now rewrite E1, E2|].
  destruct (sp3 a b c) eqn:E3; [now apply (IH3 b c s3)|].
  simpl. now rewrite E1, E2, E3.
Qed.

Lemma starts_prefix (z t : string) :
  starts (z ++ t) = false -> starts z = false.
Proof.
  unfold starts. destruct z as [|a [|b [|c z]]]; simpl; auto; intros H;
    repeat (apply orb_false_iff in H; destruct H as [? H]);
    repeat match goal with E : _ = false |- _ => rewrite E; clear E end;
    auto.
Qed.

(** A byte below 128 after a trimmed string does not complete a
    white-space rune. *)
Lemma starts_append_low (z : string) (x : ascii) (t : string) :
  starts z = false -> z <> EmptyString -> (byte x < 128)%N ->
  starts (z ++ String x t) = false.
Proof.
  unfold starts. intros H Hne Hx.
  destruct z as [|a [|b [|c z]]]; [congruence| | |]; simpl in *;
    repeat (apply orb_false_iff in H; destruct H as [? H]);
    repeat match goal with E : _ = false |- _ => rewrite E; clear E end;
    simpl; auto.
  - destruct (sp2 a x) eqn:E2; [apply sp2_high in E2; lia|]. simpl.
    destruct t as [|y t]; [reflexivity|].
    destruct (sp3 a x y) eqn:E3; [apply sp3_high in E3; lia | reflexivity].
  - destruct (sp3 a b x) eqn:E3; [apply sp3_high in E3; lia | reflexivity].
Qed.

(** A string that starts with a byte below 128 that is not white space
    does not start with a white-space rune. *)
Lemma starts_low (a : ascii) (s : string) :
  isSpace1 a = false -> (byte a < 128)%N -> starts (String a s) = false.
Proof.
  intros H1 Ha. unfold starts. simpl. rewrite H1. simpl.
  destruct s as [|b s]; [reflexivity|].
  destruct (sp2 a b) eqn:E2; [apply sp2_high in E2; lia|]. simpl.
  destruct s as [|c s]; [reflexivity|].
  destruct (sp3 a b c) eqn:E3; [apply sp3_high in E3; lia | reflexivity].
Qed.

(** A white-space byte in front is dropped. *)
Lemma trim_space1 (a : ascii) (s : string) :
  isSpace1 a = true -> trim (String a s) = trim s.
Proof. intros H. unfold trim. simpl. now rewrite H. Qed.

End TrimLeftWith.

Lemma isSpace2Rev_high a b :
  isSpace2Rev a b = true -> (128 <= byte a)%N /\ (128 <= byte b)%N.
Proof. unfold isSpace2Rev. intros H. apply isSpace2_high in H. tauto. Qed.

Lemma isSpace3Rev_high a b c :
  isSpace3Rev a b c = true ->
  (128 <= byte a)%N /\ (128 <= byte b)%N /\ (128 <= byte c)%N.
Proof. unfold isSpace3Rev. intros H. apply isSpace3_high in H. tauto. Qed.

Lemma TrimRight_prefix (s : string) : exists q, s = TrimRight s ++ q.
Proof.
  unfold TrimRight, TrimLeftRev.
  destruct (trim_suffix isSpace2Rev isSpace3Rev (rev s)) as [p E].
  exists (rev p). rewrite <- rev_append, <- E. now rewrite rev_involutive.
Qed.

Lemma TrimSpace_trimmed (s : string) : trimmed (TrimSpace s).
Proof.
  unfold trimmed, TrimSpace. split.
  - destruct (TrimRight_prefix (TrimLeft s)) as [q E].
    apply (starts_prefix _ _ _ q). rewrite <- E. apply trim_starts.
  - unfold TrimRight. rewrite rev_involutive. apply trim_starts.
Qed.

Lemma TrimSpace_id (s : string) : trimmed s -> TrimSpace s = s.
Proof.
  intros [H1 H2]. unfold TrimSpace, TrimRight, TrimLeft, TrimLeftRev.
  rewrite (trim_id _ _ _ H1), (trim_id _ _ _ H2). apply rev_involutive.
Qed.

Lemma TrimSpace_idempotent (s : string) : TrimSpace (TrimSpace s) = TrimSpace s.
Proof. apply TrimSpace_id, TrimSpace_trimmed. Qed.

Lemma rev_empty (s : string) : rev s = EmptyString -> s = EmptyString.
Proof.
  intros H. apply (f_equal rev) in H. now rewrite rev_involutive in H.
Qed.

(** Two trimmed strings that are not empty stay trimmed when joined by a
    byte below 128. *)
Lemma trimmed_join (a b : string) (x : ascii) :
  (byte x < 128)%N ->
  trimmed a -> a <> EmptyString -> trimmed b -> b <> EmptyString ->
  trimmed (a ++ String x b).
Proof.
  intros Hx [A1 A2] Ha [B1 B2] Hb. split.
  - apply starts_append_low;
      auto using isSpace2_high, isSpace3_high.
  - rewrite rev_append. simpl. rewrite append_assoc_s. simpl.
    apply starts_append_low;
      auto using isSpace2Rev_high, isSpace3Rev_high.
    intros E. apply Hb. now apply rev_empty.
Qed.

Lemma trimmed_digits (s : string) : all digit s = true -> trimmed s.
Proof.
  intros Hd. split.
  - destruct s as [|a s]; [reflexivity|]. simpl in Hd.
    apply andb_true_iff in Hd as [Ha _].
    apply starts_low;
      auto using isSpace2_high, isSpace3_high, digit_not_space1, digit_low.
  - rewrite <- all_rev in Hd. destruct (rev s) as [|a t]; [reflexivity|].
    simpl in Hd. apply andb_true_iff in Hd as [Ha _].
    apply starts_low;
      auto using isSpace2Rev_high, isSpace3Rev_high, digit_not_space1,
        digit_low.
Qed.

Lemma TrimSpace_digits (s : string) : all digit s = true -> TrimSpace s = s.
Proof. intros H. apply TrimSpace_id, trimmed_digits, H. Qed.

(** ** NormalizePatentNumber *)

(** What a successful normalisation returns, by the branch taken. *)
Lemma NormalizePatentNumber_Ok (input : string) (pn : PatentNumber) :
  NormalizePatentNumber input = Ok pn ->
  Original pn = input /\ Country pn = "US" /\
  all digit (Normalized pn) = true /\
  (   Type_ pn = PatentNumberTypeGrant /\ ApplicationNo pn = EmptyString
        /\ (len (Normalized pn) = 7 \/ len (Normalized pn) = 8)
   \/ Type_ pn = PatentNumberTypeApplication
        /\ ApplicationNo pn = Normalized pn
        /\ (len (Normalized pn) = 8 \/ len (Normalized pn) = 9)
   \/ Type_ pn = PatentNumberTypePublication /\ ApplicationNo pn = EmptyString
        /\ len (Normalized pn) = 11).
Proof.
  unfold NormalizePatentNumber.
  destruct (isEmpty input); [discriminate|].
  set (cleaned := TrimSpace input).
  destruct (FindStringSubmatch grantWithKindPattern cleaned) as [m|] eqn:E1.
  { intros H; inversion H; subst pn; clear H. simpl.
    apply grantWithKind_sound in E1 as (D & N & _). auto 10. }
  destruct (FindStringSubmatch applicationWithSlashPattern cleaned)
    as [m|] eqn:E2.
  { intros H; inversion H; subst pn; clear H. simpl.
    apply applicationWithSlash_sound in E2 as (D & N & _). auto 10. }
  destruct (FindStringSubmatch grantWithCommaPattern cleaned) as [m|] eqn:E3.
  { intros H; inversion H; subst pn; clear H. simpl.
    apply grantWithComma_sound in E3 as (D & N & _). auto 10. }
  destruct (FindStringSubmatch publicationPattern cleaned) as [m|] eqn:E4.
  { intros H; inversion H; subst pn; clear H. simpl.
    apply publication_sound in E4 as (D & N & _). auto 10. }
  destruct (MatchString digitsOnlyPattern cleaned) eqn:E5; [|discriminate].
  apply digitsOnly_sound in E5 as [D _].
  destruct (len cleaned =? 7)%nat eqn:L7.
  { intros H; inversion H; subst pn; clear H. simpl.
    apply Nat.eqb_eq in L7. auto 10. }
  destruct ((len cleaned =? 8) || (len cleaned =? 9))%nat eqn:L8.
  { intros H; inversion H; subst pn; clear H. simpl.
    apply orb_true_iff in L8. rewrite !Nat.eqb_eq in L8. auto 10. }
  destruct (len cleaned =? 11)%nat eqn:L11; [|discriminate].
  intros H; inversion H; subst pn; clear H. simpl.
  apply Nat.eqb_eq in L11. auto 10.
Qed.

(** What normalisation returns on an input that is a string of digits once
    trimmed. *)
Lemma NormalizePatentNumber_digits (input s : string) :
  TrimSpace input = s -> all digit s = true -> s <> EmptyString ->
  NormalizePatentNumber input =
    if (len s =? 7)%nat then
      Ok (mkPatentNumber input s EmptyString PatentNumberTypeGrant "US")
    else if ((len s =? 8) || (len s =? 9))%nat then
      Ok (mkPatentNumber input s s PatentNumberTypeApplication "US")
    else if (len s =? 11)%nat then
      Ok (mkPatentNumber input s EmptyString PatentNumberTypePublication "US")
    else Err (ErrInvalidLength (len s) input).
Proof.
  intros Hs Hd Hne. unfold NormalizePatentNumber.
  destruct (isEmpty input) eqn:Ei.
  { apply isEmpty_true in Ei. subst input. compute in Hs. congruence. }
  rewrite Hs.
  destruct (FindStringSubmatch grantWithKindPattern s) as [m|] eqn:E1.
  { apply grantWithKind_sound in E1 as (_ & _ & F). congruence. }
  destruct (FindStringSubmatch applicationWithSlashPattern s) as [m|] eqn:E2.
  { apply applicationWithSlash_sound in E2 as (_ & _ & F). congruence. }
  destruct (FindStringSubmatch grantWithCommaPattern s) as [m|] eqn:E3.
  { apply grantWithComma_sound in E3 as (_ & _ & F). congruence. }
  destruct (FindStringSubmatch publicationPattern s) as [m|] eqn:E4.
  { apply publication_sound in E4 as (_ & N & E). specialize (E Hd).
    rewrite E in N. unfold setNormalized, setType, setApplicationNo. simpl.
    rewrite E, N. reflexivity. }
  rewrite (digitsOnly_complete s Hd Hne).
  unfold setNormalized, setType, setApplicationNo. simpl.
  destruct (len s =? 7)%nat; [reflexivity|].
  destruct ((len s =? 8) || (len s =? 9))%nat; [reflexivity|].
  destruct (len s =? 11)%nat; reflexivity.
Qed.

(** ** Theorems on the normaliser *)

(** C1: on success the normalised number is a non-empty string of decimal
    digits; an Application number is its own application number; a
    Publication number has 11 digits, a Grant number 7 or 8; the
    application number of a Grant or a Publication is empty. *)
Theorem normalize_invariants (input : string) (pn : PatentNumber) :
  NormalizePatentNumber input = Ok pn ->
  Normalized pn <> EmptyString /\
  all digit (Normalized pn) = true /\
  (Type_ pn = PatentNumberTypeApplication ->
     ApplicationNo pn = Normalized pn) /\
  (Type_ pn = PatentNumberTypePublication -> len (Normalized pn) = 11) /\
  (Type_ pn = PatentNumberTypeGrant ->
     len (Normalized pn) = 7 \/ len (Normalized pn) = 8) /\
  (Type_ pn = PatentNumberTypeGrant \/ Type_ pn = PatentNumberTypePublication
     -> ApplicationNo pn = EmptyString).
Proof.
  intros H. apply NormalizePatentNumber_Ok in H as (_ & _ & D & C).
  assert (Hne : Normalized pn <> EmptyString).
  { intros E. rewrite E in C. simpl in C. lia. }
  unfold PatentNumberTypeGrant, PatentNumberTypeApplication,
    PatentNumberTypePublication in *.
  repeat split; auto; intros; destruct C as [C | [C | C]];
    try tauto; try lia; try (destruct C as [C _]; lia).
Qed.

Lemma normalize_invariants_witness :
  let pn := mkPatentNumber "US 11,646,472 B2" "11646472" EmptyString
              PatentNumberTypeGrant "US" in
  NormalizePatentNumber "US 11,646,472 B2" = Ok pn /\
  Normalized pn <> EmptyString /\
  all digit (Normalized pn) = true /\
  (Type_ pn = PatentNumberTypeApplication ->
     ApplicationNo pn = Normalized pn) /\
  (Type_ pn = PatentNumberTypePublication -> len (Normalized pn) = 11) /\
  (Type_ pn = PatentNumberTypeGrant ->
     len (Normalized pn) = 7 \/ len (Normalized pn) = 8) /\
  (Type_ pn = PatentNumberTypeGrant \/ Type_ pn = PatentNumberTypePublication
     -> ApplicationNo pn = EmptyString).
Proof.
  intros pn. split; [reflexivity|].
  apply (normalize_invariants "US 11,646,472 B2" pn). reflexivity.
Defined.

(** C9: on success the country is "US" and the original is the input as it
    was given, not trimmed. *)
Theorem normalize_country_original (input : string) (pn : PatentNumber) :
  NormalizePatentNumber input = Ok pn ->
  Country pn = "US" /\ Original pn = input.
Proof.
  intros H. apply NormalizePatentNumber_Ok in H. tauto.
Qed.

Lemma normalize_country_original_witness :
  let input := " US 2025/0087686 A1 " in
  let pn := mkPatentNumber input "20250087686" EmptyString
              PatentNumberTypePublication "US" in
  NormalizePatentNumber input = Ok pn /\
  Country pn = "US" /\ Original pn = input.
Proof.
  intros input pn. split; [reflexivity|].
  apply (normalize_country_original input pn). reflexivity.
Defined.

(** C10: on success with the type Application the normalised number has 8
    or 9 digits. *)
Theorem normalize_application_length (input : string) (pn : PatentNumber) :
  NormalizePatentNumber input = Ok pn ->
  Type_ pn = PatentNumberTypeApplication ->
  all digit (Normalized pn) = true /\
  (len (Normalized pn) = 8 \/ len (Normalized pn) = 9).
Proof.
  intros H T. apply NormalizePatentNumber_Ok in H as (_ & _ & D & C).
  unfold PatentNumberTypeGrant, PatentNumberTypeApplication,
    PatentNumberTypePublication in *.
  split; [assumption|].
  destruct C as [C | [C | C]]; [|tauto|]; destruct C as [C _]; lia.
Qed.

Lemma normalize_application_length_witness :
  let pn := mkPatentNumber "17/248,024" "17248024" "17248024"
              PatentNumberTypeApplication "US" in
  NormalizePatentNumber "17/248,024" = Ok pn /\
  all digit (Normalized pn) = true /\
  (len (Normalized pn) = 8 \/ len (Normalized pn) = 9).
Proof.
  intros pn. split; [reflexivity|].
  apply (normalize_application_length "17/248,024" pn); reflexivity.
Defined.

(** C3: an input that, trimmed, is a string of decimal digits is classified
    by the number of its digits: 7 is a Grant; 8 or 9 an Application whose
    application number is the digits; 11 a Publication; any other count is
    the error of an invalid length. *)
Theorem normalize_digits_by_count (input s : string) :
  TrimSpace input = s -> all digit s = true -> s <> EmptyString ->
  (len s = 7 ->
     NormalizePatentNumber input =
       Ok (mkPatentNumber input s EmptyString PatentNumberTypeGrant "US")) /\
  (len s = 8 \/ len s = 9 ->
     NormalizePatentNumber input =
       Ok (mkPatentNumber input s s PatentNumberTypeApplication "US")) /\
  (len s = 11 ->
     NormalizePatentNumber input =
       Ok (mkPatentNumber input s EmptyString PatentNumberTypePublication
             "US")) /\
  (len s <> 7 -> len s <> 8 -> len s <> 9 -> len s <> 11 ->
     NormalizePatentNumber input = Err (ErrInvalidLength (len s) input)).
Proof.
  intros Hs Hd Hne.
  rewrite (NormalizePatentNumber_digits input s Hs Hd Hne).
  repeat split.
  - intros ->. reflexivity.
  - intros [-> | ->]; reflexivity.
  - intros ->. reflexivity.
  - intros H7 H8 H9 H11.
    apply Nat.eqb_neq in H7, H8, H9, H11. now rewrite H7, H8, H9, H11.
Qed.

(** In particular "11646472", of 8 digits, is an Application. *)
Lemma normalize_digits_by_count_witness :
  TrimSpace "11646472" = "11646472" /\
  NormalizePatentNumber "11646472" =
    Ok (mkPatentNumber "11646472" "11646472" "11646472"
          PatentNumberTypeApplication "US").
Proof.
  split; [reflexivity|].
  apply (normalize_digits_by_count "11646472" "11646472");
    [reflexivity | reflexivity | discriminate | left; reflexivity].
Defined.

(** ** Theorems on the resolver *)

Section Resolver.
Import Client.

Variable config : Transport.Config.
Variable c : SearchCapability.

(** What the two resolutions make of the answer to their query. *)
Lemma resolveGrant_run (grantNumber : string) (h : list SearchCall) :
  let call :=
    mkSearchCall ("applicationMetaData.patentNumber:" ++ grantNumber) 0 1 in
  resolveGrantToApplicationNumber config c grantNumber h =
    (match searchResult config c h call with
     | Err err => Returns (Err (ErrSearchGrant grantNumber err))
     | Ok None => Panics
     | Ok (Some result) =>
         Returns
           match PatentFileWrapperDataBag result with
           | None | Some [] => Err (ErrNoApplicationForGrant grantNumber)
           | Some (patent :: _) =>
               match ApplicationNumberText patent with
               | None => Err (ErrNoApplicationNumberForGrant grantNumber)
               | Some a => Ok a
               end
           end
     end, (h ++ [call])%list).
Proof.
  unfold resolveGrantToApplicationNumber, bind, SearchPatents, ret, panic.
  simpl.
  destruct (searchResult config c h _) as [[[[[|[[a|]] l]|]]|]|e];
    reflexivity.
Qed.

Lemma resolvePublication_run (publicationNumber : string)
    (h : list SearchCall) :
  let formattedPub :=
    if (len publicationNumber =? 11)%nat
       && negb (HasPrefix publicationNumber "US")
    then "US" ++ publicationNumber ++ "A1"
    else publicationNumber in
  let call :=
    mkSearchCall
      ("applicationMetaData.earliestPublicationNumber:" ++ formattedPub)
      0 1 in
  resolvePublicationToApplicationNumber config c publicationNumber h =
    (match searchResult config c h call with
     | Err err => Returns (Err (ErrSearchPublication publicationNumber err))
     | Ok None => Panics
     | Ok (Some result) =>
         Returns
           match PatentFileWrapperDataBag result with
           | None | Some [] =>
               Err (ErrNoApplicationForPublication publicationNumber)
           | Some (patent :: _) =>
               match ApplicationNumberText patent with
               | None =>
                   Err (ErrNoApplicationNumberForPublication
                          publicationNumber)
               | Some a => Ok a
               end
           end
     end, (h ++ [call])%list).
Proof.
  unfold resolvePublicationToApplicationNumber, bind, SearchPatents, ret,
    panic.
  cbv zeta.
  match goal with |- context [searchResult config c h ?x] =>
    destruct (searchResult config c h x) as [[[[[|[[a|]] l]|]]|]|e] end;
    reflexivity.
Qed.

(** [strings.HasPrefix]: the string is the prefix followed by a rest. *)
Lemma HasPrefix_spec : forall pre s,
  HasPrefix s pre = true <-> exists t, s = pre ++ t.
Proof.
  unfold HasPrefix. induction pre as [|a pre IH]; intros s; simpl.
  - split; [intros _; exists s; reflexivity
           | intros _; destruct s; reflexivity].
  - destruct s as [|b s]; simpl.
    + split; [discriminate | intros [t H]; discriminate H].
    + destruct (Ascii.ascii_dec a b) as [->|N].
      * rewrite IH. split; intros [t H]; exists t; [now rewrite H |].
        now inversion H.
      * split; [discriminate | intros [t H]; inversion H; congruence].
Qed.

Lemma HasPrefix_append (pre t : string) : HasPrefix (pre ++ t) pre = true.
Proof. apply HasPrefix_spec. now exists t. Qed.

(** A string of digits does not start with "US". *)
Lemma digits_without_US (s : string) :
  all digit s = true -> HasPrefix s "US" = false.
Proof.
  unfold HasPrefix. destruct s as [|a s]; [reflexivity|].
  cbn [all prefix]. intros H. apply andb_true_iff in H as [Ha _].
  destruct (ascii_dec "U" a) as [<-|N]; [discriminate Ha | reflexivity].
Qed.

Lemma normalized_publication (input : string) (pn : PatentNumber) :
  NormalizePatentNumber input = Ok pn ->
  Type_ pn = PatentNumberTypePublication ->
  len (Normalized pn) = 11 /\ HasPrefix (Normalized pn) "US" = false.
Proof.
  intros HN HT. apply NormalizePatentNumber_Ok in HN as (_ & _ & D & C).
  split; [|now apply digits_without_US].
  unfold PatentNumberTypeGrant, PatentNumberTypeApplication,
    PatentNumberTypePublication in *.
  destruct C as [C | [C | C]]; [| |tauto]; destruct C as [C _]; lia.
Qed.

(** X27: the resolution of a Grant number, for every answer to its query: one
    query, on the patent number being the normalised number, for one
    result from offset 0.  An error of the search is wrapped; a response
    without record is the error of the application not found; a first
    record without application number the error of the number missing in
    the response; otherwise the application number of the first record is
    returned.  When the search returns no response and no error, the
    resolution panics. *)
Theorem resolve_grant_cases (input : string) (pn : PatentNumber)
    (h : list SearchCall) :
  NormalizePatentNumber input = Ok pn ->
  Type_ pn = PatentNumberTypeGrant ->
  let call :=
    mkSearchCall ("applicationMetaData.patentNumber:" ++ Normalized pn) 0 1 in
  let out := ResolvePatentNumber config c input h in
  snd out = (h ++ [call])%list /\
  (forall result,
      searchResult config c h call = Ok (Some result) ->
      PatentFileWrapperDataBag result = None \/
      PatentFileWrapperDataBag result = Some [] ->
      fst out = Returns (Err (ErrNoApplicationForGrant (Normalized pn)))) /\
  (forall result patent rest,
      searchResult config c h call = Ok (Some result) ->
      PatentFileWrapperDataBag result = Some (patent :: rest) ->
      ApplicationNumberText patent = None ->
      fst out
      = Returns (Err (ErrNoApplicationNumberForGrant (Normalized pn)))) /\
  (forall result patent rest a,
      searchResult config c h call = Ok (Some result) ->
      PatentFileWrapperDataBag result = Some (patent :: rest) ->
      ApplicationNumberText patent = Some a ->
      fst out = Returns (Ok a)) /\
  (forall err,
      searchResult config c h call = Err err ->
      fst out = Returns (Err (ErrSearchGrant (Normalized pn) err))) /\
  (searchResult config c h call = Ok None -> fst out = Panics).
Proof.
  intros HN HT call out. subst out. unfold ResolvePatentNumber.
  rewrite HN, HT. rewrite Z.eqb_refl.
  rewrite resolveGrant_run. fold call. simpl fst. simpl snd.
  split; [reflexivity|]. repeat split.
  - intros result E [B | B]; rewrite E, B; reflexivity.
  - intros result patent rest E B A. rewrite E, B, A. reflexivity.
  - intros result patent rest a E B A. rewrite E, B, A. reflexivity.
  - intros err E. rewrite E. reflexivity.
  - intros E. rewrite E. reflexivity.
Qed.

(** C6: the resolution of a Publication number queries the earliest
    publication number, for one result from offset 0.  The value queried
    is the number put between "US" and "A1" when the number has 11 bytes
    and does not start with "US", and the number as it is when it starts
    with "US" already (or has another length); a normalised Publication
    number is 11 digits, so that it is always put between "US" and "A1".
    A response without record and a first record without application
    number are handled as the resolution of a Grant number handles them,
    as is every other answer to the query. *)
Theorem resolve_publication (h : list SearchCall) :
  (forall input pn,
      NormalizePatentNumber input = Ok pn ->
      Type_ pn = PatentNumberTypePublication ->
      ResolvePatentNumber config c input h
      = resolvePublicationToApplicationNumber config c (Normalized pn) h /\
      snd (ResolvePatentNumber config c input h)
      = (h ++ [mkSearchCall
                 ("applicationMetaData.earliestPublicationNumber:"
                    ++ "US" ++ Normalized pn ++ "A1") 0 1])%list) /\
  forall publicationNumber,
    let out :=
      resolvePublicationToApplicationNumber config c publicationNumber h in
    (len publicationNumber = 11 ->
     (forall rest, publicationNumber <> "US" ++ rest) ->
     snd out
     = (h ++ [mkSearchCall
                ("applicationMetaData.earliestPublicationNumber:"
                   ++ "US" ++ publicationNumber ++ "A1") 0 1])%list) /\
    (len publicationNumber <> 11 \/
     (exists rest, publicationNumber = "US" ++ rest) ->
     snd out
     = (h ++ [mkSearchCall
                ("applicationMetaData.earliestPublicationNumber:"
                   ++ publicationNumber) 0 1])%list) /\
    exists call,
      snd out = (h ++ [call])%list /\
      (forall result,
          searchResult config c h call = Ok (Some result) ->
          PatentFileWrapperDataBag result = None \/
          PatentFileWrapperDataBag result = Some [] ->
          fst out
          = Returns (Err (ErrNoApplicationForPublication
                            publicationNumber))) /\
      (forall result patent rest,
          searchResult config c h call = Ok (Some result) ->
          PatentFileWrapperDataBag result = Some (patent :: rest) ->
          ApplicationNumberText patent = None ->
          fst out
          = Returns (Err (ErrNoApplicationNumberForPublication
                            publicationNumber))) /\
      (forall grantNumber,
          searchResult config c h
            (mkSearchCall
               ("applicationMetaData.patentNumber:" ++ grantNumber) 0 1)
          = searchResult config c h call ->
          fst out
          = asPublication publicationNumber
              (fst (resolveGrantToApplicationNumber config c grantNumber
                      h))).
Proof.
  split.
  - intros input pn HN HT.
    destruct (normalized_publication _ _ HN HT) as [L U].
    unfold ResolvePatentNumber. rewrite HN, HT.
    change (PatentNumberTypePublication =? PatentNumberTypeGrant)%Z
      with false.
    rewrite Z.eqb_refl. split; [reflexivity|].
    rewrite resolvePublication_run. cbv zeta. cbn [snd].
    now rewrite L, U.
  - intros p out. subst out. rewrite resolvePublication_run. cbv zeta.
    cbn [fst snd]. split; [|split].
    + intros L U.
      assert (E : HasPrefix p "US" = false).
      { destruct (HasPrefix p "US") eqn:E; [|reflexivity].
        apply HasPrefix_spec in E as [rest E]. now apply U in E. }
      now rewrite L, E.
    + intros [L | U].
      * apply Nat.eqb_neq in L. now rewrite L.
      * apply HasPrefix_spec in U. rewrite U. now rewrite andb_false_r.
    + eexists. split; [reflexivity|]. split; [|split].
      * intros result E [B | B]; rewrite E, B; reflexivity.
      * intros result patent rest E B A. rewrite E, B, A. reflexivity.
      * intros g E. rewrite resolveGrant_run. cbv zeta. cbn [fst].
        rewrite E.
        match goal with |- context [searchResult config c h ?x] =>
          destruct (searchResult config c h x) as [[[[[|[[a|]] l]|]]|]|e]
        end; reflexivity.
Qed.

End Resolver.

(** C5, at the input on which the code fails: a Grant number and a server
    that answers the search with the status 200 and no decoded body.
    [SearchPatents] then returns a nil response with a nil error, and the
    resolution, which reads a field of the response, panics after its one
    query: it returns neither an error nor an application number. *)
Theorem resolve_grant_nil_response :
  Client.searchResult Transport.DefaultConfig Client.serverWithoutBody []
    (Client.mkSearchCall "applicationMetaData.patentNumber:11646472" 0 1)
  = Ok None /\
  Client.ResolvePatentNumber Transport.DefaultConfig
    Client.serverWithoutBody "US 11,646,472 B2" []
  = (Client.Panics,
     [Client.mkSearchCall "applicationMetaData.patentNumber:11646472" 0 1]).
Proof. split; reflexivity. Qed.

(** A server that knows one grant. *)
Lemma resolve_grant_cases_witness :
  let c : Client.SearchCapability :=
    Client.serverAnswering
      (fun call =>
         if Client.query call =? "applicationMetaData.patentNumber:11646472"
         then Client.mkPatentDataResponse
                (Some [Client.mkPatentFileWrapper (Some "17248024")])
         else Client.mkPatentDataResponse None) in
  Client.ResolvePatentNumber Transport.DefaultConfig c "US 11,646,472 B2" []
  = (Client.Returns (Ok "17248024"),
     [Client.mkSearchCall "applicationMetaData.patentNumber:11646472" 0 1])
  /\
  Client.ResolvePatentNumber Transport.DefaultConfig Client.serverDown
    "US 11,646,472 B2" []
  = (Client.Returns
       (Err (ErrSearchGrant "11646472"
               (ErrExternal
                  "failed after 3 retries: connection refused"))),
     [Client.mkSearchCall "applicationMetaData.patentNumber:11646472" 0 1]).
Proof.
  intros c.
  pose (pn := mkPatentNumber "US 11,646,472 B2" "11646472" EmptyString
                PatentNumberTypeGrant "US").
  destruct (resolve_grant_cases Transport.DefaultConfig c
              "US 11,646,472 B2" pn [] eq_refl eq_refl)
    as (Hs & _ & _ & Hok & _).
  destruct (resolve_grant_cases Transport.DefaultConfig Client.serverDown
              "US 11,646,472 B2" pn [] eq_refl eq_refl)
    as (Hs' & _ & _ & _ & Herr & _).
  split.
  - rewrite (surjective_pairing
               (Client.ResolvePatentNumber Transport.DefaultConfig c
                  "US 11,646,472 B2" [])).
    rewrite Hs.
    rewrite (Hok _ (Client.mkPatentFileWrapper (Some "17248024")) []
               "17248024" eq_refl eq_refl eq_refl).
    reflexivity.
  - rewrite (surjective_pairing
               (Client.ResolvePatentNumber Transport.DefaultConfig
                  Client.serverDown "US 11,646,472 B2" [])).
    rewrite Hs'. rewrite (Herr _ eq_refl). reflexivity.
Defined.

(** A normalised number is put between "US" and "A1"; a number of 11
    bytes that starts with "US" is queried as it is. *)
Lemma resolve_publication_witness :
  let c : Client.SearchCapability :=
    Client.serverAnswering
      (fun call =>
         if Client.query call
              =? "applicationMetaData.earliestPublicationNumber:US20250087686A1"
         then Client.mkPatentDataResponse
                (Some [Client.mkPatentFileWrapper None])
         else Client.mkPatentDataResponse None) in
  Client.ResolvePatentNumber Transport.DefaultConfig c
    "US 2025/0087686 A1" []
  = (Client.Returns (Err (ErrNoApplicationNumberForPublication "20250087686")),
     [Client.mkSearchCall
        "applicationMetaData.earliestPublicationNumber:US20250087686A1"
        0 1]) /\
  snd (Client.resolvePublicationToApplicationNumber Transport.DefaultConfig
         c "US250087686" [])
  = [Client.mkSearchCall
       "applicationMetaData.earliestPublicationNumber:US250087686" 0 1].
Proof.
  intros c.
  destruct (resolve_publication Transport.DefaultConfig c []) as [H1 H2].
  pose (pn := mkPatentNumber "US 2025/0087686 A1" "20250087686" EmptyString
                PatentNumberTypePublication "US").
  destruct (H1 "US 2025/0087686 A1" pn eq_refl eq_refl) as [E _].
  destruct (H2 "20250087686") as (_ & _ & call & Hc & _ & Hmiss & _).
  destruct (H2 "US250087686") as (_ & Hkeep & _).
  split.
  - rewrite E. cbn [Normalized pn].
    rewrite (surjective_pairing
               (Client.resolvePublicationToApplicationNumber
                  Transport.DefaultConfig c "20250087686" [])).
    rewrite Hc.
    assert (C : call
                = Client.mkSearchCall
                    "applicationMetaData.earliestPublicationNumber:US20250087686A1"
                    0 1).
    { assert (Hc' := Hc). vm_compute in Hc'. now inversion Hc'. }
    subst call.
    rewrite (Hmiss _ (Client.mkPatentFileWrapper None) []
               eq_refl eq_refl eq_refl).
    reflexivity.
  - apply Hkeep. right. exists "250087686". reflexivity.
Defined.

(** ** [strings.Join] and the builders *)

Lemma Join_cons (x : string) (l : list string) (sep : string) :
  l <> [] -> Join (x :: l) sep = x ++ sep ++ Join l sep.
Proof. destruct l; [congruence | reflexivity]. Qed.

Lemma Join_app (l1 l2 : list string) (sep : string) :
  l1 <> [] -> l2 <> [] ->
  Join (l1 ++ l2) sep = Join l1 sep ++ sep ++ Join l2 sep.
Proof.
  induction l1 as [|x l1 IH]; intros H1 H2; [congruence|].
  destruct l1 as [|y l1].
  - simpl app. rewrite Join_cons by assumption. reflexivity.
  - change ((x :: y :: l1) ++ l2)%list with (x :: (y :: l1) ++ l2)%list.
    rewrite (Join_cons x ((y :: l1) ++ l2)) by discriminate.
    rewrite (Join_cons x (y :: l1)) by discriminate.
    rewrite IH; [|discriminate|assumption].
    now rewrite !append_assoc_s.
Qed.

Lemma Join_not_empty (l : list string) (sep : string) :
  Forall fragment l -> l <> [] -> Join l sep <> EmptyString.
Proof.
  intros F Hne. destruct l as [|x l]; [congruence|].
  inversion F as [|? ? [Hx _] _]; subst.
  destruct l as [|y l]; simpl; [assumption|].
  intros E. apply append_eq_empty in E. tauto.
Qed.

Lemma Len_pos (s : string) : (0 <? Len s)%nat = negb (isEmpty s).
Proof. destruct s; reflexivity. Qed.

(** Fragments joined by a byte below 128 make a trimmed string. *)
Lemma Join_trimmed (l : list string) (x : ascii) :
  (byte x < 128)%N -> Forall fragment l ->
  trimmed (Join l (String x EmptyString)).
Proof.
  intros Hx. induction l as [|a l IH]; intros F.
  - split; reflexivity.
  - inversion F as [|? ? [Ha Ta] F']; subst.
    destruct l as [|b l]; [assumption|].
    rewrite Join_cons by discriminate.
    apply trimmed_join; auto.
    apply Join_not_empty; [assumption | discriminate].
Qed.

(** Writing to a builder that holds joined fragments more joined
    fragments, after a separator unless the builder is empty. *)
Lemma write_joined (l1 l2 : list string) (sep : string) :
  Forall fragment l1 -> l2 <> [] ->
  WriteString
    (if (0 <? Len (Join l1 sep))%nat then WriteString (Join l1 sep) sep
     else Join l1 sep) (Join l2 sep)
  = Join (l1 ++ l2) sep.
Proof.
  intros F1 H2. unfold WriteString. rewrite Len_pos.
  destruct l1 as [|x l1]; [reflexivity|].
  assert (Hne : Join (x :: l1) sep <> EmptyString)
    by (apply Join_not_empty; [assumption | discriminate]).
  apply isEmpty_false in Hne. rewrite Hne. simpl negb. cbv iota.
  rewrite Join_app by (assumption || discriminate).
  now rewrite append_assoc_s.
Qed.

Lemma write_optional (l f : list string) (sep : string) :
  Forall fragment l -> Forall fragment f ->
  (if negb (isEmpty (Join f sep)) then
     WriteString
       (if (0 <? Len (Join l sep))%nat then WriteString (Join l sep) sep
        else Join l sep) (Join f sep)
   else Join l sep)
  = Join (l ++ f) sep.
Proof.
  intros Fl Ff. destruct f as [|x f].
  - simpl. now rewrite app_nil_r.
  - assert (Hne : Join (x :: f) sep <> EmptyString)
      by (apply Join_not_empty; [assumption | discriminate]).
    apply isEmpty_false in Hne. rewrite Hne. simpl negb. cbv iota.
    apply write_joined; [assumption | discriminate].
Qed.

(** ** Claim text *)

Section ClaimTextFacts.
Import XML.

Lemma ClaimText_nested_ind (P : ClaimText -> Prop) :
  (forall id text nestedClaims sub sup i b,
      Forall P nestedClaims ->
      P (mkClaimText id text nestedClaims sub sup i b)) ->
  forall ct, P ct.
Proof.
  intros H. fix IH 1. intros [id text nestedClaims sub sup i b].
  apply H. induction nestedClaims as [|ct l IHl]; constructor.
  - apply IH.
  - apply IHl.
Qed.

Lemma nodeTexts_trimmed : forall ct, Forall trimmed (nodeTexts ct).
Proof.
  induction ct as [id text ns sub sup i b IH] using ClaimText_nested_ind.
  simpl. constructor; [apply TrimSpace_trimmed|].
  induction IH as [|ct l Hct _ IHl]; simpl; [constructor|].
  apply Forall_app. auto.
Qed.

Lemma filter_fragments (l : list string) :
  Forall trimmed l -> Forall fragment (filter nonEmpty l).
Proof.
  induction 1 as [|x l Hx _ IH]; simpl; [constructor|].
  destruct (nonEmpty x) eqn:E; [|assumption].
  constructor; [|assumption]. split; [|assumption].
  unfold nonEmpty in E. apply negb_true_iff, isEmpty_false in E. exact E.
Qed.

Lemma claimFragments_fragments (cts : list ClaimText) :
  Forall fragment (claimFragments cts).
Proof.
  apply filter_fragments. induction cts as [|ct l IH]; simpl; [constructor|].
  apply Forall_app. auto using nodeTexts_trimmed.
Qed.

Lemma claimFragments_cons (ct : ClaimText) (cts : list ClaimText) :
  claimFragments (ct :: cts)
  = (filter nonEmpty (nodeTexts ct) ++ claimFragments cts)%list.
Proof. unfold claimFragments. simpl. apply filter_app. Qed.

Lemma Join_single_or_none (t : string) (sep : string) :
  Join (filter nonEmpty [t]) sep = t.
Proof. destruct t; reflexivity. Qed.

(** One iteration of the loop adds the fragments of the element. *)
Lemma claimTextStep_spec (nested : ClaimText -> string) (l : list string)
    (ct : ClaimText) :
  Forall fragment l ->
  nested ct = Join (claimFragments (NestedClaims ct)) " " ->
  claimTextStep nested (Join l " ") ct
  = Join (l ++ filter nonEmpty (nodeTexts ct)) " ".
Proof.
  intros Fl Hn. destruct ct as [id text ns sub sup i b].
  unfold claimTextStep. simpl ClaimText_Text. simpl NestedClaims in *.
  rewrite Hn. clear Hn.
  replace (filter nonEmpty (nodeTexts (mkClaimText id text ns sub sup i b)))
    with (filter nonEmpty [TrimSpace text] ++ claimFragments ns)%list
    by (unfold claimFragments; simpl;
        destruct (nonEmpty (TrimSpace text)); reflexivity).
  assert (Ft : Forall fragment (filter nonEmpty [TrimSpace text])).
  { apply filter_fragments. constructor; [apply TrimSpace_trimmed|constructor]. }
  pose proof (write_optional l (filter nonEmpty [TrimSpace text]) " " Fl Ft)
    as W1.
  rewrite !Join_single_or_none in W1. rewrite !W1.
  rewrite app_assoc.
  set (l' := (l ++ filter nonEmpty [TrimSpace text])%list).
  assert (Fl' : Forall fragment l') by (apply Forall_app; auto).
  destruct ns as [|n ns].
  - simpl. now rewrite app_nil_r.
  - simpl List.length. simpl Nat.ltb. cbv iota.
    apply write_optional; [assumption | apply claimFragments_fragments].
Qed.

Lemma fold_claimTextStep (nested : ClaimText -> string) :
  forall cts,
    Forall (fun ct =>
              nested ct = Join (claimFragments (NestedClaims ct)) " ") cts ->
    forall l, Forall fragment l ->
    fold_left (claimTextStep nested) cts (Join l " ")
    = Join (l ++ claimFragments cts) " ".
Proof.
  induction 1 as [|ct cts Hct _ IH]; intros l Fl; simpl.
  - now rewrite app_nil_r.
  - rewrite claimTextStep_spec by assumption.
    rewrite IH.
    + now rewrite claimFragments_cons, app_assoc.
    + apply Forall_app. split; [assumption|].
      apply filter_fragments, nodeTexts_trimmed.
Qed.

Lemma space_low : (byte " " < 128)%N.
Proof. reflexivity. Qed.

Lemma extractNested_spec :
  forall ct depth,
    extractNested depth ct = Join (claimFragments (NestedClaims ct)) " ".
Proof.
  induction ct as [id text ns sub sup i b IH] using ClaimText_nested_ind.
  intros depth. simpl.
  change newBuilder with (Join [] " ").
  rewrite fold_claimTextStep.
  - simpl app. apply TrimSpace_id, Join_trimmed.
    + apply space_low.
    + apply claimFragments_fragments.
  - eapply Forall_impl; [|exact IH]. intros ct H. apply H.
  - constructor.
Qed.

Lemma extractClaimTextRecursive_spec (cts : list ClaimText) (depth : Z) :
  extractClaimTextRecursive cts depth = Join (claimFragments cts) " ".
Proof.
  unfold extractClaimTextRecursive.
  change newBuilder with (Join [] " ").
  rewrite fold_claimTextStep.
  - simpl app. apply TrimSpace_id, Join_trimmed.
    + apply space_low.
    + apply claimFragments_fragments.
  - apply Forall_forall. intros ct _. apply extractNested_spec.
  - constructor.
Qed.

Lemma nodeTexts_plain : forall ct, nodeTexts (plain ct) = nodeTexts ct.
Proof.
  induction ct as [id text ns sub sup i b IH] using ClaimText_nested_ind.
  simpl. f_equal.
  induction IH as [|ct l Hct _ IHl]; simpl; [reflexivity|].
  now rewrite Hct, IHl.
Qed.

Lemma claimFragments_plain (cts : list ClaimText) :
  claimFragments (map plain cts) = claimFragments cts.
Proof.
  unfold claimFragments. f_equal.
  induction cts as [|ct l IH]; simpl; [reflexivity|].
  now rewrite nodeTexts_plain, IH.
Qed.

(** C2: the text of a claim is the trimmed texts of its claim-text
    elements, each element before those nested in it and these from left to
    right, at any depth, the empty ones left out and the others joined by
    one space; the formatting elements add nothing to it. *)
Theorem claim_text_document_order (c : Claim) :
  ExtractClaimText (Some c) = Join (claimFragments (Claim_ClaimText c)) " " /\
  ExtractClaimText
    (Some (mkClaim (Claim_ID c) (Num c) (map plain (Claim_ClaimText c))))
  = ExtractClaimText (Some c).
Proof.
  unfold ExtractClaimText. simpl.
  rewrite !extractClaimTextRecursive_spec, claimFragments_plain. auto.
Qed.

End ClaimTextFacts.

(** ** Formatted claims *)

Section FormattedClaims.
Import XML.

Lemma Join_fold (x : string) (l : list string) (sep : string) :
  Join (x :: l) sep
  = x ++ fold_right (fun y acc => sep ++ y ++ acc) EmptyString l.
Proof.
  revert x. induction l as [|y l IH]; intros x.
  - simpl. now rewrite append_empty_r.
  - rewrite Join_cons by discriminate. rewrite IH. reflexivity.
Qed.






End FormattedClaims.

(** ** The text of the description *)

Section DescriptionText.
Import XML.

Lemma headingStep_fold :
  forall hs builder flag,
    fst (fold_left headingStep hs (builder, flag))
    = fold_left writeBlock
        (map (fun h => TrimSpace (Heading_Text h)) hs) builder.
Proof.
  induction hs as [|h hs IH]; intros builder flag; simpl; [reflexivity|].
  apply IH.
Qed.

Lemma paragraphStep_fold :
  forall ps builder flag,
    fst (fold_left paragraphStep ps (builder, flag))
    = fold_left writeBlock
        (map (fun p => TrimSpace (Paragraph_Text p)) ps) builder.
Proof.
  induction ps as [|p ps IH]; intros builder flag; simpl; [reflexivity|].
  destruct flag; apply IH.
Qed.

Lemma writeBlock_fold :
  forall l builder,
    builder <> EmptyString ->
    fold_left writeBlock l builder
    = builder ++
      fold_right (fun y acc => blankLine ++ y ++ acc) EmptyString l.
Proof.
  induction l as [|x l IH]; intros builder Hne; simpl.
  - now rewrite append_empty_r.
  - unfold writeBlock at 2. rewrite Len_pos.
    apply isEmpty_false in Hne. rewrite Hne. simpl negb. cbv iota.
    unfold WriteString. rewrite IH.
    + now rewrite !append_assoc_s.
    + apply isEmpty_false in Hne. intros E.
      apply append_eq_empty in E as [E _].
      apply append_eq_empty in E as [E _]. contradiction.
Qed.

Lemma TrimLeft_blankLine (s : string) :
  TrimLeft (blankLine ++ s) = TrimLeft s.
Proof. reflexivity. Qed.

(** An empty block in front leaves no trace once the text is trimmed. *)
Lemma writeBlock_TrimLeft :
  forall l,
    TrimLeft (fold_left writeBlock l newBuilder)
    = TrimLeft (Join l blankLine).
Proof.
  induction l as [|x l IH]; [reflexivity|].
  cbn [fold_left]. change (writeBlock newBuilder x) with x.
  destruct x as [|a x].
  - change (fold_left writeBlock l EmptyString)
      with (fold_left writeBlock l newBuilder).
    rewrite IH. destruct l as [|y l]; [reflexivity|].
    rewrite (Join_cons EmptyString) by discriminate.
    change (EmptyString ++ blankLine ++ Join (y :: l) blankLine)
      with (blankLine ++ Join (y :: l) blankLine).
    now rewrite TrimLeft_blankLine.
  - rewrite writeBlock_fold by discriminate. now rewrite Join_fold.
Qed.

Lemma ExtractDescriptionText_spec (d : Description) :
  ExtractDescriptionText (Some d)
  = TrimSpace (Join (descriptionBlocks d) blankLine).
Proof.
  unfold ExtractDescriptionText, descriptionBlocks, TrimSpace.
  destruct (fold_left headingStep (Headings d) (newBuilder, false))
    as [builder flag] eqn:E.
  rewrite paragraphStep_fold.
  replace builder with (fst (fold_left headingStep (Headings d)
                                (newBuilder, false))) by now rewrite E.
  rewrite headingStep_fold, <- fold_left_app.
  now rewrite writeBlock_TrimLeft.
Qed.

End DescriptionText.


(** C7, as stated, fails: the description is not always the blocks joined
    by blank lines, since the text is trimmed as a whole at the end.  Here
    the last paragraph is empty and the blank line in front of it is
    trimmed away. *)
Lemma description_text_counterexample :
  XML.ExtractDescriptionText (Some XML.sampleDescription)
  <> Join (XML.descriptionBlocks XML.sampleDescription) XML.blankLine.
Proof. intros H. vm_compute in H. discriminate H. Qed.

(** C7, as amended: the text of a description is its headings, each
    trimmed, followed by its paragraphs, each trimmed, all joined by blank
    lines, and the whole trimmed of the white space around it; it is empty
    when there is no description. *)
Theorem description_text_blocks :
  XML.ExtractDescriptionText None = EmptyString /\
  forall d : XML.Description,
    XML.ExtractDescriptionText (Some d)
    = TrimSpace (Join (XML.descriptionBlocks d) XML.blankLine).
Proof. split; [reflexivity | exact ExtractDescriptionText_spec]. Qed.

(** ** Parsing with an expected type *)

Section ParseFacts.
Import GoXML XML.

Variable Element : Type.
Variable decode : string -> Decoded Element.
Variable grantFields : Element -> PatentGrant.
Variable applicationFields : Element -> PatentApplication.

Let parse := ParseXMLWithType Element decode grantFields applicationFields.

(** The checks of the root name that follow the two calls of
    [xml.Unmarshal] never fail: their errors are not returned. *)
Lemma parse_no_root_error (data : string) (t : DocumentType)
    (actual : string) :
  parse data t <> Err (ErrGrantRoot actual) /\
  parse data t <> Err (ErrApplicationRoot actual).
Proof.
  unfold parse, ParseXMLWithType, UnmarshalGrant, UnmarshalApplication,
    Unmarshal.
  destruct (t =? DocumentTypeGrant)%Z; [|destruct (t =? DocumentTypeApplication)%Z;
    [|destruct (t =? DocumentTypeUnknown)%Z]];
  destruct (decode data) as [e | name [el | e]]; simpl;
    try (split; discriminate);
    destruct (Local name =? "us-patent-grant") eqn:Eg;
    destruct (Local name =? "us-patent-application") eqn:Ea;
    simpl; rewrite ?Eg, ?Ea; simpl; split; discriminate.
Qed.

(** C4, as amended: with an expected type, a document whose root element
    does not have the expected name fails in [xml.Unmarshal] itself, with
    the error of the failed parse around the complaint of the decoder,
    which names the expected and the actual element, whether the rest of
    the document is well-formed or not; an input without a start element,
    or one that is malformed after a root of the expected name, fails with
    the error of the failed parse around the error of the decoder. *)
Theorem parse_expected_type (data : string) :
  (forall name rest,
      decode data = StartElement name rest ->
      (Local name <> "us-patent-grant" ->
       parse data DocumentTypeGrant
       = Err (ErrParseGrant
                (XMLUnmarshalError
                   ("expected element type <us-patent-grant> but have <"
                      ++ Local name ++ ">")))) /\
      (Local name <> "us-patent-application" ->
       parse data DocumentTypeApplication
       = Err (ErrParseApplication
                (XMLUnmarshalError
                   ("expected element type <us-patent-application> but have <"
                      ++ Local name ++ ">"))))) /\
  (forall e,
      decode data = NoStartElement e ->
      parse data DocumentTypeGrant = Err (ErrParseGrant e) /\
      parse data DocumentTypeApplication = Err (ErrParseApplication e)) /\
  (forall name e,
      decode data = StartElement name (Err e) ->
      (Local name = "us-patent-grant" ->
       parse data DocumentTypeGrant = Err (ErrParseGrant e)) /\
      (Local name = "us-patent-application" ->
       parse data DocumentTypeApplication = Err (ErrParseApplication e))).
Proof.
  unfold parse, ParseXMLWithType, UnmarshalGrant, UnmarshalApplication,
    Unmarshal.
  change (DocumentTypeGrant =? DocumentTypeGrant)%Z with true.
  change (DocumentTypeApplication =? DocumentTypeGrant)%Z with false.
  change (DocumentTypeApplication =? DocumentTypeApplication)%Z with true.
  cbv iota. split; [|split].
  - intros name rest ->. split; intros Hn; apply String.eqb_neq in Hn;
      rewrite Hn; reflexivity.
  - intros e ->. split; reflexivity.
  - intros name e ->. split; intros Hn; apply String.eqb_eq in Hn;
      rewrite Hn; reflexivity.
Qed.

End ParseFacts.

(** A well-formed document of the application grammar, parsed as a
    grant. *)
Lemma parse_expected_type_witness :
  XML.sampleDecode XML.sampleApplication
  = GoXML.StartElement (GoXML.mkName EmptyString "us-patent-application")
      (Ok "EN") /\
  XML.ParseGrantXML string XML.sampleDecode XML.sampleGrantFields
    XML.sampleApplicationFields XML.sampleApplication
  = Err (ErrParseGrant
           (XMLUnmarshalError
              "expected element type <us-patent-grant> but have <us-patent-application>")).
Proof.
  split; [reflexivity|].
  destruct (parse_expected_type string XML.sampleDecode XML.sampleGrantFields
              XML.sampleApplicationFields XML.sampleApplication)
    as (H & _ & _).
  destruct (H _ _ eq_refl) as [Hg _].
  unfold XML.ParseGrantXML. rewrite Hg by discriminate. reflexivity.
Defined.

(** C4, as stated, fails: a well-formed document of the application grammar
    and one that is malformed, parsed as grants, fail with one and the same
    error, which cannot be of the mismatch of document types for the first
    and of malformed XML for the second. *)
Lemma parse_expected_type_counterexample :
  ~ exists mismatch malformed : error -> bool,
      (forall e, mismatch e = true -> malformed e = false) /\
      (exists e,
          XML.ParseXMLWithType string XML.sampleDecode XML.sampleGrantFields
            XML.sampleApplicationFields XML.sampleApplication
            XML.DocumentTypeGrant = Err e /\ mismatch e = true) /\
      (exists e,
          XML.ParseXMLWithType string XML.sampleDecode XML.sampleGrantFields
            XML.sampleApplicationFields XML.brokenApplication
            XML.DocumentTypeGrant = Err e /\ malformed e = true).
Proof.
  intros (mismatch & malformed & D & (e1 & H1 & M1) & (e2 & H2 & M2)).
  vm_compute in H1, H2. inversion H1. inversion H2. subst e1 e2.
  rewrite (D _ M1) in M2. discriminate M2.
Qed.

(* ================================================================== *)
(** * Part III: further properties of the code *)
(* ================================================================== *)

(** ** The matcher finds a match whenever there is one *)

Lemma orElse_none (x y : option captures) :
  orElse x y = None <-> x = None /\ y = None.
Proof.
  destruct x; simpl; split; intros H; try tauto; try discriminate.
Qed.

Lemma star_insensitive (p : ascii -> bool) :
  forall s k c1 c2,
    insensitive k -> star p s c1 k = None -> star p s c2 k = None.
Proof.
  induction s as [|a s IH]; intros k c1 c2 Hk H; simpl in *.
  - eapply Hk; eauto.
  - destruct (p a); [|eapply Hk; eauto].
    apply orElse_none in H as [H1 H2]. apply orElse_none. split.
    + eapply IH; eauto.
    + eapply Hk; eauto.
Qed.

Lemma run_insensitive :
  forall r s k c1 c2,
    insensitive k -> run r s c1 k = None -> run r s c2 k = None.
Proof.
  induction r as [|p|r1 IH1 r2 IH2|r IH|p|i r IH]; intros s k c1 c2 Hk H;
    simpl in *.
  - eapply Hk; eauto.
  - destruct s as [|a s]; [reflexivity|].
    destruct (p a); [eapply Hk; eauto | reflexivity].
  - eapply IH1; [|exact H]. intros s' d1 d2. apply IH2. exact Hk.
  - apply orElse_none in H as [H1 H2]. apply orElse_none. split.
    + eapply IH; eauto.
    + eapply Hk; eauto.
  - eapply star_insensitive; eauto.
  - eapply IH; [|exact H]. intros s' d1 d2. apply Hk.
Qed.

Lemma star_continue (p : ascii -> bool) (s : string) (c : captures)
    (k : cont) :
  k s c <> None -> star p s c k <> None.
Proof.
  intros H. destruct s as [|a s]; simpl; [assumption|].
  destruct (p a); [|assumption].
  intros E. apply orElse_none in E. tauto.
Qed.

Lemma star_complete (p : ascii -> bool) :
  forall w s' c k,
    all p w = true -> k s' c <> None -> star p (w ++ s') c k <> None.
Proof.
  induction w as [|a w IH]; intros s' c k Hw Hk; simpl.
  - now apply star_continue.
  - simpl in Hw. apply andb_true_iff in Hw as [Ha Hw]. rewrite Ha.
    intros E. apply orElse_none in E as [E _]. revert E. now apply IH.
Qed.

Lemma run_complete :
  forall r w c c',
    lang r w c c' ->
    forall s' k,
      insensitive k -> k s' c' <> None -> run r (w ++ s') c k <> None.
Proof.
  induction r as [|p|r1 IH1 r2 IH2|r IH|p|i r IH]; intros w c c' L s' k Hk H.
  - destruct L as [-> ->]. exact H.
  - destruct L as (a & -> & Ha & ->). simpl. now rewrite Ha.
  - destruct L as (w1 & w2 & cm & -> & L1 & L2).
    rewrite append_assoc_s. simpl.
    eapply IH1; [exact L1 | | eapply IH2; eauto].
    intros s1 d1 d2. apply run_insensitive. exact Hk.
  - simpl. intros E. apply orElse_none in E as [E1 E2].
    destruct L as [[-> ->] | L]; [now apply H|].
    revert E1. eapply IH; eauto.
  - destruct L as [Hw ->]. simpl. now apply star_complete.
  - destruct L as (cm & L & ->). simpl.
    eapply IH; [exact L | |].
    + intros s1 d1 d2. apply Hk.
    + rewrite consumed_append. exact H.
Qed.

Lemma FindStringSubmatch_complete (r : re) (s : string) (c' : captures) :
  lang r s noCaptures c' -> FindStringSubmatch r s <> None.
Proof.
  intros L. unfold FindStringSubmatch.
  rewrite <- (append_empty_r s) at 1.
  eapply run_complete; [exact L | | discriminate].
  intros s1 d1 d2. unfold atEnd. destruct (isEmpty s1); [discriminate | auto].
Qed.

(** *** Building matches *)

Lemma lang_cat_intro r1 r2 w1 w2 c cm c' :
  lang r1 w1 c cm -> lang r2 w2 cm c' -> lang (Cat r1 r2) (w1 ++ w2) c c'.
Proof. intros L1 L2. exists w1, w2, cm. auto. Qed.

Lemma lang_rep_intro p : forall n w c,
  all p w = true -> len w = n -> lang (rep n (Class p)) w c c.
Proof.
  induction n as [|n IH]; intros w c Hw Hn.
  - destruct w; [simpl; auto | discriminate].
  - destruct w as [|a w]; [discriminate|].
    simpl in Hw. apply andb_true_iff in Hw as [Ha Hw].
    injection Hn as Hn. destruct n as [|n].
    + destruct w; [|discriminate]. simpl. eauto.
    + change (lang (Cat (Class p) (rep (S n) (Class p))) (String a w) c c).
      apply (lang_cat_intro _ _ (String a EmptyString) w c c c).
      * simpl. eauto.
      * apply IH; assumption.
Qed.

Lemma lang_rep12_intro p w c :
  all p w = true -> len w = 1 \/ len w = 2 ->
  lang (rep12 (Class p)) w c c.
Proof.
  intros Hw Hn. destruct w as [|a [|b [|x w]]]; simpl in Hn;
    try (exfalso; destruct Hn; discriminate).
  - simpl in Hw. rewrite andb_true_r in Hw.
    exists (String a EmptyString), EmptyString, c. simpl.
    split; [reflexivity|]. split; [eauto | left; auto].
  - simpl in Hw. rewrite andb_true_r in Hw.
    apply andb_true_iff in Hw as [Ha Hb].
    exists (String a EmptyString), (String b EmptyString), c. simpl.
    split; [reflexivity|]. split; [eauto | right; eauto].
Qed.

Lemma lang_group_intro i r w c :
  lang r w c c -> lang (Group i r) w c (set i w c).
Proof. intros L. exists c. auto. Qed.

(** ** The digits of a string *)

Lemma digitsOf_append (s t : string) :
  digitsOf (s ++ t) = digitsOf s ++ digitsOf t.
Proof.
  induction s as [|a s IH]; simpl; [reflexivity|].
  destruct (digit a); simpl; now rewrite IH.
Qed.

Lemma digitsOf_digits (w : string) : all digit w = true -> digitsOf w = w.
Proof.
  induction w as [|a w IH]; simpl; [reflexivity|].
  intros H. apply andb_true_iff in H as [Ha Hw]. now rewrite Ha, IH.
Qed.

Lemma digitsOf_none (p : ascii -> bool) (w : string) :
  (forall a, p a = true -> digit a = false) ->
  all p w = true -> digitsOf w = EmptyString.
Proof.
  intros D. induction w as [|a w IH]; simpl; [reflexivity|].
  intros H. apply andb_true_iff in H as [Ha Hw]. now rewrite (D _ Ha), IH.
Qed.

Lemma digitsOf_all (s : string) : all digit (digitsOf s) = true.
Proof.
  induction s as [|a s IH]; simpl; [reflexivity|].
  destruct (digit a) eqn:E; simpl; [now rewrite E|assumption].
Qed.

Lemma digitsOf_rev (s : string) : digitsOf (rev s) = rev (digitsOf s).
Proof.
  induction s as [|a s IH]; simpl; [reflexivity|].
  rewrite digitsOf_append, IH. simpl.
  destruct (digit a); simpl; [reflexivity | apply append_empty_r].
Qed.

Lemma all_impl (p q : ascii -> bool) (w : string) :
  (forall a, p a = true -> q a = true) -> all p w = true -> all q w = true.
Proof.
  intros I. induction w as [|a w IH]; simpl; [reflexivity|].
  intros H. apply andb_true_iff in H as [Ha Hw]. now rewrite (I _ Ha), IH.
Qed.

Lemma isSpace1_not_digit a : isSpace1 a = true -> digit a = false.
Proof. intros; bytes. Qed.

Lemma high_not_digit a : (128 <= byte a)%N -> digit a = false.
Proof. intros; bytes. Qed.

Lemma digit_notUpper a : digit a = true -> notUpper a = true.
Proof. unfold notUpper. intros H. apply negb_true_iff. bytes. Qed.

Lemma digit_notSlash a : digit a = true -> notSlash a = true.
Proof. unfold notSlash. intros H. apply negb_true_iff. bytes. Qed.

(** Trimming removes no digit. *)
Lemma digitsOf_trimLeftWith sp2 sp3 :
  (forall a b, sp2 a b = true -> (128 <= byte a)%N /\ (128 <= byte b)%N) ->
  (forall a b c, sp3 a b c = true ->
     (128 <= byte a)%N /\ (128 <= byte b)%N /\ (128 <= byte c)%N) ->
  forall s, digitsOf (trimLeftWith sp2 sp3 s) = digitsOf s.
Proof.
  intros H2 H3.
  induction s as [|a s IH1 IH2 IH3] using string_ind3; [reflexivity|].
  simpl trimLeftWith. destruct (isSpace1 a) eqn:E1.
  { simpl. now rewrite (isSpace1_not_digit _ E1). }
  destruct s as [|b s2]; [reflexivity|].
  destruct (sp2 a b) eqn:E2.
  { apply H2 in E2 as [Ha Hb]. simpl.
    rewrite (high_not_digit _ Ha), (high_not_digit _ Hb).
    now apply (IH2 b s2). }
  destruct s2 as [|c s3]; [reflexivity|].
  destruct (sp3 a b c) eqn:E3; [|reflexivity].
  apply H3 in E3 as (Ha & Hb & Hc). simpl.
  rewrite (high_not_digit _ Ha), (high_not_digit _ Hb), (high_not_digit _ Hc).
  now apply (IH3 b c s3).
Qed.

Lemma digitsOf_TrimSpace (s : string) : digitsOf (TrimSpace s) = digitsOf s.
Proof.
  unfold TrimSpace, TrimRight, TrimLeftRev, TrimLeft.
  rewrite digitsOf_rev.
  rewrite (digitsOf_trimLeftWith _ _ isSpace2Rev_high isSpace3Rev_high).
  rewrite digitsOf_rev, rev_involutive.
  apply (digitsOf_trimLeftWith _ _ isSpace2_high isSpace3_high).
Qed.

(** ** More on what a match of each pattern says *)

Lemma lang_US_cases w c c' :
  lang (Opt (lit "US")) w c c' ->
  (w = EmptyString \/ w = "US") /\ c' = c.
Proof.
  intros [[-> ->] | (w1 & w2 & cm & -> & H1 & H2)]; [auto|].
  destruct H1 as (a & -> & Ha & ->). destruct H2 as (b & -> & Hb & ->).
  apply Ascii.eqb_eq in Ha, Hb. subst. auto.
Qed.

Lemma digitsOf_US (us : string) :
  us = EmptyString \/ us = "US" -> digitsOf us = EmptyString.
Proof. intros [-> | ->]; reflexivity. Qed.

Ltac no_digits :=
  repeat match goal with
    | H : all space ?w = true |- context [digitsOf ?w] =>
        rewrite (digitsOf_none space w space_not_digit H)
    | H : all commaSpace ?w = true |- context [digitsOf ?w] =>
        rewrite (digitsOf_none commaSpace w commaSpace_not_digit H)
    | H : all slashCommaSpace ?w = true |- context [digitsOf ?w] =>
        rewrite (digitsOf_none slashCommaSpace w slashCommaSpace_not_digit H)
    | H : all digit ?w = true |- context [digitsOf ?w] =>
        rewrite (digitsOf_digits w H)
    | H : _ = EmptyString \/ _ = "US" |- context [digitsOf ?w] =>
        rewrite (digitsOf_US w H)
    end.

Ltac false_and := repeat first [rewrite andb_false_l | rewrite andb_false_r].

Lemma grantWithKind_facts (s : string) (m : captures) :
  FindStringSubmatch grantWithKindPattern s = Some m ->
  (exists d, digit d = true /\
             digitsOf s = (m 1 ++ m 2 ++ m 3) ++ String d EmptyString) /\
  all notUpper s = false.
Proof.
  intros H. apply FindStringSubmatch_sound in H as (c' & L & ->).
  unfold grantWithKindPattern in L.
  split_cat L us Hus. apply lang_US_cases in Hus as [Hus ->].
  split_cat L sp Hsp. apply lang_star in Hsp as [Hsp ->].
  split_cat L g1 Hg1. destruct Hg1 as (c1 & Hg1 & ->).
  apply lang_rep12 in Hg1 as (D1 & N1 & ->).
  split_cat L s1 Hs1. apply lang_star in Hs1 as [Hs1 ->].
  split_cat L g2 Hg2. destruct Hg2 as (c2 & Hg2 & ->).
  apply lang_rep in Hg2 as (D2 & N2 & ->).
  split_cat L s2 Hs2. apply lang_star in Hs2 as [Hs2 ->].
  split_cat L g3 Hg3. destruct Hg3 as (c3 & Hg3 & ->).
  apply lang_rep in Hg3 as (D3 & N3 & ->).
  split_cat L ps Hps. apply lang_plus in Hps as (Hps & Hne & ->).
  split_cat L u Hu. destruct Hu as (x & -> & Hx & ->).
  destruct L as (d & -> & Hd & ->).
  unfold set; simpl Nat.eqb; cbv iota. split.
  - exists d. split; [assumption|].
    rewrite !digitsOf_append. no_digits. simpl.
    rewrite (upper_not_digit _ Hx), Hd. simpl.
    now rewrite !append_assoc_s.
  - rewrite !all_append. simpl (all notUpper (String x _)).
    unfold notUpper at 9. rewrite Hx. simpl. false_and. reflexivity.
Qed.

Lemma applicationWithSlash_facts (s : string) (m : captures) :
  FindStringSubmatch applicationWithSlashPattern s = Some m ->
  digitsOf s = m 1 ++ m 2 ++ m 3 /\ all notSlash s = false.
Proof.
  intros H. apply FindStringSubmatch_sound in H as (c' & L & ->).
  unfold applicationWithSlashPattern in L.
  split_cat L us Hus. apply lang_US_cases in Hus as [Hus ->].
  split_cat L sp Hsp. apply lang_star in Hsp as [Hsp ->].
  split_cat L g1 Hg1. destruct Hg1 as (c1 & Hg1 & ->).
  apply lang_rep in Hg1 as (D1 & N1 & ->).
  split_cat L sl Hsl. apply lang_lit1 in Hsl as [-> ->].
  split_cat L g2 Hg2. destruct Hg2 as (c2 & Hg2 & ->).
  apply lang_rep in Hg2 as (D2 & N2 & ->).
  split_cat L s2 Hs2. apply lang_star in Hs2 as [Hs2 ->].
  destruct L as (c3 & Hg3 & ->).
  apply lang_rep in Hg3 as (D3 & N3 & ->).
  unfold set; simpl Nat.eqb; cbv iota. split.
  - rewrite !digitsOf_append. no_digits. reflexivity.
  - rewrite !all_append.
    change (all notSlash "/") with false. false_and. reflexivity.
Qed.

Lemma grantWithComma_facts (s : string) (m : captures) :
  FindStringSubmatch grantWithCommaPattern s = Some m ->
  digitsOf s = m 1 ++ m 2 ++ m 3.
Proof.
  intros H. apply FindStringSubmatch_sound in H as (c' & L & ->).
  unfold grantWithCommaPattern in L.
  split_cat L us Hus. apply lang_US_cases in Hus as [Hus ->].
  split_cat L sp Hsp. apply lang_star in Hsp as [Hsp ->].
  split_cat L g1 Hg1. destruct Hg1 as (c1 & Hg1 & ->).
  apply lang_rep12 in Hg1 as (D1 & N1 & ->).
  split_cat L k1 Hk1. apply lang_lit1 in Hk1 as [-> ->].
  split_cat L g2 Hg2. destruct Hg2 as (c2 & Hg2 & ->).
  apply lang_rep in Hg2 as (D2 & N2 & ->).
  split_cat L k2 Hk2. apply lang_lit1 in Hk2 as [-> ->].
  destruct L as (c3 & Hg3 & ->).
  apply lang_rep in Hg3 as (D3 & N3 & ->).
  unfold set; simpl Nat.eqb; cbv iota.
  rewrite !digitsOf_append. no_digits. reflexivity.
Qed.

Lemma publication_facts (s : string) (m : captures) :
  FindStringSubmatch publicationPattern s = Some m ->
  digitsOf s = m 1 ++ m 2 \/
  exists d, digit d = true /\
            digitsOf s = (m 1 ++ m 2) ++ String d EmptyString.
Proof.
  intros H. apply FindStringSubmatch_sound in H as (c' & L & ->).
  unfold publicationPattern in L.
  split_cat L us Hus. apply lang_US_cases in Hus as [Hus ->].
  split_cat L sp Hsp. apply lang_star in Hsp as [Hsp ->].
  split_cat L g1 Hg1. destruct Hg1 as (c1 & Hg1 & ->).
  apply lang_rep in Hg1 as (D1 & N1 & ->).
  split_cat L s1 Hs1. apply lang_star in Hs1 as [Hs1 ->].
  split_cat L g2 Hg2. destruct Hg2 as (c2 & Hg2 & ->).
  apply lang_rep in Hg2 as (D2 & N2 & ->).
  destruct L as [[-> ->] | L].
  - left. unfold set; simpl Nat.eqb; cbv iota.
    rewrite !digitsOf_append. no_digits. simpl.
    now rewrite append_empty_r.
  - right. split_cat L ks Hks. apply lang_star in Hks as [Hks ->].
    split_cat L u Hu. destruct Hu as (x & -> & Hx & ->).
    destruct L as (d & -> & Hd & ->). exists d. split; [assumption|].
    unfold set; simpl Nat.eqb; cbv iota.
    rewrite !digitsOf_append. no_digits. simpl.
    rewrite (upper_not_digit _ Hx), Hd. simpl.
    now rewrite !append_assoc_s.
Qed.

(** ** NormalizePatentNumber: the digits, the errors, normalising again *)

(** X1: the normalised number is made of the digits of the input, in their
    order; the one digit that may be left out is that of a kind code at
    the end. *)
Theorem normalize_digits_of_input (input : string) (pn : PatentNumber) :
  NormalizePatentNumber input = Ok pn ->
  digitsOf input = Normalized pn \/
  exists d, digit d = true /\
            digitsOf input = Normalized pn ++ String d EmptyString.
Proof.
  rewrite <- (digitsOf_TrimSpace input). unfold NormalizePatentNumber.
  destruct (isEmpty input); [discriminate|].
  set (cleaned := TrimSpace input).
  destruct (FindStringSubmatch grantWithKindPattern cleaned) as [m|] eqn:E1.
  { intros H; inversion H; subst pn; clear H. simpl.
    apply grantWithKind_facts in E1 as [E1 _]. right. exact E1. }
  destruct (FindStringSubmatch applicationWithSlashPattern cleaned)
    as [m|] eqn:E2.
  { intros H; inversion H; subst pn; clear H. simpl.
    apply applicationWithSlash_facts in E2 as [E2 _]. left. exact E2. }
  destruct (FindStringSubmatch grantWithCommaPattern cleaned) as [m|] eqn:E3.
  { intros H; inversion H; subst pn; clear H. simpl.
    apply grantWithComma_facts in E3. left. exact E3. }
  destruct (FindStringSubmatch publicationPattern cleaned) as [m|] eqn:E4.
  { intros H; inversion H; subst pn; clear H. simpl.
    apply publication_facts in E4. exact E4. }
  destruct (MatchString digitsOnlyPattern cleaned) eqn:E5; [|discriminate].
  apply digitsOnly_sound in E5 as [D _]. intros H. left.
  destruct (len cleaned =? 7)%nat; [|destruct ((len cleaned =? 8)
    || (len cleaned =? 9))%nat; [|destruct (len cleaned =? 11)%nat;
    [|discriminate]]];
    inversion H; subst pn; simpl; now apply digitsOf_digits.
Qed.

Lemma normalize_digits_of_input_witness :
  NormalizePatentNumber " US 9,123,456 B1 "
  = Ok (mkPatentNumber " US 9,123,456 B1 " "9123456" EmptyString
          PatentNumberTypeGrant "US") /\
  digitsOf " US 9,123,456 B1 " = "9123456" ++ "1".
Proof.
  split; [reflexivity|].
  destruct (normalize_digits_of_input " US 9,123,456 B1 " _ eq_refl)
    as [H | (d & _ & H)]; [discriminate H|].
  reflexivity.
Defined.

(** X2: the three errors of the normaliser and when each is returned: the
    empty input; an input that is digits once trimmed, of a count other
    than 7, 8, 9 and 11; and any other input that no pattern matches. *)
Theorem normalize_errors (input : string) (e : error) :
  NormalizePatentNumber input = Err e ->
  (input = EmptyString /\ e = ErrEmptyPatentNumber) \/
  (input <> EmptyString /\ TrimSpace input <> EmptyString /\
   all digit (TrimSpace input) = true /\
   len (TrimSpace input) <> 7 /\ len (TrimSpace input) <> 8 /\
   len (TrimSpace input) <> 9 /\ len (TrimSpace input) <> 11 /\
   e = ErrInvalidLength (len (TrimSpace input)) input) \/
  (input <> EmptyString /\
   (TrimSpace input = EmptyString \/ all digit (TrimSpace input) = false) /\
   e = ErrUnrecognizedFormat input).
Proof.
  unfold NormalizePatentNumber.
  destruct (isEmpty input) eqn:Ei.
  { intros H. inversion H. apply isEmpty_true in Ei. auto. }
  apply isEmpty_false in Ei.
  set (cleaned := TrimSpace input).
  destruct (FindStringSubmatch grantWithKindPattern cleaned); [discriminate|].
  destruct (FindStringSubmatch applicationWithSlashPattern cleaned);
    [discriminate|].
  destruct (FindStringSubmatch grantWithCommaPattern cleaned);
    [discriminate|].
  destruct (FindStringSubmatch publicationPattern cleaned); [discriminate|].
  destruct (MatchString digitsOnlyPattern cleaned) eqn:E5.
  - apply digitsOnly_sound in E5 as [D Hne].
    destruct (len cleaned =? 7)%nat eqn:L7; [discriminate|].
    destruct ((len cleaned =? 8) || (len cleaned =? 9))%nat eqn:L8;
      [discriminate|].
    destruct (len cleaned =? 11)%nat eqn:L11; [discriminate|].
    intros H. inversion H. right. left.
    apply orb_false_iff in L8 as [L8 L9].
    apply Nat.eqb_neq in L7, L8, L9, L11. auto 10.
  - intros H. inversion H. right. right.
    split; [assumption|]. split; [|reflexivity].
    destruct cleaned as [|a t] eqn:Ec; [auto | right].
    destruct (all digit (String a t)) eqn:D; [|reflexivity].
    rewrite digitsOnly_complete in E5; [discriminate | assumption
      | discriminate].
Qed.

Lemma normalize_errors_witness :
  NormalizePatentNumber "1234567890" = Err (ErrInvalidLength 10 "1234567890")
  /\ TrimSpace "1234567890" <> EmptyString.
Proof.
  split; [reflexivity|].
  destruct (normalize_errors "1234567890" _ eq_refl)
    as [[H _] | [(_ & H & _) | (_ & _ & H)]];
    [discriminate H | exact H | discriminate H].
Defined.

(** X3: an input of white space only is not the empty input: it fails as an
    unrecognised format. *)
Theorem normalize_blank (input : string) :
  input <> EmptyString -> TrimSpace input = EmptyString ->
  NormalizePatentNumber input = Err (ErrUnrecognizedFormat input).
Proof.
  intros Hne Ht. unfold NormalizePatentNumber.
  apply isEmpty_false in Hne. rewrite Hne, Ht. reflexivity.
Qed.

Lemma normalize_blank_witness :
  NormalizePatentNumber "   " = Err (ErrUnrecognizedFormat "   ").
Proof. apply normalize_blank; [discriminate | reflexivity]. Defined.

(** X4: the application number to use downstream is always the normalised
    number, whatever the type. *)
Theorem normalize_ToApplicationNumber (input : string) (pn : PatentNumber) :
  NormalizePatentNumber input = Ok pn ->
  ToApplicationNumber pn = Normalized pn.
Proof.
  intros H. apply NormalizePatentNumber_Ok in H as (_ & _ & _ & C).
  unfold ToApplicationNumber.
  destruct C as [(_ & A & _) | [(_ & A & _) | (_ & A & _)]]; rewrite A;
    [reflexivity | | reflexivity].
  destruct (Normalized pn); reflexivity.
Qed.

Lemma normalize_ToApplicationNumber_witness :
  NormalizePatentNumber "US 11,646,472 B2"
  = Ok (mkPatentNumber "US 11,646,472 B2" "11646472" EmptyString
          PatentNumberTypeGrant "US") /\
  ToApplicationNumber
    (mkPatentNumber "US 11,646,472 B2" "11646472" EmptyString
       PatentNumberTypeGrant "US") = "11646472".
Proof.
  split; [reflexivity|].
  apply (normalize_ToApplicationNumber "US 11,646,472 B2"). reflexivity.
Defined.

(** X5: normalising a normalised number succeeds with the same digits, and
    with the same type and application number, except that a Grant number
    of 8 digits comes back as an Application number. *)
Theorem normalize_again (input : string) (pn : PatentNumber) :
  NormalizePatentNumber input = Ok pn ->
  (Type_ pn = PatentNumberTypeGrant /\ len (Normalized pn) = 8 ->
   NormalizePatentNumber (Normalized pn)
   = Ok (mkPatentNumber (Normalized pn) (Normalized pn) (Normalized pn)
           PatentNumberTypeApplication "US")) /\
  (~ (Type_ pn = PatentNumberTypeGrant /\ len (Normalized pn) = 8) ->
   NormalizePatentNumber (Normalized pn)
   = Ok (mkPatentNumber (Normalized pn) (Normalized pn) (ApplicationNo pn)
           (Type_ pn) "US")).
Proof.
  intros H. apply NormalizePatentNumber_Ok in H as (_ & _ & D & C).
  assert (Hne : Normalized pn <> EmptyString).
  { intros E. rewrite E in C. simpl in C. lia. }
  pose proof (NormalizePatentNumber_digits (Normalized pn) (Normalized pn)
                (TrimSpace_digits _ D) D Hne) as N.
  unfold PatentNumberTypeGrant, PatentNumberTypeApplication,
    PatentNumberTypePublication in *.
  split.
  - intros [_ L]. rewrite N, L. reflexivity.
  - intros G. rewrite N.
    destruct C as [(T & A & [L | L]) | [(T & A & [L | L]) | (T & A & L)]];
      rewrite T, A, L; try reflexivity.
    exfalso. apply G. auto.
Qed.

Lemma normalize_again_witness :
  NormalizePatentNumber "11,646,472"
  = Ok (mkPatentNumber "11,646,472" "11646472" EmptyString
          PatentNumberTypeGrant "US") /\
  NormalizePatentNumber "11646472"
  = Ok (mkPatentNumber "11646472" "11646472" "11646472"
          PatentNumberTypeApplication "US").
Proof.
  split; [reflexivity|].
  destruct (normalize_again "11,646,472" _ eq_refl) as [H _].
  apply H. split; reflexivity.
Defined.

(** ** Slices *)

Lemma take_drop (n : nat) (s : string) : take n s ++ drop n s = s.
Proof.
  revert s. induction n as [|n IH]; intros [|a s]; simpl; try reflexivity.
  now rewrite IH.
Qed.

Lemma drop_drop (a b : nat) (s : string) : drop a (drop b s) = drop (b + a) s.
Proof.
  revert s. induction b as [|b IH]; intros s; simpl; [reflexivity|].
  destruct s as [|x s]; [destruct a; reflexivity | apply IH].
Qed.

Lemma len_take (n : nat) (s : string) : n <= len s -> len (take n s) = n.
Proof.
  unfold len. revert s. induction n as [|n IH]; intros [|a s] H; simpl in *;
    try reflexivity; try lia.
  rewrite IH; lia.
Qed.

Lemma len_drop (n : nat) (s : string) : len (drop n s) = len s - n.
Proof.
  unfold len. revert s. induction n as [|n IH]; intros [|a s]; simpl;
    try reflexivity; try lia. apply IH.
Qed.

Lemma all_take p (n : nat) (s : string) :
  all p s = true -> all p (take n s) = true.
Proof.
  revert s. induction n as [|n IH]; intros [|a s]; simpl; try reflexivity.
  intros H. apply andb_true_iff in H as [Ha Hs]. now rewrite Ha, IH.
Qed.

Lemma all_drop p (n : nat) (s : string) :
  all p s = true -> all p (drop n s) = true.
Proof.
  revert s. induction n as [|n IH]; intros [|a s]; simpl; try reflexivity;
    try (intros H; exact H).
  intros H. apply andb_true_iff in H as [Ha Hs]. now apply IH.
Qed.

Lemma len_not_empty (s : string) : 0 < len s -> s <> EmptyString.
Proof. destruct s; simpl; [lia | discriminate]. Qed.

Lemma three_slices (a b ab : nat) (s : string) :
  ab = a + b -> take a s ++ take b (drop a s) ++ drop ab s = s.
Proof.
  intros ->. rewrite <- drop_drop, take_drop. apply take_drop.
Qed.

(** ** The formatters *)

(** X6: the formatters only insert punctuation: the digits of the formatted
    number are the normalised number, whatever its type and length. *)
Theorem format_keeps_digits (pn : PatentNumber) :
  all digit (Normalized pn) = true ->
  digitsOf (FormatAsApplication pn) = Normalized pn /\
  digitsOf (FormatAsGrant pn) = Normalized pn /\
  digitsOf (FormatAsPublication pn) = Normalized pn.
Proof.
  intros D. set (n := Normalized pn) in *.
  assert (E : digitsOf n = n) by now apply digitsOf_digits.
  assert (T : forall a, digitsOf (take a n) = take a n)
    by (intros; now apply digitsOf_digits, all_take).
  assert (R : forall a, digitsOf (drop a n) = drop a n)
    by (intros; now apply digitsOf_digits, all_drop).
  assert (TD : forall a b, digitsOf (take a (drop b n)) = take a (drop b n))
    by (intros; now apply digitsOf_digits, all_take, all_drop).
  unfold FormatAsApplication, FormatAsGrant, FormatAsPublication. fold n.
  repeat split.
  - destruct (negb _); [assumption|]. destruct (8 <=? len n)%nat;
      [|assumption].
    rewrite !digitsOf_append, T, TD, R.
    change (digitsOf "/") with EmptyString.
    change (digitsOf ",") with EmptyString. cbn [append].
    now apply three_slices.
  - destruct (negb _); [assumption|].
    destruct (len n =? 7)%nat; [|destruct (len n =? 8)%nat; [|assumption]];
      rewrite !digitsOf_append, T, TD, R;
      change (digitsOf ",") with EmptyString; cbn [append];
      now apply three_slices.
  - destruct (negb _); [assumption|].
    destruct (len n =? 11)%nat; [|assumption].
    rewrite !digitsOf_append, T, R.
    change (digitsOf "/") with EmptyString. cbn [append]. apply take_drop.
Qed.

Lemma format_keeps_digits_witness :
  digitsOf
    (FormatAsApplication
       (mkPatentNumber "123456789" "123456789" "123456789"
          PatentNumberTypeApplication "US")) = "123456789" /\
  FormatAsApplication
    (mkPatentNumber "123456789" "123456789" "123456789"
       PatentNumberTypeApplication "US") = "12/345,6789".
Proof.
  split; [|reflexivity].
  apply (format_keeps_digits
           (mkPatentNumber "123456789" "123456789" "123456789"
              PatentNumberTypeApplication "US")). reflexivity.
Defined.

(** ** Normalising a formatted number *)

Lemma trimmed_digit_ends (g mid h : string) :
  all digit g = true -> g <> EmptyString ->
  all digit h = true -> h <> EmptyString ->
  trimmed (g ++ mid ++ h).
Proof.
  intros Dg Hg Dh Hh. split.
  - destruct g as [|a g]; [congruence|]. simpl in Dg.
    apply andb_true_iff in Dg as [Ha _]. simpl.
    apply starts_low;
      auto using isSpace2_high, isSpace3_high, digit_not_space1, digit_low.
  - rewrite !rev_append. rewrite <- all_rev in Dh.
    destruct (rev h) as [|a t] eqn:E.
    + apply rev_empty in E. congruence.
    + simpl in Dh. apply andb_true_iff in Dh as [Ha _]. simpl.
      apply starts_low;
        auto using isSpace2Rev_high, isSpace3Rev_high, digit_not_space1,
          digit_low.
Qed.

Lemma kind_none (s : string) :
  all notUpper s = true -> FindStringSubmatch grantWithKindPattern s = None.
Proof.
  intros H. destruct (FindStringSubmatch _ s) as [m|] eqn:E; [|reflexivity].
  apply grantWithKind_facts in E as [_ E]. congruence.
Qed.

Lemma slash_none_by_char (s : string) :
  all notSlash s = true ->
  FindStringSubmatch applicationWithSlashPattern s = None.
Proof.
  intros H. destruct (FindStringSubmatch _ s) as [m|] eqn:E; [|reflexivity].
  apply applicationWithSlash_facts in E as [_ E]. congruence.
Qed.

Lemma slash_none_by_count (s : string) :
  len (digitsOf s) <> 8 ->
  FindStringSubmatch applicationWithSlashPattern s = None.
Proof.
  intros H. destruct (FindStringSubmatch _ s) as [m|] eqn:E; [|reflexivity].
  pose proof (applicationWithSlash_sound _ _ E) as (_ & N & _).
  apply applicationWithSlash_facts in E as [E _]. rewrite E in H. lia.
Qed.

Lemma comma_none_by_count (s : string) :
  len (digitsOf s) <> 7 -> len (digitsOf s) <> 8 ->
  FindStringSubmatch grantWithCommaPattern s = None.
Proof.
  intros H7 H8.
  destruct (FindStringSubmatch _ s) as [m|] eqn:E; [|reflexivity].
  pose proof (grantWithComma_sound _ _ E) as (_ & N & _).
  apply grantWithComma_facts in E. rewrite E in H7, H8. lia.
Qed.

Lemma publication_none_by_count (s : string) :
  len (digitsOf s) <> 11 -> len (digitsOf s) <> 12 ->
  FindStringSubmatch publicationPattern s = None.
Proof.
  intros H11 H12.
  destruct (FindStringSubmatch _ s) as [m|] eqn:E; [|reflexivity].
  pose proof (publication_sound _ _ E) as (_ & N & _).
  apply publication_facts in E as [E | (d & _ & E)]; rewrite E in H11, H12.
  - lia.
  - unfold len in *. rewrite length_append_s in H12. simpl in H12. lia.
Qed.

Ltac all_parts :=
  rewrite ?all_append;
  repeat match goal with
    | H : all digit ?w = true |- context [all notUpper ?w] =>
        rewrite (all_impl digit notUpper w digit_notUpper H)
    | H : all digit ?w = true |- context [all notSlash ?w] =>
        rewrite (all_impl digit notSlash w digit_notSlash H)
    end;
  reflexivity.

Ltac digit_parts :=
  rewrite ?digitsOf_append;
  repeat match goal with
    | H : all digit ?w = true |- context [digitsOf ?w] =>
        rewrite (digitsOf_digits w H)
    end;
  change (digitsOf "/") with EmptyString;
  change (digitsOf ",") with EmptyString; cbn [append].

Lemma lit1_lang (a : ascii) (c : captures) :
  lang (lit (String a EmptyString)) (String a EmptyString) c c.
Proof. simpl. exists a. rewrite Ascii.eqb_refl. auto. Qed.

(** A Grant number with its commas is accepted as it is. *)
Lemma normalize_comma_form (g1 g2 g3 : string) :
  all digit g1 = true -> len g1 = 1 \/ len g1 = 2 ->
  all digit g2 = true -> len g2 = 3 ->
  all digit g3 = true -> len g3 = 3 ->
  NormalizePatentNumber (g1 ++ "," ++ g2 ++ "," ++ g3)
  = Ok (mkPatentNumber (g1 ++ "," ++ g2 ++ "," ++ g3) (g1 ++ g2 ++ g3)
          EmptyString PatentNumberTypeGrant "US").
Proof.
  intros D1 N1 D2 N2 D3 N3.
  assert (H1 : g1 <> EmptyString) by (apply len_not_empty; lia).
  assert (H3 : g3 <> EmptyString) by (apply len_not_empty; lia).
  set (s := g1 ++ "," ++ g2 ++ "," ++ g3).
  assert (Hs : isEmpty s = false).
  { apply isEmpty_false. intros E. apply append_eq_empty in E. tauto. }
  assert (Ht : TrimSpace s = s).
  { apply TrimSpace_id. unfold s.
    rewrite <- (append_assoc_s "," g2), <- (append_assoc_s ("," ++ g2)).
    now apply trimmed_digit_ends. }
  unfold NormalizePatentNumber. rewrite Hs, Ht.
  rewrite kind_none by (unfold s; all_parts).
  rewrite slash_none_by_char by (unfold s; all_parts).
  destruct (FindStringSubmatch grantWithCommaPattern s) as [m|] eqn:E.
  - apply grantWithComma_facts in E.
    unfold setNormalized, setType, setApplicationNo. simpl.
    rewrite <- E. unfold s. digit_parts. reflexivity.
  - exfalso. revert E.
    apply (FindStringSubmatch_complete _ _
             (set 3 g3 (set 2 g2 (set 1 g1 noCaptures)))).
    unfold grantWithCommaPattern.
    exists EmptyString, s, noCaptures.
    split; [reflexivity|]. split; [left; auto|].
    exists EmptyString, s, noCaptures.
    split; [reflexivity|]. split; [simpl; auto|].
    eapply lang_cat_intro;
      [apply lang_group_intro, lang_rep12_intro; assumption|].
    eapply lang_cat_intro; [apply lit1_lang|].
    eapply lang_cat_intro;
      [apply lang_group_intro, lang_rep_intro; assumption|].
    eapply lang_cat_intro; [apply lit1_lang|].
    apply lang_group_intro, lang_rep_intro; assumption.
Qed.

(** An application number with slash and comma is accepted as it is. *)
Lemma normalize_slash_form (g1 g2 g3 : string) :
  all digit g1 = true -> len g1 = 2 ->
  all digit g2 = true -> len g2 = 3 ->
  all digit g3 = true -> len g3 = 3 ->
  NormalizePatentNumber (g1 ++ "/" ++ g2 ++ "," ++ g3)
  = Ok (mkPatentNumber (g1 ++ "/" ++ g2 ++ "," ++ g3) (g1 ++ g2 ++ g3)
          (g1 ++ g2 ++ g3) PatentNumberTypeApplication "US").
Proof.
  intros D1 N1 D2 N2 D3 N3.
  assert (H1 : g1 <> EmptyString) by (apply len_not_empty; lia).
  assert (H3 : g3 <> EmptyString) by (apply len_not_empty; lia).
  set (s := g1 ++ "/" ++ g2 ++ "," ++ g3).
  assert (Hs : isEmpty s = false).
  { apply isEmpty_false. intros E. apply append_eq_empty in E. tauto. }
  assert (Ht : TrimSpace s = s).
  { apply TrimSpace_id. unfold s.
    rewrite <- (append_assoc_s "/" g2), <- (append_assoc_s ("/" ++ g2)).
    now apply trimmed_digit_ends. }
  unfold NormalizePatentNumber. rewrite Hs, Ht.
  rewrite kind_none by (unfold s; all_parts).
  destruct (FindStringSubmatch applicationWithSlashPattern s) as [m|] eqn:E.
  - apply applicationWithSlash_facts in E as [E _].
    unfold setNormalized, setType, setApplicationNo. simpl.
    rewrite <- E. unfold s. digit_parts. reflexivity.
  - exfalso. revert E.
    apply (FindStringSubmatch_complete _ _
             (set 3 g3 (set 2 g2 (set 1 g1 noCaptures)))).
    unfold applicationWithSlashPattern.
    exists EmptyString, s, noCaptures.
    split; [reflexivity|]. split; [left; auto|].
    exists EmptyString, s, noCaptures.
    split; [reflexivity|]. split; [simpl; auto|].
    eapply lang_cat_intro;
      [apply lang_group_intro, lang_rep_intro; assumption|].
    eapply lang_cat_intro; [apply lit1_lang|].
    eapply lang_cat_intro;
      [apply lang_group_intro, lang_rep_intro; assumption|].
    exists ",", g3, (set 2 g2 (set 1 g1 noCaptures)).
    split; [reflexivity|]. split; [simpl; auto|].
    apply lang_group_intro, lang_rep_intro; assumption.
Qed.

(** A publication number with its slash is accepted as it is. *)
Lemma normalize_publication_form (g1 g2 : string) :
  all digit g1 = true -> len g1 = 4 ->
  all digit g2 = true -> len g2 = 7 ->
  NormalizePatentNumber (g1 ++ "/" ++ g2)
  = Ok (mkPatentNumber (g1 ++ "/" ++ g2) (g1 ++ g2) EmptyString
          PatentNumberTypePublication "US").
Proof.
  intros D1 N1 D2 N2.
  assert (H1 : g1 <> EmptyString) by (apply len_not_empty; lia).
  assert (H2 : g2 <> EmptyString) by (apply len_not_empty; lia).
  set (s := g1 ++ "/" ++ g2).
  assert (Hs : isEmpty s = false).
  { apply isEmpty_false. intros E. apply append_eq_empty in E. tauto. }
  assert (Ht : TrimSpace s = s).
  { apply TrimSpace_id. unfold s. now apply trimmed_digit_ends. }
  assert (Hd : digitsOf s = g1 ++ g2) by (unfold s; digit_parts; reflexivity).
  assert (Hl : len (digitsOf s) = 11).
  { rewrite Hd. unfold len in *. rewrite length_append_s. lia. }
  unfold NormalizePatentNumber. rewrite Hs, Ht.
  rewrite kind_none by (unfold s; all_parts).
  rewrite slash_none_by_count by lia.
  rewrite comma_none_by_count by lia.
  destruct (FindStringSubmatch publicationPattern s) as [m|] eqn:E.
  - pose proof (publication_sound _ _ E) as (_ & N & _).
    apply publication_facts in E as [E | (d & _ & E)].
    + unfold setNormalized, setType, setApplicationNo. simpl.
      now rewrite <- E, Hd.
    + exfalso. rewrite E in Hl. unfold len in *.
      rewrite length_append_s in Hl. simpl in Hl. lia.
  - exfalso. revert E.
    apply (FindStringSubmatch_complete _ _
             (set 2 g2 (set 1 g1 noCaptures))).
    unfold publicationPattern.
    exists EmptyString, s, noCaptures.
    split; [reflexivity|]. split; [left; auto|].
    exists EmptyString, s, noCaptures.
    split; [reflexivity|]. split; [simpl; auto|].
    eapply lang_cat_intro;
      [apply lang_group_intro, lang_rep_intro; assumption|].
    exists "/", g2, (set 1 g1 noCaptures).
    split; [reflexivity|]. split; [simpl; auto|].
    exists g2, EmptyString, (set 2 g2 (set 1 g1 noCaptures)).
    split; [now rewrite append_empty_r|].
    split; [apply lang_group_intro, lang_rep_intro; assumption|].
    left. auto.
Qed.

Ltac slices :=
  repeat first
    [ assumption
    | apply all_take | apply all_drop
    | rewrite len_drop
    | rewrite len_take; [|rewrite ?len_drop; lia]
    | lia ].

(** X7: formatting a normalised Grant number and normalising the result gives
    the Grant number back (with the formatted text as the original). *)
Theorem format_grant_roundtrip (input : string) (pn : PatentNumber) :
  NormalizePatentNumber input = Ok pn ->
  Type_ pn = PatentNumberTypeGrant ->
  NormalizePatentNumber (FormatAsGrant pn)
  = Ok (mkPatentNumber (FormatAsGrant pn) (Normalized pn) EmptyString
          PatentNumberTypeGrant "US").
Proof.
  intros H T. apply NormalizePatentNumber_Ok in H as (_ & _ & D & C).
  assert (L : len (Normalized pn) = 7 \/ len (Normalized pn) = 8).
  { unfold PatentNumberTypeGrant, PatentNumberTypeApplication,
      PatentNumberTypePublication in *.
    destruct C as [C | [C | C]]; [tauto| |]; destruct C as [C _]; lia. }
  unfold FormatAsGrant. rewrite T, Z.eqb_refl. simpl negb. cbv iota.
  set (n := Normalized pn) in *.
  destruct L as [L | L]; rewrite L; simpl Nat.eqb; cbv iota;
    (rewrite normalize_comma_form; [now rewrite three_slices | ..]);
    slices.
Qed.

Lemma format_grant_roundtrip_witness :
  let pn := mkPatentNumber "US 9,123,456 B1" "9123456" EmptyString
              PatentNumberTypeGrant "US" in
  NormalizePatentNumber "US 9,123,456 B1" = Ok pn /\
  FormatAsGrant pn = "9,123,456" /\
  NormalizePatentNumber "9,123,456"
  = Ok (mkPatentNumber "9,123,456" "9123456" EmptyString
          PatentNumberTypeGrant "US").
Proof.
  intros pn. split; [reflexivity|]. split; [reflexivity|].
  exact (format_grant_roundtrip "US 9,123,456 B1" pn eq_refl eq_refl).
Defined.

(** X8: formatting a normalised Publication number and normalising the
    result gives the Publication number back (with the formatted text as
    the original). *)
Theorem format_publication_roundtrip (input : string) (pn : PatentNumber) :
  NormalizePatentNumber input = Ok pn ->
  Type_ pn = PatentNumberTypePublication ->
  NormalizePatentNumber (FormatAsPublication pn)
  = Ok (mkPatentNumber (FormatAsPublication pn) (Normalized pn) EmptyString
          PatentNumberTypePublication "US").
Proof.
  intros H T. apply NormalizePatentNumber_Ok in H as (_ & _ & D & C).
  assert (L : len (Normalized pn) = 11).
  { unfold PatentNumberTypeGrant, PatentNumberTypeApplication,
      PatentNumberTypePublication in *.
    destruct C as [C | [C | C]]; [| |tauto]; destruct C as [C _]; lia. }
  unfold FormatAsPublication. rewrite T, Z.eqb_refl. simpl negb. cbv iota.
  set (n := Normalized pn) in *. rewrite L. simpl Nat.eqb. cbv iota.
  rewrite normalize_publication_form; [now rewrite take_drop | ..]; slices.
Qed.

Lemma format_publication_roundtrip_witness :
  let pn := mkPatentNumber "US20250087686A1" "20250087686" EmptyString
              PatentNumberTypePublication "US" in
  NormalizePatentNumber "US20250087686A1" = Ok pn /\
  FormatAsPublication pn = "2025/0087686" /\
  NormalizePatentNumber "2025/0087686"
  = Ok (mkPatentNumber "2025/0087686" "20250087686" EmptyString
          PatentNumberTypePublication "US").
Proof.
  intros pn. split; [reflexivity|]. split; [reflexivity|].
  exact (format_publication_roundtrip "US20250087686A1" pn eq_refl eq_refl).
Defined.

(** X9: for an Application number the round trip holds with 8 digits; with 9
    digits the formatted number ends in four digits, which no pattern
    accepts, and normalising it fails. *)
Theorem format_application_roundtrip (input : string) (pn : PatentNumber) :
  NormalizePatentNumber input = Ok pn ->
  Type_ pn = PatentNumberTypeApplication ->
  (len (Normalized pn) = 8 ->
   NormalizePatentNumber (FormatAsApplication pn)
   = Ok (mkPatentNumber (FormatAsApplication pn) (Normalized pn)
           (Normalized pn) PatentNumberTypeApplication "US")) /\
  (len (Normalized pn) = 9 ->
   NormalizePatentNumber (FormatAsApplication pn)
   = Err (ErrUnrecognizedFormat (FormatAsApplication pn))).
Proof.
  intros H T. apply NormalizePatentNumber_Ok in H as (_ & _ & D & _).
  unfold FormatAsApplication. rewrite T, Z.eqb_refl. simpl negb. cbv iota.
  set (n := Normalized pn) in *. split; intros L; rewrite L;
    simpl Nat.leb; cbv iota.
  - rewrite normalize_slash_form; [now rewrite three_slices | ..]; slices.
  - set (g1 := take 2 n). set (g2 := take 3 (drop 2 n)). set (g3 := drop 5 n).
    assert (D1 : all digit g1 = true) by now apply all_take.
    assert (D2 : all digit g2 = true) by now apply all_take, all_drop.
    assert (D3 : all digit g3 = true) by now apply all_drop.
    assert (N1 : len g1 = 2) by (apply len_take; lia).
    assert (N3 : len g3 = 4) by (unfold g3; rewrite len_drop; lia).
    assert (H1 : g1 <> EmptyString) by (apply len_not_empty; lia).
    assert (H3 : g3 <> EmptyString) by (apply len_not_empty; lia).
    set (s := g1 ++ "/" ++ g2 ++ "," ++ g3).
    assert (Hs : isEmpty s = false).
    { apply isEmpty_false. intros E. apply append_eq_empty in E. tauto. }
    assert (Ht : TrimSpace s = s).
    { apply TrimSpace_id. unfold s.
      rewrite <- (append_assoc_s "/" g2), <- (append_assoc_s ("/" ++ g2)).
      now apply trimmed_digit_ends. }
    assert (Hd : digitsOf s = n).
    { unfold s. digit_parts. now apply three_slices. }
    assert (Hl : len (digitsOf s) = 9) by now rewrite Hd.
    unfold NormalizePatentNumber. rewrite Hs, Ht.
    rewrite kind_none by (unfold s; all_parts).
    rewrite slash_none_by_count by lia.
    rewrite comma_none_by_count by lia.
    rewrite publication_none_by_count by lia.
    destruct (MatchString digitsOnlyPattern s) eqn:E; [|reflexivity].
    apply digitsOnly_sound in E as [E _]. unfold s in E.
    rewrite !all_append in E. simpl in E.
    rewrite andb_false_r in E. discriminate E.
Qed.

Lemma format_application_roundtrip_witness :
  let pn := mkPatentNumber "123456789" "123456789" "123456789"
              PatentNumberTypeApplication "US" in
  NormalizePatentNumber "123456789" = Ok pn /\
  FormatAsApplication pn = "12/345,6789" /\
  NormalizePatentNumber "12/345,6789"
  = Err (ErrUnrecognizedFormat "12/345,6789").
Proof.
  intros pn. split; [reflexivity|]. split; [reflexivity|].
  destruct (format_application_roundtrip "123456789" pn eq_refl eq_refl)
    as [_ H].
  exact (H eq_refl).
Defined.

(** ** More on the resolver *)

(** X11: no search is made for an application number, which resolves to its
    digits, nor for an input that does not normalise, whose error is
    wrapped. *)
Theorem resolve_without_search (config : Transport.Config)
    (c : Client.SearchCapability)
    (input : string) (h : list Client.SearchCall) :
  (forall pn,
      NormalizePatentNumber input = Ok pn ->
      Type_ pn = PatentNumberTypeApplication ->
      Client.ResolvePatentNumber config c input h
      = (Client.Returns (Ok (Normalized pn)), h)) /\
  (forall e,
      NormalizePatentNumber input = Err e ->
      Client.ResolvePatentNumber config c input h
      = (Client.Returns (Err (ErrInvalidPatentNumber e)), h)).
Proof.
  unfold Client.ResolvePatentNumber. split.
  - intros pn HN HT. rewrite HN, HT.
    apply NormalizePatentNumber_Ok in HN as (_ & _ & _ & C).
    unfold PatentNumberTypeGrant, PatentNumberTypeApplication,
      PatentNumberTypePublication in *.
    destruct C as [(T & _) | [(_ & A & L) | (T & _)]]; try congruence.
    unfold ToApplicationNumber. rewrite A.
    destruct (Normalized pn); [|reflexivity].
    simpl in L. lia.
  - intros e HN. rewrite HN. reflexivity.
Qed.

Lemma resolve_without_search_witness :
  Client.ResolvePatentNumber Transport.DefaultConfig Client.serverDown
    "US 17/248,024" []
  = (Client.Returns (Ok "17248024"), []) /\
  Client.ResolvePatentNumber Transport.DefaultConfig Client.serverDown
    "17-248-024" []
  = (Client.Returns
       (Err (ErrInvalidPatentNumber (ErrUnrecognizedFormat "17-248-024"))),
     []).
Proof.
  destruct (resolve_without_search Transport.DefaultConfig
              Client.serverDown "US 17/248,024" [])
    as [H1 _].
  destruct (resolve_without_search Transport.DefaultConfig
              Client.serverDown "17-248-024" [])
    as [_ H2].
  split.
  - exact (H1 (mkPatentNumber "US 17/248,024" "17248024" "17248024"
                 PatentNumberTypeApplication "US") eq_refl eq_refl).
  - exact (H2 _ eq_refl).
Defined.

(** X12: a resolution makes at most one search, for one result from offset 0,
    and never ends in the error of an unknown type of number. *)
Theorem resolve_at_most_one_search (config : Transport.Config)
    (c : Client.SearchCapability)
    (input : string) (h : list Client.SearchCall) :
  (snd (Client.ResolvePatentNumber config c input h) = h \/
   exists q,
     snd (Client.ResolvePatentNumber config c input h)
     = (h ++ [Client.mkSearchCall q 0 1])%list) /\
  fst (Client.ResolvePatentNumber config c input h)
  <> Client.Returns (Err ErrUnknownPatentNumberType).
Proof.
  unfold Client.ResolvePatentNumber.
  destruct (NormalizePatentNumber input) as [pn|e] eqn:HN.
  2:{ simpl. split; [auto | discriminate]. }
  pose proof (NormalizePatentNumber_Ok _ _ HN) as (_ & _ & _ & C).
  destruct C as [(T & _ & L) | [(T & _ & _) | (T & _ & L)]]; rewrite T.
  - rewrite Z.eqb_refl, resolveGrant_run. simpl. split; [eauto|].
    destruct (Client.searchResult config c h _)
      as [[[[[|[[a|]] l]|]]|]|e]; discriminate.
  - change (PatentNumberTypeApplication =? PatentNumberTypeGrant)%Z
      with false.
    change (PatentNumberTypeApplication =? PatentNumberTypePublication)%Z
      with false.
    rewrite Z.eqb_refl. simpl. split; [auto | discriminate].
  - change (PatentNumberTypePublication =? PatentNumberTypeGrant)%Z
      with false.
    rewrite Z.eqb_refl, resolvePublication_run.
    cbv zeta. cbn [fst snd]. split; [eauto|].
    match goal with |- context [Client.searchResult config c h ?x] =>
      destruct (Client.searchResult config c h x)
        as [[[[[|[[a|]] l]|]]|]|e] end; discriminate.
Qed.

(** ** Retries *)

Section RetryFacts.
Import Transport.

Variable St : Type.
Variable c : Config.
Variable fn : St -> option requestError * St.

Lemma stateAfter_shift (k : nat) (st : St) :
  stateAfter St fn k (snd (fn st)) = stateAfter St fn (S k) st.
Proof.
  induction k as [|k IH]; [reflexivity|].
  simpl in *. now rewrite IH.
Qed.

Lemma outcome_shift (k : nat) (st : St) :
  outcome St fn k (snd (fn st)) = outcome St fn (S k) st.
Proof. unfold outcome. now rewrite stateAfter_shift. Qed.

Lemma retryLoop_succeeds :
  forall k remaining attempt lastErr st,
    k < remaining ->
    (attempt + Z.of_nat k <= MaxRetries c)%Z ->
    (forall j, j < k -> outcome St fn j st <> None) ->
    outcome St fn k st = None ->
    retryLoop St c fn remaining attempt lastErr st
    = (None, stateAfter St fn (S k) st,
       (failedAttempts c k attempt ++ [Called])%list).
Proof.
  induction k as [|k IH]; intros remaining attempt lastErr st Hr Ha Hf Hk;
    (destruct remaining as [|remaining]; [lia|]); simpl retryLoop.
  - unfold outcome in Hk. simpl in Hk.
    destruct (fn st) as [err st1] eqn:E. simpl in *. subst err.
    now rewrite E.
  - pose proof (Hf 0 ltac:(lia)) as H0. unfold outcome in H0. simpl in H0.
    destruct (fn st) as [err st1] eqn:E. simpl in H0.
    destruct err as [e|]; [|congruence].
    assert (Hlt : (attempt <? MaxRetries c)%Z = true)
      by (apply Z.ltb_lt; lia).
    rewrite Hlt.
    assert (S1 : st1 = snd (fn st)) by now rewrite E.
    rewrite (IH remaining (attempt + 1)%Z (Some e) st1).
    + subst st1. rewrite stateAfter_shift. reflexivity.
    + lia.
    + lia.
    + intros j Hj. subst st1. rewrite outcome_shift. apply Hf. lia.
    + subst st1. rewrite outcome_shift. exact Hk.
Qed.

Lemma retryLoop_fails :
  forall remaining attempt lastErr st,
    (attempt + Z.of_nat remaining = MaxRetries c + 1)%Z ->
    (forall j, j < remaining -> outcome St fn j st <> None) ->
    retryLoop St c fn remaining attempt lastErr st
    = (Some (ErrFailedAfterRetries (MaxRetries c)
               match remaining with
               | O => lastErr
               | S r => outcome St fn r st
               end),
       stateAfter St fn remaining st,
       match remaining with
       | O => []
       | S r => (failedAttempts c r attempt ++ [Called])%list
       end).
Proof.
  induction remaining as [|r IH]; intros attempt lastErr st Ha Hf;
    [reflexivity|].
  simpl retryLoop.
  pose proof (Hf 0 ltac:(lia)) as H0. unfold outcome in H0. simpl in H0.
  destruct (fn st) as [err st1] eqn:E. simpl in H0.
  destruct err as [e|]; [|congruence].
  assert (S1 : st1 = snd (fn st)) by now rewrite E.
  rewrite (IH (attempt + 1)%Z (Some e) st1).
  - subst st1. rewrite stateAfter_shift. destruct r as [|r].
    + assert (Hlt : (attempt <? MaxRetries c)%Z = false)
        by (apply Z.ltb_ge; lia).
      rewrite Hlt. unfold outcome. simpl. now rewrite E.
    + assert (Hlt : (attempt <? MaxRetries c)%Z = true)
        by (apply Z.ltb_lt; lia).
      rewrite Hlt, outcome_shift. reflexivity.
  - lia.
  - intros j Hj. subst st1. rewrite outcome_shift. apply Hf. lia.
Qed.

(** X13: when the calls of [fn] fail [k] times and then succeed, [k] being at
    most [MaxRetries], the request succeeds after [k + 1] calls, having
    slept after each failure: [RetryDelay] seconds times the number of
    the attempt. *)
Theorem retry_succeeds (k : nat) (st : St) :
  (Z.of_nat k <= MaxRetries c)%Z ->
  (forall j, j < k -> outcome St fn j st <> None) ->
  outcome St fn k st = None ->
  retryableRequest St c fn st
  = (None, stateAfter St fn (S k) st,
     (failedAttempts c k 0 ++ [Called])%list).
Proof.
  intros Hk Hf Ho. unfold retryableRequest.
  apply retryLoop_succeeds; auto; lia.
Qed.

(** X14: when [MaxRetries] is not negative and the first [MaxRetries + 1]
    calls of [fn] all fail, the request fails after exactly these calls,
    with the error of the last one wrapped, and does not sleep after the
    last attempt. *)
Theorem retry_exhausted (st : St) :
  (0 <= MaxRetries c)%Z ->
  (forall j, j <= Z.to_nat (MaxRetries c) -> outcome St fn j st <> None) ->
  retryableRequest St c fn st
  = (Some (ErrFailedAfterRetries (MaxRetries c)
             (outcome St fn (Z.to_nat (MaxRetries c)) st)),
     stateAfter St fn (S (Z.to_nat (MaxRetries c))) st,
     (failedAttempts c (Z.to_nat (MaxRetries c)) 0 ++ [Called])%list).
Proof.
  intros Hm Hf. unfold retryableRequest.
  replace (Z.to_nat (MaxRetries c + 1)) with (S (Z.to_nat (MaxRetries c)))
    by lia.
  rewrite retryLoop_fails; [reflexivity | lia |].
  intros j Hj. apply Hf. lia.
Qed.

(** X15: with a negative [MaxRetries] the request fails without a single call
    of [fn]; the error wraps no error. *)
Theorem retry_negative (st : St) :
  (MaxRetries c < 0)%Z ->
  retryableRequest St c fn st
  = (Some (ErrFailedAfterRetries (MaxRetries c) None), st, []).
Proof.
  intros Hm. unfold retryableRequest.
  replace (Z.to_nat (MaxRetries c + 1)) with 0 by lia. reflexivity.
Qed.

End RetryFacts.

Lemma retry_succeeds_witness :
  let fn := fun k : nat =>
    (if (k <? 2)%nat then Some (Transport.ErrTransport "connection reset")
     else None, S k) in
  Transport.retryableRequest nat Transport.DefaultConfig fn 0
  = (None, 3,
     [Transport.Called; Transport.Slept 1000000000;
      Transport.Called; Transport.Slept 2000000000; Transport.Called]).
Proof.
  intros fn.
  rewrite (retry_succeeds nat Transport.DefaultConfig fn 2 0).
  - reflexivity.
  - simpl. lia.
  - intros j Hj. destruct j as [|[|j]]; [discriminate | discriminate | lia].
  - reflexivity.
Defined.

Lemma retry_exhausted_witness :
  let fn := fun k : nat => (Some (Transport.ErrAPIStatus 503), S k) in
  Transport.retryableRequest nat Transport.DefaultConfig fn 0
  = (Some (Transport.ErrFailedAfterRetries 3
             (Some (Transport.ErrAPIStatus 503))), 4,
     [Transport.Called; Transport.Slept 1000000000;
      Transport.Called; Transport.Slept 2000000000;
      Transport.Called; Transport.Slept 3000000000; Transport.Called]).
Proof.
  intros fn.
  rewrite (retry_exhausted nat Transport.DefaultConfig fn 0).
  - reflexivity.
  - simpl. lia.
  - intros j _. discriminate.
Defined.

Lemma retry_negative_witness :
  let c := Transport.mkConfig "https://api.uspto.gov" EmptyString
             "PatentDev/1.0" (-1) 1 30 in
  Transport.retryableRequest nat c (fun k => (None, S k)) 0
  = (Some (Transport.ErrFailedAfterRetries (-1) None), 0, []) /\
  Transport.requestErrorMessage (Transport.ErrFailedAfterRetries (-1) None)
  = "failed after -1 retries: %!w(<nil>)".
Proof.
  intros c. split; [|reflexivity].
  apply (retry_negative nat c (fun k => (None, S k)) 0). simpl. lia.
Defined.

(** ** The cost of giving up, and the endpoint functions *)

Section EndpointFacts.
Import Transport.

Lemma wrap64_small (z : Z) :
  (- 2 ^ 63 <= z < 2 ^ 63)%Z -> wrap64 z = z.
Proof.
  intros H. unfold wrap64. rewrite Z.mod_small; lia.
Qed.

Lemma countCalled_failedAttempts (c : Config) :
  forall k attempt,
    countCalled (failedAttempts c k attempt ++ [Called]) = S k.
Proof.
  unfold countCalled.
  induction k as [|k IH]; intros attempt; simpl; [reflexivity|].
  now rewrite IH.
Qed.

Lemma sleptTotal_failedAttempts (c : Config) :
  (0 <= RetryDelay c)%Z ->
  forall k attempt,
    (0 <= attempt)%Z ->
    (RetryDelay c * (attempt + Z.of_nat k) * 1000000000 < 2 ^ 63)%Z ->
    (2 * sleptTotal (failedAttempts c k attempt ++ [Called])
     = 1000000000 * RetryDelay c * Z.of_nat k
         * (2 * attempt + Z.of_nat k + 1))%Z.
Proof.
  intros Hd. induction k as [|k IH]; intros attempt Ha Hb.
  - simpl. lia.
  - cbn [failedAttempts app sleptTotal fold_right].
    fold (sleptTotal (failedAttempts c k (attempt + 1) ++ [Called])).
    assert (B1 : (0 <= RetryDelay c * (attempt + 1)
                  <= RetryDelay c * (attempt + Z.of_nat (S k)))%Z) by nia.
    assert (B2 : (RetryDelay c * (attempt + 1) * 1000000000 < 2 ^ 63)%Z)
      by lia.
    unfold secondsDuration.
    rewrite !(wrap64_small (RetryDelay c * (attempt + 1))) by lia.
    rewrite wrap64_small by lia.
    specialize (IH (attempt + 1)%Z ltac:(lia)).
    rewrite Z.mul_add_distr_l, IH; [nia|].
    replace (attempt + 1 + Z.of_nat k)%Z with (attempt + Z.of_nat (S k))%Z
      by lia.
    exact Hb.
Qed.

(** X16: a request that fails at every attempt costs [MaxRetries + 1] calls
    and, in all, [RetryDelay] times 1 + 2 + ... + [MaxRetries] seconds of
    sleep (as long as the durations fit in 64 bits). *)
Theorem retry_exhausted_cost (St : Type) (c : Config)
    (fn : St -> option requestError * St) (st : St) :
  (0 <= MaxRetries c)%Z -> (0 <= RetryDelay c)%Z ->
  (RetryDelay c * MaxRetries c * 1000000000 < 2 ^ 63)%Z ->
  (forall j, j <= Z.to_nat (MaxRetries c) -> outcome St fn j st <> None) ->
  let events := snd (retryableRequest St c fn st) in
  countCalled events = S (Z.to_nat (MaxRetries c)) /\
  (2 * sleptTotal events
   = 1000000000 * RetryDelay c * MaxRetries c * (MaxRetries c + 1))%Z.
Proof.
  intros Hm Hd Hb Hf. unfold retryableRequest.
  replace (Z.to_nat (MaxRetries c + 1)) with (S (Z.to_nat (MaxRetries c)))
    by lia.
  rewrite retryLoop_fails;
    [| lia | intros j Hj; apply Hf; lia].
  cbn [snd].
  split; [apply countCalled_failedAttempts|].
  rewrite sleptTotal_failedAttempts; lia.
Qed.

Variable A : Type.
Variable c : Config.
Variable send : nat -> requestError + Response A.

Lemma endpoint_stateAfter (k : nat) :
  stateAfter _ (endpointFn A send) k (0, None)
  = (k, match k with
        | O => None
        | S j => match send j with inl _ => None | inr r => Some r end
        end).
Proof.
  induction k as [|k IH]; [reflexivity|].
  simpl stateAfter. rewrite IH. unfold endpointFn.
  destruct (send k) as [e|r]; [reflexivity|].
  destruct (negb _); reflexivity.
Qed.

Lemma endpoint_outcome (k : nat) :
  outcome _ (endpointFn A send) k (0, None) = attemptError (send k).
Proof.
  unfold outcome. rewrite endpoint_stateAfter. unfold endpointFn, attemptError.
  destruct (send k) as [e|r]; [reflexivity|].
  destruct (StatusCode r =? 200)%Z; reflexivity.
Qed.

(** X17: an endpoint function returns the decoded body of the first response
    of status 200, when this is among the first [MaxRetries + 1] answers;
    every answer before it, an error or a response of another status, 4xx
    included, is retried. *)
Theorem endpoint_first_ok (k : nat) (resp : Response A) :
  (Z.of_nat k <= MaxRetries c)%Z ->
  (forall j, j < k -> attemptError (send j) <> None) ->
  send k = inr resp -> StatusCode resp = 200%Z ->
  endpointRequest A c send
  = (inr (JSON200 resp), S k, (failedAttempts c k 0 ++ [Called])%list).
Proof.
  intros Hk Hf Hs H200. unfold endpointRequest, retryableRequest.
  rewrite (retryLoop_succeeds _ c (endpointFn A send) k).
  - rewrite endpoint_stateAfter, Hs. reflexivity.
  - lia.
  - lia.
  - intros j Hj. rewrite endpoint_outcome. now apply Hf.
  - rewrite endpoint_outcome, Hs. simpl. now rewrite H200.
Qed.

(** X18: when none of the first [MaxRetries + 1] answers is a response of
    status 200, the endpoint function fails after that many requests with
    the last error wrapped. *)
Theorem endpoint_never_ok :
  (0 <= MaxRetries c)%Z ->
  (forall j, j <= Z.to_nat (MaxRetries c) -> attemptError (send j) <> None) ->
  endpointRequest A c send
  = (inl (ErrFailedAfterRetries (MaxRetries c)
            (attemptError (send (Z.to_nat (MaxRetries c))))),
     S (Z.to_nat (MaxRetries c)),
     (failedAttempts c (Z.to_nat (MaxRetries c)) 0 ++ [Called])%list).
Proof.
  intros Hm Hf. unfold endpointRequest, retryableRequest.
  replace (Z.to_nat (MaxRetries c + 1)) with (S (Z.to_nat (MaxRetries c)))
    by lia.
  rewrite (retryLoop_fails _ c (endpointFn A send)).
  - rewrite endpoint_stateAfter, endpoint_outcome. reflexivity.
  - lia.
  - intros j Hj. rewrite endpoint_outcome. apply Hf. lia.
Qed.

End EndpointFacts.

Lemma retry_exhausted_cost_witness :
  let fn := fun k : nat => (Some (Transport.ErrAPIStatus 503), S k) in
  let events :=
    snd (Transport.retryableRequest nat Transport.DefaultConfig fn 0) in
  Transport.countCalled events = 4 /\
  Transport.sleptTotal events = 6000000000%Z.
Proof.
  intros fn events.
  destruct (retry_exhausted_cost nat Transport.DefaultConfig fn 0)
    as [H1 H2]; try (simpl; lia).
  - intros j _. discriminate.
  - split; [exact H1|].
    apply (Z.mul_reg_l _ _ 2); [lia | exact H2].
Defined.

Lemma endpoint_first_ok_witness :
  let send := fun k : nat =>
    match k with
    | O => inl (Transport.ErrTransport "connection reset")
    | 1 => inr (Transport.mkResponse 429 (@None string))
    | _ => inr (Transport.mkResponse 200 (Some "body"))
    end in
  Transport.endpointRequest string Transport.DefaultConfig send
  = (inr (Some "body"), 3,
     [Transport.Called; Transport.Slept 1000000000;
      Transport.Called; Transport.Slept 2000000000; Transport.Called]).
Proof.
  intros send.
  rewrite (endpoint_first_ok string Transport.DefaultConfig send 2
             (Transport.mkResponse 200 (Some "body"))).
  - reflexivity.
  - simpl. lia.
  - intros j Hj. destruct j as [|[|j]]; [discriminate | discriminate | lia].
  - reflexivity.
  - reflexivity.
Defined.

(** A status 404 at every attempt: four requests, and the message. *)
Lemma endpoint_never_ok_witness :
  let send := fun _ : nat =>
    @inr Transport.requestError _ (Transport.mkResponse 404 (@None string)) in
  Transport.endpointRequest string Transport.DefaultConfig send
  = (inl (Transport.ErrFailedAfterRetries 3
            (Some (Transport.ErrAPIStatus 404))), 4,
     [Transport.Called; Transport.Slept 1000000000;
      Transport.Called; Transport.Slept 2000000000;
      Transport.Called; Transport.Slept 3000000000; Transport.Called]) /\
  Transport.requestErrorMessage
    (Transport.ErrFailedAfterRetries 3 (Some (Transport.ErrAPIStatus 404)))
  = "failed after 3 retries: API returned status 404".
Proof.
  intros send. split; [|reflexivity].
  rewrite (endpoint_never_ok string Transport.DefaultConfig send).
  - reflexivity.
  - simpl. lia.
  - intros j _. discriminate.
Defined.

(** ** The method String *)

(** X10: the text of a normalised number names its type, one of the three and
    never the unknown one, between the input as given and the digits. *)
Theorem string_of_normalized (input : string) (pn : PatentNumber) :
  NormalizePatentNumber input = Ok pn ->
  exists t,
    ((Type_ pn = PatentNumberTypeApplication /\ t = "application") \/
     (Type_ pn = PatentNumberTypeGrant /\ t = "grant") \/
     (Type_ pn = PatentNumberTypePublication /\ t = "publication")) /\
    PatentNumber_String pn
    = input ++ " (" ++ t ++ ": " ++ Normalized pn ++ ")".
Proof.
  intros H. apply NormalizePatentNumber_Ok in H as (O & _ & _ & C).
  unfold PatentNumber_String. rewrite O.
  destruct C as [(T & _) | [(T & _) | (T & _)]]; rewrite T;
    [exists "grant" | exists "application" | exists "publication"];
    (split; [tauto | reflexivity]).
Qed.

Lemma string_of_normalized_witness :
  PatentNumber_String
    (mkPatentNumber "US 11,646,472 B2" "11646472" EmptyString
       PatentNumberTypeGrant "US")
  = "US 11,646,472 B2 (grant: 11646472)".
Proof.
  destruct (string_of_normalized "US 11,646,472 B2"
              (mkPatentNumber "US 11,646,472 B2" "11646472" EmptyString
                 PatentNumberTypeGrant "US") eq_refl)
    as (t & [[T ->] | [[T ->] | [T ->]]] & H);
    [discriminate T | exact H | discriminate T].
Defined.

(** ** The text of the abstract and of the description *)

Section TextFacts.
Import XML.

Lemma newline_low : (byte GoFmt.newline < 128)%N.
Proof. reflexivity. Qed.

(** Two fragments stay trimmed when joined by two bytes below 128. *)
Lemma trimmed_join2 (a b : string) (x y : ascii) :
  (byte x < 128)%N -> (byte y < 128)%N ->
  fragment a -> fragment b ->
  trimmed (a ++ String x (String y b)).
Proof.
  intros Hx Hy [Ha [A1 A2]] [Hb [B1 B2]]. split.
  - apply starts_append_low;
      auto using isSpace2_high, isSpace3_high.
  - rewrite rev_append. simpl. rewrite !append_assoc_s. simpl.
    apply starts_append_low;
      auto using isSpace2Rev_high, isSpace3Rev_high.
    intros E. apply Hb. now apply rev_empty.
Qed.

Lemma Join_blankLine_trimmed (l : list string) :
  Forall fragment l -> trimmed (Join l blankLine).
Proof.
  induction l as [|a l IH]; intros F.
  - split; reflexivity.
  - inversion F as [|? ? Fa F']; subst.
    destruct l as [|b l]; [apply Fa|].
    rewrite Join_cons by discriminate.
    change (a ++ blankLine ++ Join (b :: l) blankLine)
      with (a ++ String GoFmt.newline
                   (String GoFmt.newline (Join (b :: l) blankLine))).
    apply trimmed_join2; auto using newline_low.
    split; [apply Join_not_empty; [assumption | discriminate] | auto].
Qed.

Lemma trimmed_blocks (A : Type) (text : A -> string) (l : list A) :
  (forall x, In x l -> TrimSpace (text x) <> EmptyString) ->
  Forall fragment (map (fun x => TrimSpace (text x)) l).
Proof.
  intros H. apply Forall_forall. intros s Hs.
  apply in_map_iff in Hs as (x & <- & Hx).
  split; [now apply H | apply TrimSpace_trimmed].
Qed.

Lemma abstractLoop_next :
  forall l i builder,
    abstractLoop (S i) l builder
    = builder ++
      fold_right (fun y acc => blankLine ++ y ++ acc) EmptyString
        (map (fun p => TrimSpace (Paragraph_Text p)) l).
Proof.
  induction l as [|p l IH]; intros i builder; simpl.
  - now rewrite append_empty_r.
  - rewrite IH. unfold WriteString. now rewrite !append_assoc_s.
Qed.

Lemma abstractLoop_Join (l : list Paragraph) :
  abstractLoop 0 l newBuilder
  = Join (map (fun p => TrimSpace (Paragraph_Text p)) l) blankLine.
Proof.
  destruct l as [|p l]; [reflexivity|].
  cbn [abstractLoop map]. change (0 <? 0)%nat with false. cbv iota.
  rewrite abstractLoop_next, Join_fold. reflexivity.
Qed.

(** X19: the text of an abstract is its paragraphs, each trimmed, joined by
    blank lines, and the whole trimmed; when no paragraph is blank, the
    last trimming changes nothing.  No abstract gives the empty text. *)
Theorem abstract_text_blocks :
  ExtractAbstractText None = EmptyString /\
  (forall a : Abstract,
      ExtractAbstractText (Some a)
      = TrimSpace
          (Join (map (fun p => TrimSpace (Paragraph_Text p))
                   (Abstract_Paragraphs a)) blankLine)) /\
  (forall a : Abstract,
      (forall p, In p (Abstract_Paragraphs a) ->
                 TrimSpace (Paragraph_Text p) <> EmptyString) ->
      ExtractAbstractText (Some a)
      = Join (map (fun p => TrimSpace (Paragraph_Text p))
                (Abstract_Paragraphs a)) blankLine).
Proof.
  split; [reflexivity|]. split; intros a.
  - unfold ExtractAbstractText. now rewrite abstractLoop_Join.
  - intros H. unfold ExtractAbstractText. rewrite abstractLoop_Join.
    apply TrimSpace_id, Join_blankLine_trimmed, trimmed_blocks, H.
Qed.

(** X20: when no heading and no paragraph of a description is blank, its text
    is exactly the trimmed headings followed by the trimmed paragraphs,
    joined by blank lines. *)
Theorem description_text_exact (d : Description) :
  (forall h, In h (Headings d) ->
             TrimSpace (Heading_Text h) <> EmptyString) ->
  (forall p, In p (Paragraphs d) ->
             TrimSpace (Paragraph_Text p) <> EmptyString) ->
  ExtractDescriptionText (Some d)
  = Join (descriptionBlocks d) blankLine.
Proof.
  intros Hh Hp. rewrite ExtractDescriptionText_spec.
  apply TrimSpace_id, Join_blankLine_trimmed. unfold descriptionBlocks.
  apply Forall_app. split; apply trimmed_blocks; assumption.
Qed.

(** ** The list of the claim texts *)

Lemma ExtractClaimText_trimmed (c : Claim) :
  trimmed (ExtractClaimText (Some c)).
Proof.
  unfold ExtractClaimText. rewrite extractClaimTextRecursive_spec.
  apply Join_trimmed; [apply space_low | apply claimFragments_fragments].
Qed.

Lemma allClaims_fold :
  forall l result,
    fold_left
      (fun result claim =>
         let text := ExtractClaimText (Some claim) in
         if negb (isEmpty text) then (result ++ [text])%list else result)
      l result
    = (result
         ++ filter nonEmpty (map (fun c => ExtractClaimText (Some c)) l))%list.
Proof.
  induction l as [|c l IH]; intros result; cbn [fold_left map filter].
  - now rewrite app_nil_r.
  - rewrite IH. unfold nonEmpty at 2. cbv zeta.
    destruct (negb (isEmpty (ExtractClaimText (Some c))));
      [now rewrite <- app_assoc | reflexivity].
Qed.

Lemma length_filter_map (A B : Type) (f : A -> B) (p : B -> bool)
    (q : A -> bool) (l : list A) :
  (forall x, p (f x) = q x) ->
  List.length (filter p (map f l)) = List.length (filter q l).
Proof.
  intros H. induction l as [|x l IH]; [reflexivity|]. simpl.
  rewrite H. destruct (q x); simpl; now rewrite IH.
Qed.

(** X21: the list of the claim texts holds, in the order of the claims, the
    text of every claim that has one: a claim without text is left out,
    so that a text's index in the list is not the claim's position.
    Every text in the list is trimmed and not empty, and made of the
    claim's fragments joined by one space. *)
Theorem all_claims_text_filter (c : Claims) :
  ExtractAllClaimsText None = [] /\
  ExtractAllClaimsText (Some c)
  = filter nonEmpty
      (map (fun cl => Join (claimFragments (Claim_ClaimText cl)) " ")
         (ClaimList c)) /\
  Forall fragment (ExtractAllClaimsText (Some c)) /\
  List.length (ExtractAllClaimsText (Some c))
  = List.length
      (filter (fun cl =>
                 negb (List.length (claimFragments (Claim_ClaimText cl)) =? 0)%nat)
         (ClaimList c)).
Proof.
  split; [reflexivity|].
  assert (E : ExtractAllClaimsText (Some c)
              = filter nonEmpty
                  (map (fun cl => Join (claimFragments (Claim_ClaimText cl)) " ")
                     (ClaimList c))).
  { unfold ExtractAllClaimsText. rewrite allClaims_fold. simpl app.
    f_equal. apply map_ext. intros cl. unfold ExtractClaimText.
    apply extractClaimTextRecursive_spec. }
  split; [exact E|]. rewrite E. split.
  - apply filter_fragments, Forall_forall. intros s Hs.
    apply in_map_iff in Hs as (cl & <- & _).
    apply Join_trimmed; [apply space_low | apply claimFragments_fragments].
  - apply length_filter_map. intros cl.
    pose proof (claimFragments_fragments (Claim_ClaimText cl)) as F.
    destruct (claimFragments (Claim_ClaimText cl)) as [|x f] eqn:Ef;
      [reflexivity|].
    assert (Hne : Join (x :: f) " " <> EmptyString)
      by (apply Join_not_empty; [assumption | discriminate]).
    apply isEmpty_false in Hne. unfold nonEmpty. now rewrite Hne.
Qed.

End TextFacts.

Lemma abstract_text_blocks_witness :
  XML.ExtractAbstractText
    (Some (XML.mkAbstract "abstract" "EN"
             [XML.mkParagraph "p-0001" "0000" " A widget. " [] [] [] [];
              XML.mkParagraph "p-0002" "0001" "It turns." [] [] [] []]))
  = "A widget." ++ XML.blankLine ++ "It turns.".
Proof.
  destruct abstract_text_blocks as (_ & _ & H).
  rewrite H; [reflexivity|].
  intros p [<- | [<- | []]] E; vm_compute in E; discriminate E.
Defined.

Lemma description_text_exact_witness :
  XML.ExtractDescriptionText
    (Some (XML.mkDescription "description" "EN"
             [XML.mkHeading "h-0001" "1" " BACKGROUND "]
             [XML.mkParagraph "p-0001" "0001" "Widgets are known. "
                [] [] [] [];
              XML.mkParagraph "p-0002" "0002" "They turn." [] [] [] []]))
  = "BACKGROUND" ++ XML.blankLine ++ "Widgets are known."
      ++ XML.blankLine ++ "They turn.".
Proof.
  rewrite description_text_exact; [reflexivity | |].
  - intros h [<- | []] E; vm_compute in E; discriminate E.
  - intros p [<- | [<- | []]] E; vm_compute in E; discriminate E.
Defined.

(** ** Parsing: the detection of the type and the shape of the result *)

Section ParseMore.
Import GoXML XML.

Variable Element : Type.
Variable decode : string -> Decoded Element.
Variable grantFields : Element -> PatentGrant.
Variable applicationFields : Element -> PatentApplication.

Let parse := ParseXMLWithType Element decode grantFields applicationFields.

Lemma root_names_differ (s : string) :
  (s =? "us-patent-grant") = true ->
  (s =? "us-patent-application") = true -> False.
Proof.
  intros H1 H2. apply String.eqb_eq in H1, H2. congruence.
Qed.

(** X22: parsing without an expected type succeeds exactly when parsing as a
    grant or parsing as an application does, and with the same document;
    the two never both succeed.  When it fails, its error is always the
    same one, and says nothing of what the decoder complained about. *)
Theorem parse_detects_type (data : string) :
  (forall doc,
      ParseXML Element decode grantFields applicationFields data = Ok doc <->
      ParseGrantXML Element decode grantFields applicationFields data = Ok doc
      \/ ParseApplicationXML Element decode grantFields applicationFields data
         = Ok doc) /\
  (forall d1 d2,
      ParseGrantXML Element decode grantFields applicationFields data = Ok d1 ->
      ParseApplicationXML Element decode grantFields applicationFields data
      = Ok d2 -> False) /\
  (forall e,
      ParseXML Element decode grantFields applicationFields data = Err e ->
      e = ErrUnrecognizedDocument).
Proof.
  unfold ParseXML, ParseGrantXML, ParseApplicationXML, ParseXMLWithType,
    UnmarshalGrant, UnmarshalApplication, Unmarshal.
  change (DocumentTypeUnknown =? DocumentTypeGrant)%Z with false.
  change (DocumentTypeUnknown =? DocumentTypeApplication)%Z with false.
  change (DocumentTypeUnknown =? DocumentTypeUnknown)%Z with true.
  change (DocumentTypeGrant =? DocumentTypeGrant)%Z with true.
  change (DocumentTypeApplication =? DocumentTypeGrant)%Z with false.
  change (DocumentTypeApplication =? DocumentTypeApplication)%Z with true.
  cbv iota.
  destruct (decode data) as [e0 | name [el | e0]];
    try (destruct (Local name =? "us-patent-grant") eqn:Eg;
         destruct (Local name =? "us-patent-application") eqn:Ea;
         try (exfalso; exact (root_names_differ _ Eg Ea)));
    simpl; rewrite ?Eg, ?Ea; simpl;
    (split; [intros doc; split; [intros H; first [discriminate H | auto]
                                | intros [H | H]; first [discriminate H | auto]]
            | split; [intros d1 d2 H1 H2; first [discriminate H1 | discriminate H2]
                     | intros e H; first [discriminate H | congruence]]]).
Qed.

(** X23: a document that was parsed holds exactly one of the two kinds, whose
    root has the name of the kind; its type is never the unknown one, and
    is the expected type when one was given.  An expected type other than
    the three constants gives no document. *)
Theorem parse_result_shape (data : string) (t : DocumentType)
    (doc : XMLDocument) :
  parse data t = Ok doc ->
  ((exists g,
       doc = mkXMLDocument (Some g) None /\
       Local (Grant_XMLName g) = "us-patent-grant" /\
       GetDocumentType doc = DocumentTypeGrant /\
       (t = DocumentTypeGrant \/ t = DocumentTypeUnknown)) \/
   (exists a,
       doc = mkXMLDocument None (Some a) /\
       Local (Application_XMLName a) = "us-patent-application" /\
       GetDocumentType doc = DocumentTypeApplication /\
       (t = DocumentTypeApplication \/ t = DocumentTypeUnknown))).
Proof.
  unfold parse, ParseXMLWithType, UnmarshalGrant, UnmarshalApplication,
    Unmarshal.
  destruct (t =? DocumentTypeGrant)%Z eqn:T1;
    [apply Z.eqb_eq in T1
    |destruct (t =? DocumentTypeApplication)%Z eqn:T2;
       [apply Z.eqb_eq in T2
       |destruct (t =? DocumentTypeUnknown)%Z eqn:T3;
          [apply Z.eqb_eq in T3 | discriminate]]];
    (destruct (decode data) as [e0 | name [el | e0]];
     try (destruct (Local name =? "us-patent-grant") eqn:Eg;
          destruct (Local name =? "us-patent-application") eqn:Ea;
          try (exfalso; exact (root_names_differ _ Eg Ea)));
     simpl; rewrite ?Eg, ?Ea; simpl; intros H; try discriminate H;
     inversion H; subst doc;
     try apply String.eqb_eq in Eg; try apply String.eqb_eq in Ea;
     first [ left; eexists; simpl; solve [repeat split; auto]
           | right; eexists; simpl; solve [repeat split; auto] ]).
Qed.

End ParseMore.

Lemma parse_detects_type_witness :
  XML.ParseXML string XML.sampleDecode XML.sampleGrantFields
    XML.sampleApplicationFields XML.sampleApplication
  = Ok (XML.mkXMLDocument None
          (Some (XML.setApplicationXMLName
                   (GoXML.mkName EmptyString "us-patent-application")
                   (XML.sampleApplicationFields "EN")))) /\
  XML.ParseXML string XML.sampleDecode XML.sampleGrantFields
    XML.sampleApplicationFields XML.brokenApplication
  = Err ErrUnrecognizedDocument.
Proof.
  destruct (parse_detects_type string XML.sampleDecode XML.sampleGrantFields
              XML.sampleApplicationFields XML.sampleApplication)
    as (H & _ & _).
  destruct (parse_detects_type string XML.sampleDecode XML.sampleGrantFields
              XML.sampleApplicationFields XML.brokenApplication)
    as (_ & _ & H2).
  split.
  - apply H. right. reflexivity.
  - destruct (XML.ParseXML string XML.sampleDecode XML.sampleGrantFields
                XML.sampleApplicationFields XML.brokenApplication)
      as [d | e] eqn:E.
    + vm_compute in E. discriminate E.
    + f_equal. exact (H2 e eq_refl).
Defined.

Lemma parse_result_shape_witness :
  exists g,
    XML.ParseXML string XML.sampleDecode XML.sampleGrantFields
      XML.sampleApplicationFields XML.sampleGrant
    = Ok (XML.mkXMLDocument (Some g) None) /\
    GoXML.Local (XML.Grant_XMLName g) = "us-patent-grant".
Proof.
  destruct (parse_result_shape string XML.sampleDecode XML.sampleGrantFields
              XML.sampleApplicationFields XML.sampleGrant
              XML.DocumentTypeUnknown
              (XML.mkXMLDocument
                 (Some (XML.setGrantXMLName
                          (GoXML.mkName EmptyString "us-patent-grant")
                          (XML.sampleGrantFields "EN"))) None)
              eq_refl)
    as [(g & D & L & _) | (a & D & _)]; [|discriminate D].
  exists g. split; [|exact L]. rewrite <- D. reflexivity.
Defined.

(** ** Bulk files *)

Section BulkFacts.
Import Bulk.

Lemma drop_append (p t : string) : drop (len p) (p ++ t) = t.
Proof. induction p as [|a p IH]; [destruct t; reflexivity | exact IH]. Qed.

Lemma drop_plus (i j : nat) (s : string) :
  drop (i + j) s = drop j (drop i s).
Proof.
  revert s. induction i as [|i IH]; intros s; [reflexivity|].
  destruct s as [|a s]; [destruct j; reflexivity | apply IH].
Qed.

(** An index that [strings.Index] returns is that of an instance. *)
Lemma Index_sound : forall s substr i,
  Index s substr = Some i ->
  exists pre t, s = pre ++ substr ++ t /\ len pre = i.
Proof.
  induction s as [|a s IH]; intros substr i; cbn [Index].
  - destruct (HasPrefix EmptyString substr) eqn:E; [|discriminate].
    intros H. inversion H. apply HasPrefix_spec in E as [t E].
    exists EmptyString, t. auto.
  - destruct (HasPrefix (String a s) substr) eqn:E.
    + intros H. inversion H. apply HasPrefix_spec in E as [t E].
      exists EmptyString, t. auto.
    + destruct (Index s substr) as [j|] eqn:Ej; [|discriminate].
      intros H. inversion H. destruct (IH _ _ Ej) as (pre & t & Hs & Hl).
      exists (String a pre), t. simpl. rewrite <- Hs, Hl. auto.
Qed.

(** X24: the URIs that the check accepts are those under the fixed prefix,
    whatever the base URL of the client; the empty URI has an error of
    its own. *)
Theorem validate_accepts_prefix (uri : string) :
  (validateFileDownloadURI uri = None <->
   exists rest, uri = expectedPrefix ++ rest) /\
  (forall e,
      validateFileDownloadURI uri = Some e ->
      (uri = EmptyString /\ e = ErrEmptyURI) \/
      (uri <> EmptyString /\ e = ErrInvalidURI expectedPrefix uri)).
Proof.
  unfold validateFileDownloadURI. destruct uri as [|a uri].
  - split; [split; [discriminate | intros [rest H]; discriminate H]|].
    intros e H. inversion H. auto.
  - cbn [isEmpty]. rewrite <- HasPrefix_spec.
    destruct (HasPrefix (String a uri) expectedPrefix); simpl.
    + split; [tauto | discriminate].
    + split; [split; discriminate|]. intros e H. inversion H.
      right. split; [discriminate | reflexivity].
Qed.

(** X25: the path that is taken out of a URI is the end of the URI, after
    an instance of the segment of the product. *)
Theorem extract_path_suffix (uri productID : string) :
  extractFilePathFromURI uri productID <> EmptyString ->
  exists pre,
    uri = pre ++ "/products/files/" ++ productID ++ "/"
            ++ extractFilePathFromURI uri productID.
Proof.
  unfold extractFilePathFromURI.
  destruct (isEmpty uri || isEmpty productID); [congruence|]. cbv zeta.
  destruct (Index uri _) as [i|] eqn:E; [|congruence].
  destruct (len uri <=? _)%nat; [congruence|]. intros _.
  apply Index_sound in E as (pre & t & Hs & Hl). exists pre.
  rewrite Hs at 2. rewrite <- Hl, drop_plus, drop_append, drop_append.
  rewrite Hs at 1. now rewrite !append_assoc_s.
Qed.

Lemma Index_unfold (s substr : string) :
  Index s substr
  = if HasPrefix s substr then Some 0
    else
      match s with
      | EmptyString => None
      | String _ s' =>
          match Index s' substr with
          | Some i => Some (S i)
          | None => None
          end
      end.
Proof. destruct s; reflexivity. Qed.

(** The first instance: no instance starts before it. *)
Lemma Index_first : forall pre substr t,
  (forall i, i < len pre ->
             HasPrefix (drop i (pre ++ substr ++ t)) substr = false) ->
  Index (pre ++ substr ++ t) substr = Some (len pre).
Proof.
  induction pre as [|a pre IH]; intros substr t H.
  - rewrite Index_unfold. cbn [append]. now rewrite HasPrefix_append.
  - rewrite Index_unfold.
    pose proof (H 0 ltac:(simpl; lia)) as H0. cbn [drop] in H0.
    rewrite H0. cbn [append].
    rewrite IH; [reflexivity|].
    intros i Hi. apply (H (S i)). simpl. lia.
Qed.

(** No instance of a string that starts with "/p" starts in the part
    of the prefix that comes before "/products/files/". *)
Lemma pattern_not_before (i : nat) (x y : string) :
  i < 37 ->
  HasPrefix (drop i ("https://api.uspto.gov/api/v1/datasets" ++ x))
    (String "/" (String "p" y)) = false.
Proof.
  intros Hi.
  do 37 (destruct i as [|i]; [reflexivity|]). lia.
Qed.

(** X26: a URI made of the prefix of the service, a product, a slash and a
    path passes the check, and the path is what is taken out of it. *)
Theorem extract_path_of_valid (productID path : string) :
  productID <> EmptyString -> path <> EmptyString ->
  validateFileDownloadURI (expectedPrefix ++ productID ++ "/" ++ path)
  = None /\
  extractFilePathFromURI (expectedPrefix ++ productID ++ "/" ++ path)
    productID = path.
Proof.
  intros Hp Hf. split.
  - unfold validateFileDownloadURI. rewrite HasPrefix_append. reflexivity.
  - unfold extractFilePathFromURI.
    apply isEmpty_false in Hp. rewrite Hp.
    change (isEmpty (expectedPrefix ++ productID ++ "/" ++ path))
      with false.
    cbn [orb]. cbv zeta.
    set (pattern := "/products/files/" ++ productID ++ "/").
    replace (expectedPrefix ++ productID ++ "/" ++ path)
      with ("https://api.uspto.gov/api/v1/datasets" ++ pattern ++ path)
      by (unfold pattern, expectedPrefix; cbn [append];
          now rewrite append_assoc_s).
    rewrite Index_first.
    + rewrite drop_plus, drop_append, drop_append.
      rewrite !length_append_s.
      destruct path as [|c path]; [congruence|].
      replace (_ <=? _)%nat with false; [reflexivity|].
      symmetry. apply Nat.leb_gt. unfold len. simpl. lia.
    + intros i Hi. apply pattern_not_before. exact Hi.
Qed.

End BulkFacts.

Lemma validate_accepts_prefix_witness :
  Bulk.validateFileDownloadURI
    "https://api.uspto.gov/api/v1/datasets/products/files/PTGRXML/2025/ipg250107.zip"
  = None /\
  Bulk.validateFileDownloadURI
    "https://example.org/api/v1/datasets/products/files/PTGRXML/2025/ipg250107.zip"
  = Some (Bulk.ErrInvalidURI Bulk.expectedPrefix
            "https://example.org/api/v1/datasets/products/files/PTGRXML/2025/ipg250107.zip").
Proof.
  split.
  - apply (validate_accepts_prefix
             "https://api.uspto.gov/api/v1/datasets/products/files/PTGRXML/2025/ipg250107.zip").
    exists "PTGRXML/2025/ipg250107.zip". reflexivity.
  - destruct (validate_accepts_prefix
                "https://example.org/api/v1/datasets/products/files/PTGRXML/2025/ipg250107.zip")
      as [_ H].
    destruct (H _ eq_refl) as [[E _] | [_ E]]; [discriminate E|].
    reflexivity.
Defined.

Lemma extract_path_suffix_witness :
  Bulk.extractFilePathFromURI
    "https://mirror.example/products/files/PTGRXML/2025/ipg250107.zip"
    "PTGRXML"
  = "2025/ipg250107.zip" /\
  exists pre,
    "https://mirror.example/products/files/PTGRXML/2025/ipg250107.zip"
    = pre ++ "/products/files/" ++ "PTGRXML" ++ "/" ++ "2025/ipg250107.zip".
Proof.
  split; [reflexivity|].
  apply (extract_path_suffix
           "https://mirror.example/products/files/PTGRXML/2025/ipg250107.zip"
           "PTGRXML").
  discriminate.
Defined.

Lemma extract_path_of_valid_witness :
  Bulk.validateFileDownloadURI
    (Bulk.expectedPrefix ++ "PTGRXML" ++ "/" ++ "2025/ipg250107.zip")
  = None /\
  Bulk.extractFilePathFromURI
    (Bulk.expectedPrefix ++ "PTGRXML" ++ "/" ++ "2025/ipg250107.zip")
    "PTGRXML"
  = "2025/ipg250107.zip".
Proof. apply extract_path_of_valid; discriminate. Defined.

(** ** The number in the header of a formatted claim *)

Section ClaimNumberFacts.
Import XML.

Lemma SkipSpace_digit (a : ascii) (s : string) :
  digit a = true -> GoFmt.SkipSpace (String a s) = Some (String a s).
Proof.
  intros H. cbn [GoFmt.SkipSpace].
  assert (E10 : eqByte 10 a = false) by bytes.
  rewrite E10, (digit_not_space1 _ H).
  pose proof (digit_low _ H) as L.
  destruct s as [|b s2]; [reflexivity|].
  destruct (isSpace2 a b) eqn:E2; [apply isSpace2_high in E2; lia|].
  destruct s2 as [|c s3]; [reflexivity|].
  destruct (isSpace3 a b c) eqn:E3; [apply isSpace3_high in E3; lia|].
  reflexivity.
Qed.

Lemma span_digits (rest : string) :
  match rest with
  | String a _ => digit a = false
  | EmptyString => True
  end ->
  forall digits,
    all digit digits = true ->
    GoFmt.span GoFmt.isDecimalDigit (digits ++ rest) = (digits, rest).
Proof.
  intros Hr. induction digits as [|a d IH]; intros Hd.
  - destruct rest as [|b r]; [reflexivity|]. cbn [append GoFmt.span].
    change (GoFmt.isDecimalDigit b) with (digit b). now rewrite Hr.
  - cbn [all] in Hd. apply andb_true_iff in Hd as [Ha Hd].
    cbn [append GoFmt.span]. change (GoFmt.isDecimalDigit a) with (digit a).
    now rewrite Ha, (IH Hd).
Qed.

Lemma decimal_nonneg : forall s acc,
  (0 <= acc)%Z -> all digit s = true -> (0 <= GoFmt.decimal acc s)%Z.
Proof.
  induction s as [|a s IH]; intros acc Hacc Hd; [exact Hacc|].
  cbn [all] in Hd. apply andb_true_iff in Hd as [Ha Hd].
  cbn [GoFmt.decimal]. apply IH; [|exact Hd].
  assert (48 <= byte a)%N by bytes. lia.
Qed.

(** X28: the number in the header of a claim whose attribute [num] starts
    with decimal digits is the value of these digits (when it fits in 64
    bits), whatever follows them: the attributes "12", "12_3" and
    "12abc" all give 12, at any position of the claim. *)
Theorem claim_number_leading_digits (i : nat) (claim : Claim)
    (digits rest : string) :
  Num claim = digits ++ rest ->
  digits <> EmptyString -> all digit digits = true ->
  match rest with
  | String a _ => digit a = false
  | EmptyString => True
  end ->
  (GoFmt.decimal 0 digits <= 2 ^ 63 - 1)%Z ->
  claimNumber i claim = GoFmt.decimal 0 digits.
Proof.
  intros HN Hne Hd Hr Hmax. unfold claimNumber. rewrite HN.
  destruct digits as [|a d]; [congruence|].
  cbn [append isEmpty negb]. cbv zeta iota.
  pose proof Hd as Hd'. cbn [all] in Hd'.
  apply andb_true_iff in Hd' as [Ha _].
  unfold GoFmt.Sscanf_d. rewrite !SkipSpace_digit by exact Ha.
  assert (Es : GoFmt.isSign a = false) by bytes. rewrite Es.
  change (String a (d ++ rest)) with (String a d ++ rest).
  rewrite (span_digits rest Hr (String a d) Hd).
  cbn [isEmpty]. unfold GoFmt.ParseInt.
  change (between 48 57) with digit. rewrite Hd.
  pose proof (decimal_nonneg (String a d) 0 ltac:(lia) Hd) as H0.
  replace ((- 2 ^ 63 <=? GoFmt.decimal 0 (String a d))%Z) with true
    by (symmetry; apply Z.leb_le; lia).
  replace ((GoFmt.decimal 0 (String a d) <=? 2 ^ 63 - 1)%Z) with true
    by (symmetry; apply Z.leb_le; lia).
  reflexivity.
Qed.

End ClaimNumberFacts.

Lemma claim_number_leading_digits_witness :
  XML.claimNumber 3
    (XML.mkClaim "CLM-00004" "12_3"
       [XML.mkClaimText "" "The system of claim 9." [] [] [] [] []])
  = 12%Z.
Proof.
  apply (claim_number_leading_digits 3 _ "12" "_3");
    [reflexivity | discriminate | reflexivity | reflexivity
    | vm_compute; discriminate].
Defined.
